(** * Podcast-RSS-API: the safe-fetch-and-normalize pipeline of
    [src/routes/api/podcast.js], embedded shallowly.

    Part I holds the embedding (one module per component of the source
    file), Part II the properties proved about it.

    JavaScript strings are represented by their UTF-8 bytes ([string]);
    integers that the code keeps in a JS number are represented exactly
    in [Z], and [NaN] by [None]. *)

From Stdlib Require Import ZArith List String Ascii Bool Lia.
Import ListNotations.
Local Open Scope string_scope.
Local Open Scope Z_scope.

(* ================================================================== *)
(** * Part I.  The embedding                                           *)
(* ================================================================== *)

(** ** JavaScript string primitives used by the source *)
Module Js.

Definition LF : ascii := "010"%char.
Definition CR : ascii := "013"%char.
Definition TAB : ascii := "009"%char.
Definition DQ : ascii := "034"%char.
Definition SQ : ascii := "039"%char.

Definition code (c : ascii) : Z := Z.of_N (N_of_ascii c).

Definition is_digit (c : ascii) : bool := (48 <=? code c) && (code c <=? 57).
Definition digit_val (c : ascii) : Z := code c - 48.
Definition is_upper (c : ascii) : bool := (65 <=? code c) && (code c <=? 90).
Definition is_lower (c : ascii) : bool := (97 <=? code c) && (code c <=? 122).
Definition is_alpha (c : ascii) : bool := is_upper c || is_lower c.
(** [\w] of a regular expression without the [u] flag. *)
Definition is_word (c : ascii) : bool :=
  is_alpha c || is_digit c || Ascii.eqb c "_"%char.

Definition lower_char (c : ascii) : ascii :=
  if is_upper c then ascii_of_N (N_of_ascii c + 32) else c.

(** [String.prototype.toLowerCase] on the ASCII letters; the bytes of a
    non-ASCII character are kept. *)
Fixpoint toLowerCase (s : string) : string :=
  match s with
  | EmptyString => EmptyString
  | String c r => String (lower_char c) (toLowerCase r)
  end.

(** [s.startsWith(p)]. *)
Definition startsWith (p s : string) : bool := String.prefix p s.

Fixpoint rev_acc (s acc : string) : string :=
  match s with
  | EmptyString => acc
  | String c r => rev_acc r (String c acc)
  end.
Definition rev (s : string) : string := rev_acc s EmptyString.

(** [s.endsWith(p)]. *)
Definition endsWith (p s : string) : bool := String.prefix (rev p) (rev s).

(** [s.includes(p)] for a one-character pattern. *)
Fixpoint has_char (x : ascii) (s : string) : bool :=
  match s with
  | EmptyString => false
  | String c r => Ascii.eqb c x || has_char x r
  end.

(** Every character of [s] is in the class [p]. *)
Fixpoint all_chars (p : ascii -> bool) (s : string) : bool :=
  match s with
  | EmptyString => true
  | String c r => p c && all_chars p r
  end.

(** One white-space character of ECMAScript ([WhiteSpace] or
    [LineTerminator], the class of [\s] and of [trim]) at the head of
    [s], in UTF-8: its bytes, and the rest of the string. *)
Definition ws_head (s : string) : option (string * string) :=
  match s with
  | String c r =>
      let n := code c in
      if ((9 <=? n) && (n <=? 13)) || (n =? 32) then Some (String c "", r)
      else
        match r with
        | String c1 r1 =>
            let n1 := code c1 in
            if (n =? 194) && (n1 =? 160) then Some (String c (String c1 ""), r1) (* U+00A0 *)
            else
              match r1 with
              | String c2 r2 =>
                  let n2 := code c2 in
                  let w := String c (String c1 (String c2 "")) in
                  if (n =? 225) && (n1 =? 154) && (n2 =? 128) then Some (w, r2) (* U+1680 *)
                  else if (n =? 226) && (n1 =? 128)
                          && (((128 <=? n2) && (n2 <=? 138)) (* U+2000..U+200A *)
                              || (n2 =? 168) || (n2 =? 169) (* U+2028, U+2029 *)
                              || (n2 =? 175)) (* U+202F *)
                       then Some (w, r2)
                  else if (n =? 226) && (n1 =? 129) && (n2 =? 159) then Some (w, r2) (* U+205F *)
                  else if (n =? 227) && (n1 =? 128) && (n2 =? 128) then Some (w, r2) (* U+3000 *)
                  else if (n =? 239) && (n1 =? 187) && (n2 =? 191) then Some (w, r2) (* U+FEFF *)
                  else None
              | EmptyString => None
              end
        | EmptyString => None
        end
  | EmptyString => None
  end.

(** The longest white-space prefix of a string ([\s*]), and the rest.
    The fuel is the length of the string: every step consumes a byte. *)
Fixpoint span_ws_fuel (fuel : nat) (s : string) : string * string :=
  match fuel with
  | O => (EmptyString, s)
  | S k => match ws_head s with
           | Some (w, r) => let '(a, b) := span_ws_fuel k r in (w ++ a, b)
           | None => (EmptyString, s)
           end
  end.
Definition span_ws (s : string) : string * string := span_ws_fuel (String.length s) s.

(** [trimStart]. *)
Definition skip_ws (s : string) : string := snd (span_ws s).

Definition is_blank (s : string) : bool :=
  match skip_ws s with EmptyString => true | _ => false end.

Fixpoint trimEnd (s : string) : string :=
  match s with
  | EmptyString => EmptyString
  | String c r => if is_blank s then EmptyString else String c (trimEnd r)
  end.

(** [String.prototype.trim]. *)
Definition trim (s : string) : string := trimEnd (skip_ws s).

(** [s.split(sep)] for a one-character separator. *)
Fixpoint split_char (sep : ascii) (s : string) : list string :=
  match s with
  | EmptyString => [EmptyString]
  | String c r =>
      if Ascii.eqb c sep then EmptyString :: split_char sep r
      else match split_char sep r with
           | h :: t => String c h :: t
           | [] => [String c EmptyString]
           end
  end.

(** The value of the longest run of decimal digits at the head of [s],
    continuing the accumulator [acc]; [seen] tells whether a digit was read. *)
Fixpoint digits_from (s : string) (seen : bool) (acc : Z) : option Z :=
  match s with
  | String c r =>
      if is_digit c then digits_from r true (10 * acc + digit_val c)
      else if seen then Some acc else None
  | EmptyString => if seen then Some acc else None
  end.

(** [Number.parseInt(s, 10)] on a string: [None] is [NaN]. *)
Definition parseInt10 (s : string) : option Z :=
  match skip_ws s with
  | String c r =>
      if Ascii.eqb c "-" then option_map Z.opp (digits_from r false 0)
      else if Ascii.eqb c "+" then digits_from r false 0
      else digits_from (String c r) false 0
  | EmptyString => None
  end.

(** Decimal digits of a non-negative integer, most significant first. *)
Fixpoint dec_digits (fuel : nat) (n : Z) (acc : string) : string :=
  match fuel with
  | O => acc
  | S k =>
      let acc' := String (ascii_of_N (Z.to_N (48 + n mod 10))) acc in
      if n <? 10 then acc' else dec_digits k (n / 10) acc'
  end.

(** [String(n)] for an integer [n]. *)
Definition string_of_Z (n : Z) : string :=
  if n <? 0 then String "-" (dec_digits (S (Z.to_nat (Z.log2 (- n)))) (- n) EmptyString)
  else dec_digits (S (Z.to_nat (Z.log2 n))) n EmptyString.

(** [arr.slice(start, end)] with the relative-index rules of
    ECMAScript: a negative index counts from the end. *)
Definition rel_index (len i : Z) : Z :=
  if i <? 0 then Z.max (len + i) 0 else Z.min i len.

Definition slice {A : Type} (l : list A) (start stop : Z) : list A :=
  let len := Z.of_nat (List.length l) in
  let k := rel_index len start in
  let e := rel_index len stop in
  firstn (Z.to_nat (Z.max (e - k) 0)) (skipn (Z.to_nat k) l).

End Js.

(** ** [net.isIP]: the textual address syntax Node accepts

    [net] is a module of the runtime, not of this repository; it is
    modelled by a parser that also yields the numeric address, so that
    [isIP] and the numeric reading of an address agree by construction. *)
Module Net.
Import Js.

Definition is_hex (c : ascii) : bool :=
  is_digit c || ((97 <=? code c) && (code c <=? 102))
             || ((65 <=? code c) && (code c <=? 70)).

Definition hex_val (c : ascii) : Z :=
  if is_digit c then code c - 48
  else if 97 <=? code c then code c - 87
  else code c - 55.

(** One decimal octet of a dotted quad: digits only, no leading zero,
    at most 255. *)
Definition dec_octet (s : string) : option Z :=
  match s with
  | EmptyString => None
  | String c r =>
      if all_chars is_digit s
         && (Nat.leb (String.length s) 3)
         && (negb (Ascii.eqb c "0") || (String.length s =? 1)%nat)
      then match digits_from s false 0 with
           | Some v => if v <=? 255 then Some v else None
           | None => None
           end
      else None
  end.

Fixpoint all_some {A : Type} (l : list (option A)) : option (list A) :=
  match l with
  | [] => Some []
  | Some x :: t => option_map (cons x) (all_some t)
  | None :: _ => None
  end.

(** The four octets of a dotted-quad IPv4 address. *)
Definition parseIPv4 (s : string) : option (list Z) :=
  match all_some (map dec_octet (split_char "." s)) with
  | Some [a; b; c; d] => Some [a; b; c; d]
  | _ => None
  end.

Fixpoint hex_from (s : string) (acc : Z) : Z :=
  match s with
  | EmptyString => acc
  | String c r => hex_from r (16 * acc + hex_val c)
  end.

(** One group of an IPv6 address: one to four hexadecimal digits. *)
Definition hex_group (s : string) : option Z :=
  match s with
  | EmptyString => None
  | _ => if all_chars is_hex s && Nat.leb (String.length s) 4
         then Some (hex_from s 0) else None
  end.

(** The colon-separated groups of one side of an address; when
    [tail] is set the last group may be a dotted quad, worth two groups. *)
Fixpoint groups_of (tail : bool) (l : list string) : option (list Z) :=
  match l with
  | [] => Some []
  | [g] =>
      match hex_group g with
      | Some v => Some [v]
      | None =>
          if tail then
            match parseIPv4 g with
            | Some [a; b; c; d] => Some [256 * a + b; 256 * c + d]
            | _ => None
            end
          else None
      end
  | g :: t =>
      match hex_group g, groups_of tail t with
      | Some v, Some vs => Some (v :: vs)
      | _, _ => None
      end
  end.

Definition side_groups (tail : bool) (s : string) : option (list Z) :=
  match s with
  | EmptyString => Some []
  | _ => groups_of tail (split_char ":" s)
  end.

Definition drop_one (s : string) : string :=
  match s with
  | String _ r => r
  | EmptyString => EmptyString
  end.

(** The text before and after the first [::] of [s]. *)
Fixpoint split_dcolon (s : string) : option (string * string) :=
  match s with
  | String c r =>
      if Ascii.eqb c ":" && startsWith ":" r then Some (EmptyString, drop_one r)
      else match split_dcolon r with
           | Some (a, b) => Some (String c a, b)
           | None => None
           end
  | EmptyString => None
  end.

(** The address text and the zone index after [%], when there is one. *)
Fixpoint split_zone (s : string) : string * option string :=
  match s with
  | EmptyString => (EmptyString, None)
  | String c r =>
      if Ascii.eqb c "%" then (EmptyString, Some r)
      else let '(a, z) := split_zone r in (String c a, z)
  end.

Definition is_zone_char (c : ascii) : bool :=
  is_digit c || is_alpha c || Ascii.eqb c "-" || Ascii.eqb c "." || Ascii.eqb c ":".

(** The eight 16-bit groups of an IPv6 address. *)
Definition parseIPv6 (s : string) : option (list Z) :=
  let '(addr, zone) := split_zone s in
  let zone_ok := match zone with
                 | None => true
                 | Some EmptyString => false
                 | Some z => all_chars is_zone_char z
                 end in
  if negb zone_ok then None
  else
    match split_dcolon addr with
    | None =>
        match side_groups true addr with
        | Some gs => if (List.length gs =? 8)%nat then Some gs else None
        | None => None
        end
    | Some (l, r) =>
        match side_groups false l, side_groups true r with
        | Some gl, Some gr =>
            let n := (List.length gl + List.length gr)%nat in
            if Nat.leb n 7 then Some (gl ++ repeat 0 (8 - n) ++ gr)%list else None
        | _, _ => None
        end
    end.

(** [net.isIP(s)]: 4, 6, or 0 when [s] is no address. *)
Definition isIP (s : string) : Z :=
  match parseIPv4 s with
  | Some _ => 4
  | None => match parseIPv6 s with
            | Some _ => 6
            | None => 0
            end
  end.

End Net.

(** ** The SSRF guard *)
Module Ssrf.
Import Js Net.

(** The errors a fetch can fail with; the source raises [Error]s that
    differ by their message only. *)
Inductive FetchError : Type :=
| InvalidUrl          (* the URL does not parse, or has no host *)
| UnsupportedScheme   (* neither http: nor https: *)
| ForbiddenHost       (* localhost or a name under .localhost *)
| ForbiddenAddress    (* a private or reserved address *)
| DnsFailure          (* the lookup gave no address *)
| TooManyRedirects
| HttpStatus (status : Z)
| TooLarge
| DecodeFailure
| Timeout
| NetworkError (message : string)
| Uncaught.           (* an exception thrown outside the promise *)

(** [const [a, b] = ip.split(".").map((part) => Number.parseInt(part, 10))]
    and the tests on [a] and [b]; a comparison with [NaN] or with the
    [undefined] of a missing element is false. *)
Definition privateV4 (ip : string) : bool :=
  let parts := map parseInt10 (split_char "." ip) in
  let a := nth 0 parts None in
  let b := nth 1 parts None in
  let equals (x : option Z) (v : Z) := match x with Some n => n =? v | None => false end in
  let between (x : option Z) (lo hi : Z) :=
    match x with Some n => (lo <=? n) && (n <=? hi) | None => false end in
  if equals a 10 then true
  else if equals a 127 then true
  else if equals a 0 then true
  else if equals a 169 && equals b 254 then true
  else if equals a 172 && between b 16 31 then true
  else if equals a 192 && equals b 168 then true
  else if equals a 100 && between b 64 127 then true
  else false.

(** [s.replace(pat, "")] for a pattern that is a prefix of [s]. *)
Fixpoint drop_prefix (p s : string) : string :=
  match p, s with
  | String _ p', String _ s' => drop_prefix p' s'
  | _, _ => s
  end.

(** [isPrivateIp]; the call on the embedded address of an IPv4-mapped
    one is the only recursive call, hence the fuel. *)
Fixpoint isPrivateIp_fuel (fuel : nat) (ip : string) : option bool :=
  match fuel with
  | O => None
  | S k =>
      if isIP ip =? 4 then Some (privateV4 ip)
      else if isIP ip =? 6 then
        let normalized := toLowerCase ip in
        if String.eqb normalized "::1" then Some true
        else if startsWith "fe80:" normalized then Some true
        else if startsWith "fc" normalized || startsWith "fd" normalized then Some true
        else if startsWith "::ffff:" normalized then
          let mapped := drop_prefix "::ffff:" normalized in
          if isIP mapped =? 4 then isPrivateIp_fuel k mapped else Some false
        else Some false
      else Some false
  end.

Definition isPrivateIp (ip : string) : bool :=
  match isPrivateIp_fuel 2 ip with
  | Some b => b
  | None => false
  end.

(** What [ensurePublicUrl] reads of a parsed [URL]. *)
Record ParsedUrl : Type := mkUrl {
  protocol : string;
  hostname : string;
  href : string
}.

(** [ensurePublicUrl]: [None] when it returns, [Some e] when it throws. *)
Definition ensurePublicUrl (parsedUrl : ParsedUrl) : option FetchError :=
  if String.eqb (hostname parsedUrl) "" then Some InvalidUrl
  else if negb (existsb (String.eqb (protocol parsedUrl)) ["http:"; "https:"])
  then Some UnsupportedScheme
  else
    let hostname := toLowerCase (hostname parsedUrl) in
    if String.eqb hostname "localhost" || endsWith ".localhost" hostname
    then Some ForbiddenHost
    else if negb (isIP hostname =? 0) then
      if isPrivateIp hostname then Some ForbiddenAddress else None
    else None.

(** One record of [dns.lookup(hostname, { all: true })]. *)
Record LookupAddress : Type := mkAddr {
  address : string;
  family : Z
}.

(** [resolvePublicAddress], given what the lookup resolved to ([None]
    for a value that is no array). *)
Definition resolvePublicAddress (addresses : option (list LookupAddress))
  : FetchError + LookupAddress :=
  match addresses with
  | None | Some [] => inl DnsFailure
  | Some l =>
      match find (fun record => negb (isPrivateIp (address record))) l with
      | Some publicAddress => inr publicAddress
      | None => inl ForbiddenAddress
      end
  end.

(** What the source tests on the first two octets of an IPv4 address,
    and on the text of an IPv6 address. *)
Definition octet_rule (a b : Z) : bool :=
  (a =? 10) || (a =? 127) || (a =? 0) || ((a =? 169) && (b =? 254))
  || ((a =? 172) && ((16 <=? b) && (b <=? 31))) || ((a =? 192) && (b =? 168))
  || ((a =? 100) && ((64 <=? b) && (b <=? 127))).

Definition text_rule_v6 (ip : string) : bool :=
  let normalized := toLowerCase ip in
  String.eqb normalized "::1"
  || startsWith "fe80:" normalized
  || startsWith "fc" normalized || startsWith "fd" normalized
  || (startsWith "::ffff:" normalized
      && (isIP (drop_prefix "::ffff:" normalized) =? 4)
      && isPrivateIp (drop_prefix "::ffff:" normalized)).

Definition dotted_char (c : ascii) : bool := is_digit c || Ascii.eqb c ".".

(** *** The classification as the specification words it: by the
    numeric value of the address and CIDR blocks. *)

Definition ipv4_value (o : list Z) : Z :=
  fold_left (fun acc x => 256 * acc + x) o 0.

Definition ipv6_value (g : list Z) : Z :=
  fold_left (fun acc x => 65536 * acc + x) g 0.

(** [v] lies in the block [net/len] of a [width]-bit address space. *)
Definition in_block (width v net len : Z) : bool :=
  Z.shiftr v (width - len) =? Z.shiftr net (width - len).

Definition v4 (a b c d : Z) : Z := ipv4_value [a; b; c; d].

Definition reserved_v4 (v : Z) : bool :=
  in_block 32 v (v4 0 0 0 0) 8
  || in_block 32 v (v4 10 0 0 0) 8
  || in_block 32 v (v4 127 0 0 0) 8
  || in_block 32 v (v4 169 254 0 0) 16
  || in_block 32 v (v4 172 16 0 0) 12
  || in_block 32 v (v4 192 168 0 0) 16
  || in_block 32 v (v4 100 64 0 0) 10.

Definition reserved_v6 (v : Z) : bool :=
  (v =? 1)
  || in_block 128 v (ipv6_value [65152; 0; 0; 0; 0; 0; 0; 0]) 10   (* fe80::/10 *)
  || in_block 128 v (ipv6_value [64512; 0; 0; 0; 0; 0; 0; 0]) 7    (* fc00::/7 *)
  || (in_block 128 v (ipv6_value [0; 0; 0; 0; 0; 65535; 0; 0]) 96  (* ::ffff:0:0/96 *)
      && reserved_v4 (v mod 2 ^ 32)).

(** Private or reserved, read off the numeric address. *)
Definition reserved_address (ip : string) : bool :=
  match parseIPv4 ip with
  | Some o => reserved_v4 (ipv4_value o)
  | None =>
      match parseIPv6 ip with
      | Some g => reserved_v6 (ipv6_value g)
      | None => false
      end
  end.


End Ssrf.

(** ** The safe fetcher: [fetchRss] *)
Module Fetch.
Import Js Net Ssrf.

Definition MAX_REDIRECTS : Z := 3.
Definition MAX_RSS_BYTES : Z := 5 * 1024 * 1024.

(** What the code uses of Node's [Buffer] and [zlib]. A decompressor
    yields [None] when it calls back with an error. *)
Class Buffers : Type := {
  Buffer : Type;
  byteLength : Buffer -> Z;                       (* chunk.length *)
  byteLength_nonneg : forall b, 0 <= byteLength b;
  concat : list Buffer -> Buffer;                 (* Buffer.concat(chunks) *)
  toUtf8 : Buffer -> string;                      (* buffer.toString("utf8") *)
  gunzip : Buffer -> option Buffer;
  inflate : Buffer -> option Buffer;
  brotliDecompress : Buffer -> option Buffer
}.

(** A response as [fetchRss] reads it: the status, two headers, and the
    chunks its stream emits before it ends. *)
Record Response `{Buffers} : Type := mkResponse {
  statusCode : Z;
  location : option string;           (* headers.location *)
  contentEncoding : option string;    (* headers["content-encoding"] *)
  body : list Buffer
}.

(** What lies outside the process: the URL parser, the resolver and the
    HTTP client. [request] is given the pinned address when the host was
    resolved; it yields the error of the request's [error] event (the
    time-out included) or the response. *)
Class Network `{Buffers} : Type := {
  parseUrl : string -> option ParsedUrl;                 (* new URL(s) *)
  resolveUrl : string -> ParsedUrl -> option string;     (* new URL(s, base).href *)
  lookup : string -> FetchError + option (list LookupAddress);
  request : ParsedUrl -> option (string * Z) -> FetchError + Response
}.

Section Body.
Context `{Buffers}.

(** The state the two stream handlers of [fetchRss] share, with the
    promise ([settled]) and the stream's own [destroyed] flag;
    [delivered] counts the [data] events handled. *)
Record BodyState : Type := mkBody {
  chunks : list Buffer;
  totalBytes : Z;
  destroyed : bool;
  settled : option (FetchError + string);
  delivered : nat
}.

Definition initial : BodyState := mkBody [] 0 false None 0.

(** A promise keeps its first settlement. *)
Definition settle (cur : option (FetchError + string)) (r : FetchError + string)
  : option (FetchError + string) :=
  match cur with
  | None => Some r
  | Some _ => cur
  end.

(** [response.on("data", ...)]. *)
Definition onData (st : BodyState) (chunk : Buffer) : BodyState :=
  let total := totalBytes st + byteLength chunk in
  if total >? MAX_RSS_BYTES
  then mkBody (chunks st) total true (settle (settled st) (inl TooLarge)) (S (delivered st))
  else mkBody (chunks st ++ [chunk])%list total (destroyed st) (settled st) (S (delivered st)).

(** [finish] and the choice of the decompressor. *)
Definition decode (encoding : option string) (buffer : Buffer) : FetchError + string :=
  let finish (r : option Buffer) : FetchError + string :=
    match r with
    | None => inl DecodeFailure
    | Some decoded => inr (toUtf8 decoded)
    end in
  match encoding with
  | Some e =>
      if String.eqb e "gzip" then finish (gunzip buffer)
      else if String.eqb e "deflate" then finish (inflate buffer)
      else if String.eqb e "br" then finish (brotliDecompress buffer)
      else inr (toUtf8 buffer)
  | None => inr (toUtf8 buffer)
  end.

(** [response.on("end", ...)]. *)
Definition onEnd (encoding : option string) (st : BodyState) : BodyState :=
  if totalBytes st >? MAX_RSS_BYTES then st
  else mkBody (chunks st) (totalBytes st) (destroyed st)
              (settle (settled st) (decode encoding (concat (chunks st))))
              (delivered st).

(** The stream: it emits its chunks in order, then [end]; once
    destroyed it emits nothing more. *)
Fixpoint stream (encoding : option string) (st : BodyState) (cs : list Buffer) : BodyState :=
  if destroyed st then st
  else match cs with
       | [] => onEnd encoding st
       | c :: rest => stream encoding (onData st c) rest
       end.

Definition receive (encoding : option string) (cs : list Buffer) : BodyState :=
  stream encoding initial cs.

(** The sum of the chunk lengths. *)
Definition total_length (cs : list Buffer) : Z :=
  fold_right (fun c n => byteLength c + n) 0 cs.

End Body.

Section Redirects.
Context `{Network}.

(** What one invocation of [fetchRss] comes to: it settles, or it has
    a redirect in hand. *)
Inductive Hop : Type :=
| Final (r : FetchError + string)
| Redirect (location : string) (base : ParsedUrl).

(** The first half of an invocation: the URL is parsed and checked,
    the host resolved and pinned, and the request sent. *)
Definition exchange (targetUrl : string) : FetchError + Response :=
  match parseUrl targetUrl with
  | None => inl InvalidUrl
  | Some parsedUrl =>
      match ensurePublicUrl parsedUrl with
      | Some e => inl e
      | None =>
          let hostname := toLowerCase (hostname parsedUrl) in
          let pinned : FetchError + option (string * Z) :=
            if isIP hostname =? 0 then
              match lookup hostname with
              | inl e => inl e
              | inr addresses =>
                  match resolvePublicAddress addresses with
                  | inl e => inl e
                  | inr resolved => inr (Some (address resolved, isIP (address resolved)))
                  end
              end
            else inr None in
          match pinned with
          | inl e => inl e
          | inr static => request parsedUrl static
          end
      end
  end.

(** The base of a relative [Location]: the URL that was requested. *)
Definition baseOf (targetUrl : string) : ParsedUrl :=
  match parseUrl targetUrl with
  | Some parsedUrl => parsedUrl
  | None => mkUrl "" "" ""
  end.

(** The second half: the callback on the response. *)
Definition attempt (targetUrl : string) : Hop :=
  match exchange targetUrl with
  | inl e => Final (inl e)
  | inr response =>
      let status := statusCode response in
      let loc := match location response with Some l => l | None => "" end in
      if (300 <=? status) && (status <? 400) && negb (String.eqb loc "")
      then Redirect loc (baseOf targetUrl)
      else if negb (status =? 200) then Final (inl (HttpStatus status))
      else
        match settled (receive (contentEncoding response) (body response)) with
        | Some r => Final r
        | None => Final (inl Uncaught)
        end
  end.

(** [headers.location.startsWith("http") ? headers.location
     : new URL(headers.location, parsedUrl).href]. *)
Definition nextUrl (loc : string) (base : ParsedUrl) : option string :=
  if startsWith "http" loc then Some loc else resolveUrl loc base.

(** [fetchRss(targetUrl, redirectCount)]; [None] when the fuel runs out. *)
Fixpoint fetchRss_fuel (fuel : nat) (targetUrl : string) (redirectCount : Z)
  : option (FetchError + string) :=
  match fuel with
  | O => None
  | S k =>
      match attempt targetUrl with
      | Final r => Some r
      | Redirect loc base =>
          if redirectCount >=? MAX_REDIRECTS then Some (inl TooManyRedirects)
          else match nextUrl loc base with
               | None => Some (inl Uncaught)
               | Some next => fetchRss_fuel k next (redirectCount + 1)
               end
      end
  end.

(** [fetchRss(targetUrl)], the redirect count at its default 0. *)
Definition fetchRss (targetUrl : string) : option (FetchError + string) :=
  fetchRss_fuel 4 targetUrl 0.


End Redirects.

End Fetch.

(** ** Regular expressions of the source, as matchers

    A matcher reads one match of its expression at the head of a string
    and yields the matched text and the rest. Every repetition in these
    expressions runs over a character class that is disjoint from what
    follows it, so the greedy match is the only one. *)
Module Re.
Import Js.

Definition Matcher : Type := string -> option (string * string).

(** [s.replace(/re/g, f)]: the matches are found from left to right, a
    character at which none starts is copied. The fuel is the length of
    the string; a match is never empty. *)
Fixpoint replaceAll_fuel (fuel : nat) (m : Matcher) (f : string -> string) (s : string) : string :=
  match fuel with
  | O => s
  | S k =>
      match m s with
      | Some (matched, rest) => f matched ++ replaceAll_fuel k m f rest
      | None =>
          match s with
          | EmptyString => EmptyString
          | String c r => String c (replaceAll_fuel k m f r)
          end
      end
  end.
Definition replaceAll (m : Matcher) (f : string -> string) (s : string) : string :=
  replaceAll_fuel (String.length s) m f s.

(** The longest prefix of characters in a class, and the rest. *)
Fixpoint span (p : ascii -> bool) (s : string) : string * string :=
  match s with
  | String c r => if p c then let '(a, b) := span p r in (String c a, b)
                  else (EmptyString, s)
  | EmptyString => (EmptyString, EmptyString)
  end.

(** A literal at the head of [s], compared case-insensitively when
    [ci] is set (the [i] flag; the literal is given in lower case). *)
Fixpoint lit (ci : bool) (p s : string) : option (string * string) :=
  match p with
  | EmptyString => Some (EmptyString, s)
  | String a p' =>
      match s with
      | String c r =>
          if Ascii.eqb (if ci then lower_char c else c) a then
            match lit ci p' r with
            | Some (x, rest) => Some (String c x, rest)
            | None => None
            end
          else None
      | EmptyString => None
      end
  end.

(** The first alternative that matches. *)
Fixpoint first_of (ms : list Matcher) (s : string) : option (string * string) :=
  match ms with
  | [] => None
  | m :: t => match m s with
              | Some r => Some r
              | None => first_of t s
              end
  end.

(** [m1] then [m2]. *)
Definition andThen (m1 m2 : Matcher) : Matcher := fun s =>
  match m1 s with
  | Some (a, r) => match m2 r with
                   | Some (b, r') => Some (a ++ b, r')
                   | None => None
                   end
  | None => None
  end.

(** [m?] before a continuation that cannot start like [m]. *)
Definition opt (m : Matcher) : Matcher := fun s =>
  match m s with
  | Some r => Some r
  | None => Some (EmptyString, s)
  end.

(** One character of a class. *)
Definition one (p : ascii -> bool) : Matcher := fun s =>
  match s with
  | String c r => if p c then Some (String c EmptyString, r) else None
  | EmptyString => None
  end.

(** [[class]*] and [[class]+]. *)
Definition many (p : ascii -> bool) : Matcher := fun s => Some (span p s).
Definition many1 (p : ascii -> bool) : Matcher := fun s =>
  match span p s with
  | (EmptyString, _) => None
  | r => Some r
  end.

(** [\s*]. *)
Definition ws : Matcher := fun s => Some (span_ws s).

Fixpoint seq (ms : list Matcher) : Matcher :=
  match ms with
  | [] => fun s => Some (EmptyString, s)
  | m :: t => andThen m (seq t)
  end.

Definition is_char (x : ascii) (c : ascii) : bool := Ascii.eqb c x.
Definition not_char (x : ascii) (c : ascii) : bool := negb (Ascii.eqb c x).

(** [/<[^>]+>/]. *)
Definition tag_at : Matcher :=
  seq [lit false "<"; many1 (not_char ">"); lit false ">"].

(** [/<(br|BR)\s*\/?>/]. *)
Definition br_at : Matcher :=
  seq [lit false "<"; first_of [lit false "br"; lit false "BR"]; ws;
       opt (lit false "/"); lit false ">"].

(** [/<\/(p|div|li|h[1-6])>/i]. *)
Definition block_close_at : Matcher :=
  seq [lit false "</";
       first_of [lit true "p"; lit true "div"; lit true "li";
                 andThen (lit true "h") (one (fun c => (49 <=? code c) && (code c <=? 54)))];
       lit false ">"].

(** [/<[^>]*>/]. *)
Definition any_tag_at : Matcher :=
  seq [lit false "<"; many (not_char ">"); lit false ">"].

(** [/\r\n?/]. *)
Definition crlf_at : Matcher :=
  seq [one (is_char CR); opt (one (is_char LF))].

(** [/[ \t]+\n/]. *)
Definition blanks_nl_at : Matcher :=
  seq [many1 (fun c => Ascii.eqb c " " || Ascii.eqb c TAB); one (is_char LF)].

(** [/\n{3,}/]. *)
Definition nl3_at : Matcher := fun s =>
  match span (is_char LF) s with
  | (String a (String b (String c t)), r) => Some (String a (String b (String c t)), r)
  | _ => None
  end.

(** [/\d{1,2}:\d{2}(?::\d{2})?/]: one or two digits (two when the
    second is a digit: a digit is no colon), a colon, two digits, and a
    second colon with two digits when they follow. *)
Definition time_at : Matcher :=
  seq [first_of [seq [one is_digit; one is_digit; lit false ":"];
                 seq [one is_digit; lit false ":"]];
       one is_digit; one is_digit;
       opt (seq [lit false ":"; one is_digit; one is_digit])].

(** [re.test(s)] for an expression without look-behind: some suffix of
    [s] matches at its head. [boundary] tells whether the position is
    preceded by no word character, as [\b] before a word needs. *)
Fixpoint search (m : bool -> Matcher) (boundary : bool) (s : string) : bool :=
  match m boundary s with
  | Some _ => true
  | None =>
      match s with
      | EmptyString => false
      | String c r => search m (negb (is_word c)) r
      end
  end.

(** The end of input [$]. *)
Definition eof : Matcher := fun s =>
  match s with
  | EmptyString => Some (EmptyString, EmptyString)
  | _ => None
  end.

(** [\b] after a word: the next character is no word character. *)
Definition word_end : Matcher := fun s =>
  match s with
  | String c _ => if is_word c then None else Some (EmptyString, s)
  | EmptyString => Some (EmptyString, s)
  end.

(** [\b] before a word, at a position known to be or not to be a boundary. *)
Definition word_start (boundary : bool) : Matcher := fun s =>
  if boundary then Some (EmptyString, s) else None.

(** *** The expressions of the description pipeline *)

(** [[\s\S]*?] before a literal: the text up to and with its first
    occurrence. *)
Fixpoint until_lit (ci : bool) (p : string) (s : string) : option (string * string) :=
  match lit ci p s with
  | Some r => Some r
  | None =>
      match s with
      | EmptyString => None
      | String c r =>
          match until_lit ci p r with
          | Some (x, rest) => Some (String c x, rest)
          | None => None
          end
      end
  end.

(** [m*] for a matcher whose matches cannot start like what follows;
    an iteration that consumes nothing ends the repetition. *)
Fixpoint star_fuel (fuel : nat) (m : Matcher) (s : string) : string * string :=
  match fuel with
  | O => (EmptyString, s)
  | S k =>
      match m s with
      | Some (x, rest) =>
          if Nat.ltb (String.length rest) (String.length s)
          then let '(a, b) := star_fuel k m rest in (x ++ a, b)
          else (EmptyString, s)
      | None => (EmptyString, s)
      end
  end.
Definition star (m : Matcher) : Matcher := fun s =>
  Some (star_fuel (String.length s) m s).

(** [/<name[^>]*>/i] and [/<\/name>/i]. *)
Definition open_tag (name : string) : Matcher :=
  seq [lit true ("<" ++ name); many (not_char ">"); lit false ">"].
Definition close_tag (name : string) : Matcher := lit true ("</" ++ name ++ ">").

(** [/<\s*br\s*\/?\s*>/i]. *)
Definition br_loose_at : Matcher :=
  seq [lit false "<"; ws; lit true "br"; ws; opt (lit false "/"); ws; lit false ">"].

(** [(h[1-6]|section|article)] under the [i] flag. *)
Definition block_name : Matcher :=
  first_of [andThen (lit true "h") (one (fun c => (49 <=? code c) && (code c <=? 54)));
            lit true "section"; lit true "article"].

(** [/<\s*(h[1-6]|section|article)[^>]*>/i] and
    [/<\/\s*(h[1-6]|section|article)>/i]. *)
Definition block_open_at : Matcher :=
  seq [lit false "<"; ws; block_name; many (not_char ">"); lit false ">"].
Definition block_end_at : Matcher :=
  seq [lit false "</"; ws; block_name; lit false ">"].

(** [/<name[\s\S]*?>[\s\S]*?<\/name>/i]. *)
Definition element_at (name : string) : Matcher :=
  seq [lit true ("<" ++ name); until_lit false ">"; until_lit true ("</" ++ name ++ ">")].

(** [/\n{2,}/]. *)
Definition nl2_at : Matcher := fun s =>
  match span (is_char LF) s with
  | (String a (String b t), r) => Some (String a (String b t), r)
  | _ => None
  end.

(** [/<br\s*\/?>/i]. *)
Definition br_tag_at : Matcher :=
  seq [lit true "<br"; ws; opt (lit false "/"); lit false ">"].

(** [(?:\s|&nbsp;|<br\s*\/?>)] under the [i] flag. *)
Definition filler_at : Matcher :=
  first_of [ws_head; lit true "&nbsp;"; br_tag_at].

(** The pattern of [cleanEmptyHtml]: an element of one of the listed
    names that holds fillers only. The name is followed by [\b], and
    the closing tag repeats it (the back-reference, under the [i] flag). *)
Definition empty_names : list string :=
  ["span"; "p"; "div"; "section"; "article"; "strong"; "b"; "em"; "i"; "u";
   "blockquote"; "code"; "pre"; "figure"; "figcaption"].

Definition empty_element_at : Matcher :=
  first_of
    (map (fun name =>
            seq [lit false "<"; lit true name; word_end; many (not_char ">"); lit false ">";
                 star filler_at; lit false "</"; lit true name; lit false ">"])
         empty_names).

(** Two or more of [<br\s*\/?>] with the white space after each, under
    the [i] flag. *)
Definition br_run_at : Matcher :=
  let unit := andThen br_tag_at ws in
  seq [unit; unit; star unit].

(** One character of [[\u4e00-\u9fa5]], in UTF-8. *)
Definition cjk_at : Matcher := fun s =>
  match s with
  | String a (String b (String c r)) =>
      let point := (code a - 224) * 4096 + (code b - 128) * 64 + (code c - 128) in
      if (224 <=? code a) && (code a <=? 239)
         && (128 <=? code b) && (code b <=? 191)
         && (128 <=? code c) && (code c <=? 191)
         && (0x4e00 <=? point) && (point <=? 0x9fa5)
      then Some (String a (String b (String c "")), r)
      else None
  | _ => None
  end.

Definition is_alnum (c : ascii) : bool := is_alpha c || is_digit c.

(** [/(\d{1,2}:\d{2}(?::\d{2})?)(?![0-9:])/]: the time of [time_at],
    not followed by a digit or a colon. When the seconds match and the
    look-ahead fails after them, it fails before them too, on their colon. *)
Definition time_ahead_at : Matcher := fun s =>
  match time_at s with
  | Some (t, rest) =>
      match rest with
      | String c _ => if is_digit c || Ascii.eqb c ":" then None else Some (t, rest)
      | EmptyString => Some (t, rest)
      end
  | None => None
  end.

(** [[^0-9]] and then such a time: the second alternative of
    [/(^|[^0-9])(...)/]. *)
Definition after_other_at : Matcher :=
  andThen (one (fun c => negb (is_digit c))) time_ahead_at.

(** *** Vocabulary for the properties of the matchers *)

Definition time_char (c : ascii) : bool := is_digit c || Ascii.eqb c ":".



(** A matcher that never matches the empty string. *)
Definition consuming (m : Matcher) : Prop :=
  forall s x rest, m s = Some (x, rest) -> (String.length rest < String.length s)%nat.

(** A tag as [/<[^>]+>/] matches it. *)
Definition is_tag (g : string) : Prop :=
  exists body, g = "<" ++ body ++ ">" /\ body <> ""
               /\ all_chars (not_char ">") body = true.

(** No time starts anywhere in [s]. *)
Fixpoint quiet (s : string) : bool :=
  match time_at s with
  | Some _ => false
  | None => match s with
            | EmptyString => true
            | String _ r => quiet r
            end
  end.


End Re.

(** ** The content normalizer: plain text and timestamp markup *)
Module Text.
Import Js Re.

(** The entity decoder of the [he] package, [decode(value, { strict:
    false })]. It is not code of this repository; what is used of it is
    that every character reference starts with an ampersand. *)
Class EntityDecoder : Type := {
  decode : string -> string;
  decode_plain : forall s, has_char "&" s = false -> decode s = s
}.

(** A decoder for the references the source itself writes in
    [escapeHtml]; other text is kept. *)
Definition entity_at (s : string) : option (ascii * string) :=
  match first_of [lit false "&amp;"; lit false "&lt;"; lit false "&gt;";
                  lit false "&quot;"; lit false "&#39;"] s with
  | Some (name, rest) =>
      Some (if String.eqb name "&amp;" then "&"%char
            else if String.eqb name "&lt;" then "<"%char
            else if String.eqb name "&gt;" then ">"%char
            else if String.eqb name "&quot;" then DQ
            else SQ, rest)
  | None => None
  end.

Fixpoint decode_basic_fuel (fuel : nat) (s : string) : string :=
  match fuel with
  | O => s
  | S k =>
      match entity_at s with
      | Some (ch, rest) => String ch (decode_basic_fuel k rest)
      | None =>
          match s with
          | EmptyString => EmptyString
          | String c r => String c (decode_basic_fuel k r)
          end
      end
  end.
Definition decode_basic (s : string) : string :=
  decode_basic_fuel (String.length s) s.

Section Decoded.
Context `{EntityDecoder}.

(** [decodeHtml] on a string ([""] is the only falsy string). *)
Definition decodeHtml (value : string) : string :=
  if String.eqb value "" then "" else decode value.

(** [toText]. *)
Definition toText (value : string) : string :=
  let decoded := decodeHtml value in
  if String.eqb decoded "" then ""
  else
    let nl (_ : string) := String LF "" in
    trim
      (replaceAll nl3_at (fun _ => String LF (String LF ""))
      (replaceAll blanks_nl_at nl
      (replaceAll crlf_at nl
      (replaceAll any_tag_at (fun _ => "")
      (replaceAll block_close_at nl
      (replaceAll br_at nl decoded)))))).

End Decoded.

(** *** [highlightTimestampsInHtml] *)

Definition quote : string := String DQ "".

(** The marker the highlighter writes around a time [t]. *)
Definition button (t : string) : string :=
  "<button class=" ++ quote ++ "timestamp" ++ quote
  ++ " type=" ++ quote ++ "button" ++ quote
  ++ " data-timestamp=" ++ quote ++ t ++ quote ++ ">" ++ t ++ "</button>".

(** The parts of [html.split(/(<[^>]+>)/g)]: text and tags in turn,
    starting and ending with a text (which may be empty). *)
Inductive Parts : Type :=
| Last (text : string)
| Part (text tag : string) (rest : Parts).

Fixpoint flatten (p : Parts) : list string :=
  match p with
  | Last t => [t]
  | Part t g rest => t :: g :: flatten rest
  end.

Definition push_text (c : ascii) (p : Parts) : Parts :=
  match p with
  | Last t => Last (String c t)
  | Part t g rest => Part (String c t) g rest
  end.

Fixpoint splitTags_fuel (fuel : nat) (s : string) : Parts :=
  match fuel with
  | O => Last s
  | S k =>
      match tag_at s with
      | Some (tag, rest) => Part "" tag (splitTags_fuel k rest)
      | None =>
          match s with
          | EmptyString => Last ""
          | String c r => push_text c (splitTags_fuel k r)
          end
      end
  end.
Definition splitTags (s : string) : Parts := splitTags_fuel (String.length s) s.

(** [isSelfClosing]: [/\/\s*>$/.test(tag) || /^<\s*(br|hr)\b/i.test(tag)]. *)
Definition isSelfClosing (tag : string) : bool :=
  search (fun _ => seq [lit false "/"; ws; lit false ">"; eof]) true tag
  || match seq [lit false "<"; ws; first_of [lit true "br"; lit true "hr"]; word_end] tag with
     | Some _ => true
     | None => false
     end.

Definition is_name_char (c : ascii) : bool :=
  is_alpha c || is_digit c || Ascii.eqb c ":" || Ascii.eqb c "-".

(** [segment.match(/^<\s*\/\s*([a-z0-9:-]+)/i)] is not null. *)
Definition closingMatch (segment : string) : bool :=
  match seq [lit false "<"; ws; lit false "/"; ws; many1 is_name_char] segment with
  | Some _ => true
  | None => false
  end.

Definition not_quote (c : ascii) : bool := negb (Ascii.eqb c DQ || Ascii.eqb c SQ).
Definition is_quote (c : ascii) : bool := Ascii.eqb c DQ || Ascii.eqb c SQ.

(** [/[^Q]*\btimestamp\b[^Q]*[Q]/] after the opening quote, where [Q]
    stands for the two quote characters: the run of characters up to
    the next quote holds the word [timestamp]. *)
Definition timestamp_word : bool -> Matcher := fun boundary =>
  seq [word_start boundary; lit true "timestamp"; word_end].

Definition class_value : Matcher := fun s =>
  match span not_quote s with
  | (run, String q rest) => if search timestamp_word true run
                            then Some (run ++ String q "", rest) else None
  | _ => None
  end.

(** [isTimestampTag]:
    [/\bclass\s*=\s*[Q][^Q]*\btimestamp\b[^Q]*[Q]/i.test(tag)
     || /\bdata-timestamp\s*=/i.test(tag)]. *)
Definition isTimestampTag (tag : string) : bool :=
  search (fun boundary =>
            seq [word_start boundary; lit true "class"; ws; lit false "="; ws;
                 one is_quote; class_value]) true tag
  || search (fun boundary =>
               seq [word_start boundary; lit true "data-timestamp"; ws; lit false "="]) true tag.

(** [stack] and [timestampDepth]; the top of the stack is the head. *)
Record Scan : Type := mkScan {
  stack : list bool;
  timestampDepth : Z
}.

(** The replacement of one time in a text segment. *)
Definition wrap (matched : string) : string :=
  let trimmed := trim matched in
  if String.eqb trimmed "" then matched else button trimmed.

(** The callback of [parts.map], with the state it updates. *)
Definition visit (st : Scan) (segment : string) : Scan * string :=
  if String.eqb segment "" then (st, "")
  else if startsWith "<" segment then
    if closingMatch segment then
      match stack st with
      | [] => (st, segment)
      | last :: below =>
          (mkScan below (if last then Z.max 0 (timestampDepth st - 1) else timestampDepth st),
           segment)
      end
    else if isSelfClosing segment then (st, segment)
    else
      let isTimestamp := isTimestampTag segment in
      (mkScan (isTimestamp :: stack st)
              (if isTimestamp then timestampDepth st + 1 else timestampDepth st),
       segment)
  else if timestampDepth st >? 0 then (st, segment)
  else (st, replaceAll time_at wrap segment).

(** [parts.map(...).join("")], and the state it ends in. *)
Fixpoint visitAll (st : Scan) (segments : list string) : Scan * string :=
  match segments with
  | [] => (st, "")
  | seg :: rest =>
      let '(st1, out) := visit st seg in
      let '(st2, outs) := visitAll st1 rest in
      (st2, out ++ outs)
  end.

Definition highlightTimestampsInHtml (html : string) : string :=
  if String.eqb html "" then ""
  else snd (visitAll (mkScan [] 0) (flatten (splitTags html))).

(** *** The HTML of a description *)

(** [sanitizeHtml(text, sanitizeOptions)] of the sanitize-html package,
    with the options of the source. It is not code of this repository. *)
Class Sanitizer : Type := {
  sanitizeHtml : string -> string
}.

Definition BLOCKQUOTE_OPEN_TOKEN : string := "__BLOCKQUOTE_OPEN__".
Definition BLOCKQUOTE_CLOSE_TOKEN : string := "__BLOCKQUOTE_CLOSE__".

Definition constant (text : string) : string -> string := fun _ => text.

(** [escapeHtml]. *)
Definition escapeHtml (text : string) : string :=
  let swap (c : ascii) (entity : string) := replaceAll (one (is_char c)) (constant entity) in
  swap SQ "&#39;"
    (swap DQ "&quot;"
       (swap ">"%char "&gt;" (swap "<"%char "&lt;" (swap "&"%char "&amp;" text)))).

(** [$1 $2] for a match whose first group is [n] bytes long. *)
Definition spaced (n : nat) (matched : string) : string :=
  substring 0 n matched ++ " "
  ++ substring n (String.length matched - n) matched.

(** [addReadableSpacing]. *)
Definition addReadableSpacing (text : string) : string :=
  replaceAll (andThen (one is_alnum) cjk_at) (spaced 1)
    (replaceAll (andThen cjk_at (one is_alnum)) (spaced 3) text).

Definition two_lines : string := String LF (String LF "").

(** The bullet U+2022 and a space. *)
Definition bullet : string :=
  String "226"%char (String "128"%char (String "162"%char " ")).

(** [convertHtmlToPlainText]. *)
Definition convertHtmlToPlainText (text : string) : string :=
  let steps : list (Matcher * string) :=
    [(open_tag "strong", "__STRONG_OPEN__");
     (close_tag "strong", "__STRONG_CLOSE__");
     (open_tag "b", "__STRONG_OPEN__");
     (close_tag "b", "__STRONG_CLOSE__");
     (open_tag "em", "__EM_OPEN__");
     (close_tag "em", "__EM_CLOSE__");
     (open_tag "i", "__EM_OPEN__");
     (close_tag "i", "__EM_CLOSE__");
     (open_tag "blockquote", two_lines ++ BLOCKQUOTE_OPEN_TOKEN ++ two_lines);
     (close_tag "blockquote", two_lines ++ BLOCKQUOTE_CLOSE_TOKEN ++ two_lines);
     (br_loose_at, String LF "");
     (close_tag "p", two_lines);
     (close_tag "div", two_lines);
     (block_open_at, two_lines);
     (block_end_at, two_lines);
     (open_tag "li", bullet);
     (close_tag "li", String LF "");
     (element_at "script", "");
     (element_at "style", "");
     (tag_at, "");
     (crlf_at, String LF "");
     (nl3_at, two_lines)] in
  trim (fold_left (fun acc step => replaceAll (fst step) (constant (snd step)) acc) steps text).

(** [s.indexOf(p)]: the text before and after the first occurrence. *)
Fixpoint find_sub (p s : string) : option (string * string) :=
  match lit false p s with
  | Some (_, rest) => Some (EmptyString, rest)
  | None =>
      match s with
      | EmptyString => None
      | String c r =>
          match find_sub p r with
          | Some (a, b) => Some (String c a, b)
          | None => None
          end
      end
  end.

Fixpoint closers (tag : string) (depth : nat) : string :=
  match depth with
  | O => ""
  | S d => "</" ++ tag ++ ">" ++ closers tag d
  end.

(** The two loops of [applyFormattingTokens] for one pair of tokens:
    what is appended to [result] from [remaining] on. *)
Fixpoint formatToken (fuel : nat) (open close tag : string) (remaining : string)
  (depth : nat) : string :=
  match fuel with
  | O => closers tag depth
  | S k =>
      if String.eqb remaining "" then closers tag depth
      else
        match find_sub open remaining, find_sub close remaining with
        | None, None => remaining ++ closers tag depth
        | Some (before, after), None =>
            before ++ "<" ++ tag ++ ">" ++ formatToken k open close tag after (S depth)
        | Some (before, after), Some (before', after') =>
            if Nat.ltb (String.length before) (String.length before')
            then before ++ "<" ++ tag ++ ">" ++ formatToken k open close tag after (S depth)
            else
              match depth with
              | S d => before' ++ "</" ++ tag ++ ">" ++ formatToken k open close tag after' d
              | O => before' ++ formatToken k open close tag after' O
              end
        | None, Some (before', after') =>
            match depth with
            | S d => before' ++ "</" ++ tag ++ ">" ++ formatToken k open close tag after' d
            | O => before' ++ formatToken k open close tag after' O
            end
        end
  end.

(** [applyFormattingTokens]. *)
Definition applyFormattingTokens (input : string) : string :=
  if String.eqb input "" then ""
  else
    let pass (open close tag : string) (output : string) :=
      formatToken (S (String.length output)) open close tag output 0 in
    pass "__EM_OPEN__" "__EM_CLOSE__" "em"
      (pass "__STRONG_OPEN__" "__STRONG_CLOSE__" "strong" input).

(** [highlightTimestampsInPlainText]: at the start of the text a time
    needs nothing before it, elsewhere a character that is no digit. *)
Definition highlightTimestampsInPlainText (html : string) : string :=
  let mark (matched : string) :=
    match matched with
    | String prefix time => String prefix (button time)
    | EmptyString => EmptyString
    end in
  match time_ahead_at html with
  | Some (time, rest) => button time ++ replaceAll after_other_at mark rest
  | None => replaceAll after_other_at mark html
  end.

(** [s.split(/re/)] for an expression without groups. *)
Fixpoint splitOn_fuel (fuel : nat) (m : Matcher) (s : string) : list string :=
  match fuel with
  | O => [s]
  | S k =>
      match m s with
      | Some (_, rest) => EmptyString :: splitOn_fuel k m rest
      | None =>
          match s with
          | EmptyString => [EmptyString]
          | String c r =>
              match splitOn_fuel k m r with
              | h :: t => String c h :: t
              | [] => [String c EmptyString]
              end
          end
      end
  end.
Definition splitOn (m : Matcher) (s : string) : list string :=
  splitOn_fuel (String.length s) m s.

Fixpoint concat_all (l : list string) : string :=
  match l with
  | [] => ""
  | x :: t => x ++ concat_all t
  end.

(** The variables of the loop of [buildHtmlFromPlainText]. *)
Record Quoting : Type := mkQuoting {
  htmlParagraphs : list string;
  blockquoteBuffer : list string;
  insideBlockquote : bool
}.

Definition flushBlockquote (q : Quoting) : Quoting :=
  match blockquoteBuffer q with
  | [] => mkQuoting (htmlParagraphs q) [] false
  | buffer =>
      let block := "<blockquote>" ++ concat_all buffer ++ "</blockquote>" in
      mkQuoting (htmlParagraphs q ++ [block])%list [] false
  end.

Definition is_empty {A : Type} (l : list A) : bool :=
  match l with [] => true | _ => false end.

(** [buildHtmlFromPlainText]. *)
Definition buildHtmlFromPlainText (text : string) (escapeHtmlFn : string -> string) : string :=
  if String.eqb text "" then ""
  else
    let paragraphs :=
      filter (fun segment => negb (String.eqb segment ""))
             (map trim (splitOn nl2_at text)) in
    if is_empty paragraphs then ""
    else
      let wrapParagraph (paragraph : string) :=
        let safe := replaceAll (one (is_char LF)) (constant "<br />") (escapeHtmlFn paragraph) in
        "<p>" ++ highlightTimestampsInPlainText (applyFormattingTokens safe) ++ "</p>" in
      let step (q : Quoting) (paragraph : string) : Quoting :=
        if String.eqb paragraph BLOCKQUOTE_OPEN_TOKEN then
          let q' := if insideBlockquote q && negb (is_empty (blockquoteBuffer q))
                    then flushBlockquote q else q in
          mkQuoting (htmlParagraphs q') (blockquoteBuffer q') true
        else if String.eqb paragraph BLOCKQUOTE_CLOSE_TOKEN then
          if insideBlockquote q then flushBlockquote q else q
        else
          let wrapped := wrapParagraph paragraph in
          if insideBlockquote q
          then mkQuoting (htmlParagraphs q) (blockquoteBuffer q ++ [wrapped])%list true
          else mkQuoting (htmlParagraphs q ++ [wrapped])%list (blockquoteBuffer q) false in
      let q := fold_left step paragraphs (mkQuoting [] [] false) in
      let q := if insideBlockquote q && negb (is_empty (blockquoteBuffer q))
               then flushBlockquote q else q in
      if is_empty (htmlParagraphs q) then ""
      else "<div class=" ++ quote ++ "episode-detail-description" ++ quote ++ ">"
           ++ concat_all (htmlParagraphs q) ++ "</div>".

(** [buildEpisodeDescriptionHtml], given [escapeHtml] as the source does. *)
Definition buildEpisodeDescriptionHtml (html fallbackText : string) : string :=
  let sanitizedHtml := trim html in
  if negb (String.eqb sanitizedHtml "")
  then "<div class=" ++ quote ++ "episode-detail-description" ++ quote ++ ">"
       ++ highlightTimestampsInHtml sanitizedHtml ++ "</div>"
  else
    let safeFallback := trim fallbackText in
    if String.eqb safeFallback "" then ""
    else buildHtmlFromPlainText safeFallback escapeHtml.

(** The loop of [cleanEmptyHtml]: empty elements are removed until
    nothing changes. Every round that changes the text shortens it. *)
Fixpoint stripEmpty (fuel : nat) (output : string) : string :=
  match fuel with
  | O => output
  | S k =>
      let next := replaceAll empty_element_at (constant "") output in
      if String.eqb next output then output else stripEmpty k next
  end.

(** [cleanEmptyHtml]. *)
Definition cleanEmptyHtml (html : string) : string :=
  if String.eqb html "" then ""
  else trim (replaceAll br_run_at (constant "<br />")
               (stripEmpty (S (String.length html)) html)).

Section Rich.
Context `{EntityDecoder} `{Sanitizer}.

(** [toRichHtml] on a string. *)
Definition toRichHtml (value : string) : string :=
  let decoded := decodeHtml value in
  if String.eqb decoded "" then ""
  else trim (cleanEmptyHtml (sanitizeHtml decoded)).

End Rich.


(** *** Vocabulary for the properties of the highlighter *)









End Text.

(** ** JavaScript values, as the feed parser and the query parser yield them *)
Module JsVal.
Import Js.

#[local] Set Warnings "-register-all".

Inductive JsValue : Type :=
| JUndefined
| JNull
| JBool (b : bool)
| JNum (n : Z)
| JStr (s : string)
| JArr (items : list JsValue)
| JObj (fields : list (string * JsValue)).

(** [Boolean(v)]. *)
Definition truthy (v : JsValue) : bool :=
  match v with
  | JUndefined | JNull => false
  | JBool b => b
  | JNum n => negb (n =? 0)
  | JStr s => negb (String.eqb s "")
  | JArr _ | JObj _ => true
  end.

(** [a || b] and [a ?? b]. *)
Definition or_else (a b : JsValue) : JsValue := if truthy a then a else b.
Definition nullish_else (a b : JsValue) : JsValue :=
  match a with
  | JUndefined | JNull => b
  | _ => a
  end.

Fixpoint join_with (sep : string) (l : list string) : string :=
  match l with
  | [] => ""
  | [x] => x
  | x :: t => x ++ sep ++ join_with sep t
  end.

(** [String(v)]. *)
Fixpoint toString (v : JsValue) : string :=
  match v with
  | JUndefined => "undefined"
  | JNull => "null"
  | JBool true => "true"
  | JBool false => "false"
  | JNum n => string_of_Z n
  | JStr s => s
  | JArr items =>
      join_with ","
        (map (fun x => match x with
                       | JUndefined | JNull => ""
                       | _ => toString x
                       end) items)
  | JObj _ => "[object Object]"
  end.

Fixpoint assoc (key : string) (fields : list (string * JsValue)) : JsValue :=
  match fields with
  | [] => JUndefined
  | (k, v) :: t => if String.eqb k key then v else assoc key t
  end.

(** [v?.[key]] for the keys the source reads off parsed feed nodes. *)
Definition get (v : JsValue) (key : string) : JsValue :=
  match v with
  | JObj fields => assoc key fields
  | _ => JUndefined
  end.

(** [ensureArray]. *)
Definition ensureArray (value : JsValue) : list JsValue :=
  if negb (truthy value) then []
  else match value with
       | JArr items => items
       | _ => [value]
       end.

(** [getQueryParam]. *)
Definition getQueryParam (value : JsValue) : JsValue :=
  match value with
  | JArr items => nth 0 items JUndefined
  | _ => value
  end.

End JsVal.

(** ** SHA-256 (FIPS 180-4), the digest behind [createHash("sha256")] *)
Module Sha256.
Import Js.

Definition mask32 : Z := 0xffffffff.
Definition add32 (a b : Z) : Z := Z.land (a + b) mask32.
Definition rotr (n x : Z) : Z :=
  Z.land (Z.lor (Z.shiftr x n) (Z.shiftl x (32 - n))) mask32.
Definition not32 (x : Z) : Z := Z.lxor x mask32.

Definition Ch (x y z : Z) : Z := Z.lxor (Z.land x y) (Z.land (not32 x) z).
Definition Maj (x y z : Z) : Z :=
  Z.lxor (Z.lxor (Z.land x y) (Z.land x z)) (Z.land y z).
Definition Sigma0 (x : Z) : Z := Z.lxor (Z.lxor (rotr 2 x) (rotr 13 x)) (rotr 22 x).
Definition Sigma1 (x : Z) : Z := Z.lxor (Z.lxor (rotr 6 x) (rotr 11 x)) (rotr 25 x).
Definition sigma0 (x : Z) : Z := Z.lxor (Z.lxor (rotr 7 x) (rotr 18 x)) (Z.shiftr x 3).
Definition sigma1 (x : Z) : Z := Z.lxor (Z.lxor (rotr 17 x) (rotr 19 x)) (Z.shiftr x 10).

(** The constants are read off the first primes, as the standard
    defines them: the first 32 bits of the fractional part of the cube
    root (for [K]) and of the square root (for [H0]). *)
Definition is_prime (n : Z) : bool :=
  forallb (fun d => negb (n mod Z.of_nat d =? 0)) (seq 2 (Z.to_nat n - 2)).

Definition primes (count : nat) : list Z :=
  firstn count (filter is_prime (map Z.of_nat (seq 2 400))).

(** The largest [r] below [2 ^ bits] with [r ^ 3 <= n]. *)
Fixpoint cube_root (bits : nat) (n r : Z) : Z :=
  match bits with
  | O => r
  | S b =>
      let r' := r + 2 ^ Z.of_nat b in
      cube_root b n (if r' * r' * r' <=? n then r' else r)
  end.

Definition cube_fraction (p : Z) : Z := Z.land (cube_root 40 (p * 2 ^ 96) 0) mask32.
Definition square_fraction (p : Z) : Z := Z.land (Z.sqrt (p * 2 ^ 64)) mask32.

Definition K : list Z := Eval vm_compute in map cube_fraction (primes 64).

(** The eight working words. *)
Record Words : Type := mkWords {
  wa : Z; wb : Z; wc : Z; wd : Z; we : Z; wf : Z; wg : Z; wh : Z
}.

Definition H0 : Words :=
  Eval vm_compute in
    match map square_fraction (primes 8) with
    | [a; b; c; d; e; f; g; h] => mkWords a b c d e f g h
    | _ => mkWords 0 0 0 0 0 0 0 0
    end.

(** The padded message: the bytes, [0x80], zeros up to 56 modulo 64,
    and the bit length on eight bytes. *)
Definition pad (bytes : list Z) : list Z :=
  let len := Z.of_nat (List.length bytes) in
  let zeros := Z.to_nat ((55 - len) mod 64) in
  let bits := 8 * len in
  (bytes ++ [0x80] ++ repeat 0 zeros
   ++ map (fun i => Z.land (Z.shiftr bits (8 * (7 - Z.of_nat i))) 255) (seq 0 8))%list.

Fixpoint words_of (fuel : nat) (bytes : list Z) : list Z :=
  match fuel, bytes with
  | S k, b0 :: b1 :: b2 :: b3 :: rest =>
      (((b0 * 256 + b1) * 256 + b2) * 256 + b3) :: words_of k rest
  | _, _ => []
  end.

(** The message schedule, latest word first: [prev] holds [W(t-1)],
    [W(t-2)], ... *)
Fixpoint extend (n : nat) (prev : list Z) : list Z :=
  match n with
  | O => prev
  | S k =>
      let w := add32 (add32 (sigma1 (nth 1 prev 0)) (nth 6 prev 0))
                     (add32 (sigma0 (nth 14 prev 0)) (nth 15 prev 0)) in
      extend k (w :: prev)
  end.

Definition schedule (block : list Z) : list Z :=
  List.rev (extend 48 (List.rev block)).

Definition round (s : Words) (kw : Z * Z) : Words :=
  let '(k, w) := kw in
  let t1 := add32 (add32 (add32 (wh s) (Sigma1 (we s))) (add32 (Ch (we s) (wf s) (wg s)) k)) w in
  let t2 := add32 (Sigma0 (wa s)) (Maj (wa s) (wb s) (wc s)) in
  mkWords (add32 t1 t2) (wa s) (wb s) (wc s) (add32 (wd s) t1) (we s) (wf s) (wg s).

Definition compress (h : Words) (block : list Z) : Words :=
  let s := fold_left round (combine K (schedule block)) h in
  mkWords (add32 (wa h) (wa s)) (add32 (wb h) (wb s)) (add32 (wc h) (wc s))
          (add32 (wd h) (wd s)) (add32 (we h) (we s)) (add32 (wf h) (wf s))
          (add32 (wg h) (wg s)) (add32 (wh h) (wh s)).

Fixpoint blocks (fuel : nat) (h : Words) (ws : list Z) : Words :=
  match fuel with
  | O => h
  | S k =>
      match ws with
      | [] => h
      | _ => blocks k (compress h (firstn 16 ws)) (skipn 16 ws)
      end
  end.

Fixpoint bytes_of (s : string) : list Z :=
  match s with
  | EmptyString => []
  | String c r => code c :: bytes_of r
  end.

Definition digest (s : string) : Words :=
  let padded := pad (bytes_of s) in
  let ws := words_of (List.length padded) padded in
  blocks (List.length ws) H0 ws.

Definition hex_digit (n : Z) : ascii :=
  ascii_of_N (Z.to_N (if n <? 10 then 48 + n else 87 + n)).

(** The eight lower-case hexadecimal digits of a 32-bit word. *)
Definition hex_word (x : Z) (tail : string) : string :=
  let d (i : Z) := hex_digit (Z.land (Z.shiftr x (4 * i)) 15) in
  String (d 7) (String (d 6) (String (d 5) (String (d 4)
    (String (d 3) (String (d 2) (String (d 1) (String (d 0) tail))))))).

(** [createHash("sha256").update(s).digest("hex")]. *)
Definition sha256hex (s : string) : string :=
  let h := digest s in
  hex_word (wa h) (hex_word (wb h) (hex_word (wc h) (hex_word (wd h)
    (hex_word (we h) (hex_word (wf h) (hex_word (wg h) (hex_word (wh h) ""))))))).


End Sha256.

(** ** The entity extractor and the identity hasher *)
Module Extract.
Import Js JsVal Text Sha256.

Definition PER_PAGE : Z := 10.

(** The object [buildEpisodeId] is given ([idSource]). *)
Record IdSource : Type := mkIdSource {
  src_guid : JsValue;
  src_id : JsValue;
  src_uid : JsValue;
  src_audio : JsValue;
  src_url : JsValue;
  src_link : JsValue;
  src_title : JsValue;
  src_publishedAt : JsValue
}.

(** The template [`${title || ""}-${publishedAt || ""}-${audio || ""}`]. *)
Definition fallbackSource (episode : IdSource) : string :=
  toString (or_else (src_title episode) (JStr "")) ++ "-"
  ++ toString (or_else (src_publishedAt episode) (JStr "")) ++ "-"
  ++ toString (or_else (src_audio episode) (JStr "")).

(** The value that is hashed. *)
Definition idSourceValue (episode : IdSource) : JsValue :=
  or_else (or_else (or_else (or_else (or_else (or_else
    (src_guid episode) (src_id episode)) (src_uid episode)) (src_audio episode))
    (src_url episode)) (src_link episode)) (JStr (fallbackSource episode)).

(** [buildEpisodeId]. *)
Definition buildEpisodeId (episode : IdSource) : string :=
  sha256hex (toString (idSourceValue episode)).



(** One episode of the response. *)
Record Episode : Type := mkEpisode {
  id : string;
  title : JsValue;
  author : JsValue;
  publishedAt : option Z;
  duration : JsValue;
  audio : JsValue;
  image : JsValue;
  description_html : string;
  description_text : string;
  url : string;
  link : string;
  guid : string
}.

(** The date parser of the runtime: [new Date(value).getTime()], where
    [None] is [NaN]. *)
Class Dates : Type := {
  dateTime : JsValue -> option Z
}.

Section Extractor.
Context `{EntityDecoder} `{Sanitizer} `{Dates}.

(** [decodeHtml] and [toText] on any value: a value that is no string
    gives the empty string. *)
Definition decodeHtmlOf (value : JsValue) : string :=
  match value with
  | JStr s => decodeHtml s
  | _ => ""
  end.

Definition toTextOf (value : JsValue) : string :=
  match value with
  | JStr s => toText s
  | _ => ""
  end.

(** [toLink]. *)
Fixpoint toLink (value : JsValue) : string :=
  match value with
  | JStr s => if String.eqb s "" then "" else trim (decodeHtml s)
  | JArr items =>
      match items with
      | [] => ""
      | first :: _ => toLink first
      end
  | JObj fields =>
      match assoc "@_href" fields, assoc "url" fields, assoc "#text" fields with
      | JStr s, _, _ => trim (decodeHtml s)
      | _, JStr s, _ => trim (decodeHtml s)
      | _, _, JStr s => trim (decodeHtml s)
      | _, _, _ => ""
      end
  | _ => ""
  end.

(** [parseTimestamp]. *)
Definition parseTimestamp (value : JsValue) : option Z :=
  if negb (truthy value) then None else dateTime value.

(** [getChannelInfo]. *)
Definition getChannelInfo (rssData : JsValue) : JsValue :=
  or_else (get (get rssData "rss") "channel") (JObj []).

Definition toEnclosure (enclosure : JsValue) : JsValue :=
  if negb (truthy enclosure) then JObj []
  else match enclosure with
       | JArr items => or_else (nth 0 items JUndefined) (JObj [])
       | _ => enclosure
       end.

(** [toRichHtml] on any value. *)
Definition toRichHtmlOf (value : JsValue) : string :=
  match value with
  | JStr s => toRichHtml s
  | _ => ""
  end.

(** [addReadableSpacing(convertHtmlToPlainText(rawDescription)).trim()];
    [rawDescription] is never null. *)
Definition fallbackDescriptionText (rawDescription : JsValue) : string :=
  trim (addReadableSpacing (convertHtmlToPlainText (toString rawDescription))).

(** A raw identifier: [toLink(raw) || (typeof raw === "string" ? raw.trim() : "")]. *)
Definition identifier (raw : JsValue) : string :=
  let l := toLink raw in
  if negb (String.eqb l "") then l
  else match raw with
       | JStr s => trim s
       | _ => ""
       end.

Definition str_or (a b : string) : string := if String.eqb a "" then b else a.

(** The callback of [pageItems.map]. *)
Definition toEpisode (channel : JsValue) (start : Z) (index : Z) (item : JsValue) : Episode :=
  let fallbackAuthor :=
    or_else (or_else (or_else (get channel "itunes:author") (get channel "author"))
                     (get channel "managingEditor")) (JStr "") in
  let fallbackImage :=
    or_else (or_else (or_else (get (get channel "itunes:image") "@_href")
                              (get (get channel "image") "url"))
                     (get channel "itunes:image")) (JStr "") in
  let enclosure := toEnclosure (get item "enclosure") in
  let rawDescription :=
    or_else (or_else (get item "content:encoded") (get item "description")) (JStr "") in
  let image :=
    or_else (or_else (or_else (get (get item "itunes:image") "@_href")
                              (get (get item "image") "url"))
                     (get item "itunes:image")) fallbackImage in
  let author :=
    or_else (or_else (or_else (get item "itunes:author") (get item "author"))
                     (get item "creator")) fallbackAuthor in
  let episodeLink :=
    str_or (toLink (get item "link"))
      (str_or (toLink (get item "guid"))
         (str_or (toLink (get item "feedburner:origLink"))
            (str_or (toLink (get enclosure "url")) ""))) in
  let publishedAt :=
    parseTimestamp (or_else (or_else (get item "pubDate") (get item "dc:date")) (JStr "")) in
  let title :=
    or_else (get item "title") (JStr ("Episode " ++ string_of_Z (start + index + 1))) in
  let guidValue := identifier (get item "guid") in
  let idValue := identifier (get item "id") in
  let uidValue := identifier (get item "uid") in
  let audioUrl := or_else (or_else (get enclosure "@_url") (get enclosure "url")) (JStr "") in
  let idSource :=
    mkIdSource (JStr guidValue) (JStr idValue) (JStr uidValue) audioUrl
               (JStr episodeLink) (JStr episodeLink) title
               (match publishedAt with Some t => JNum t | None => JNull end) in
  mkEpisode (buildEpisodeId idSource) title author publishedAt
            (or_else (or_else (get item "itunes:duration") (get item "duration")) (JStr ""))
            audioUrl image
            (buildEpisodeDescriptionHtml (toRichHtmlOf rawDescription)
                                         (fallbackDescriptionText rawDescription))
            (toTextOf rawDescription)
            episodeLink episodeLink
            (str_or guidValue (str_or idValue (str_or uidValue ""))).

(** [arr.map((item, index) => f(index, item))]. *)
Fixpoint mapi {A B : Type} (f : Z -> A -> B) (index : Z) (l : list A) : list B :=
  match l with
  | [] => []
  | x :: t => f index x :: mapi f (index + 1) t
  end.

Record Page : Type := mkPage {
  total : Z;
  episodes : list Episode
}.

(** The items the page is cut from: [ensureArray(channel?.item)]. *)
Definition feedItems (rssData : JsValue) : list JsValue :=
  ensureArray (get (getChannelInfo rssData) "item").

(** [extractEpisodesPage]. *)
Definition extractEpisodesPage (rssData : JsValue) (start limit : Z) : Page :=
  let channel := getChannelInfo rssData in
  let items := ensureArray (get channel "item") in
  let pageItems := slice items start (start + limit) in
  let episodes := mapi (toEpisode channel start) 0 pageItems in
  mkPage (Z.of_nat (List.length items)) episodes.

End Extractor.

End Extract.

(** ** The two routes *)
Module Routes.
Import Js JsVal Ssrf Fetch Text Extract.

Definition MAX_LIMIT : Z := 50.
Definition PODCAST_CACHE_SECONDS : Z := 60 * 60 * 48.
Definition EPISODES_CACHE_SECONDS : Z := 60 * 60 * 36.

(** [isRefreshRequested]. *)
Fixpoint isRefreshRequested (value : JsValue) : bool :=
  match value with
  | JUndefined | JNull => false
  | JArr items =>
      match items with
      | [] => false                     (* value[0] is undefined *)
      | first :: _ => isRefreshRequested first
      end
  | _ =>
      let normalized := toLowerCase (trim (toString value)) in
      if String.eqb normalized "" then false
      else negb (existsb (String.eqb normalized) ["0"; "false"; "no"])
  end.

(** The value of the [Cache-Control] header. *)
Inductive CacheControl : Type :=
| NoStore                         (* disableCache *)
| SharedMaxAge (seconds : Z).     (* setCacheHeader *)

Record Pagination : Type := mkPagination {
  cursor : Z;
  limit : Z;
  nextCursor : option Z;
  hasMore : bool
}.

(** The channel entity. *)
Record Podcast : Type := mkPodcast {
  name : JsValue;
  podcast_author : JsValue;
  rss : JsValue;
  podcast_image : JsValue;
  website : JsValue;
  podcast_description_html : string;
  podcast_description_text : string
}.

(** Why a request failed upstream: the fetch, or the XML parser. *)
Inductive Failure : Type :=
| FetchFailed (e : FetchError)
| ParseFailed.

Inductive Reply (Body : Type) : Type :=
| BadRequest                                        (* 400 *)
| Success (cache : CacheControl) (body : Body)      (* 200 *)
| BadGateway (cache : CacheControl) (why : Failure). (* 502 *)
Arguments BadRequest {Body}.
Arguments Success {Body}.
Arguments BadGateway {Body}.

(** [parser.parse] of fast-xml-parser: [None] when it throws. *)
Class XmlParser : Type := {
  parseXml : string -> option JsValue
}.

Section Handlers.
Context `{Network} `{EntityDecoder} `{Sanitizer} `{Dates} `{XmlParser}.

(** [parseRssFeed]. *)
Definition parseRssFeed (url : string) : Failure + JsValue :=
  match fetchRss url with
  | Some (inr xmlContent) =>
      match parseXml xmlContent with
      | Some parsed => inr parsed
      | None => inl ParseFailed
      end
  | Some (inl e) => inl (FetchFailed e)
  | None => inl (FetchFailed Uncaught)
  end.

(** [extractPodcastInfo]. *)
Definition extractPodcastInfo (rssData : JsValue) (rssUrl : JsValue) : Podcast :=
  let channel := getChannelInfo rssData in
  let author :=
    or_else (or_else (or_else (get channel "itunes:author") (get channel "author"))
                     (get channel "managingEditor")) (JStr "") in
  let image :=
    or_else (or_else (or_else (get (get channel "itunes:image") "@_href")
                              (get (get channel "image") "url"))
                     (get channel "itunes:image")) (JStr "") in
  let website :=
    or_else (or_else (get channel "link") (get channel "itunes:link"))
            (match get channel "link" with
             | JArr items => nth 0 items JUndefined
             | _ => JStr ""
             end) in
  let rawDescription :=
    or_else (or_else (or_else (get channel "itunes:summary") (get channel "description"))
                     (get channel "itunes:subtitle")) (JStr "") in
  mkPodcast (or_else (get channel "title") (JStr "")) author rssUrl image website
            (toRichHtmlOf rawDescription) (toTextOf rawDescription).

(** [hasPodcastInfo]. *)
Definition hasPodcastInfo (podcast : Podcast) : bool :=
  truthy (name podcast) || truthy (podcast_author podcast)
  || truthy (podcast_image podcast) || truthy (website podcast)
  || negb (String.eqb (podcast_description_html podcast) "")
  || negb (String.eqb (podcast_description_text podcast) "").

(** [Number.parseInt(value ?? fallback, 10)]. *)
Definition parseIntParam (value : JsValue) (fallback : string) : option Z :=
  parseInt10 (toString (nullish_else value (JStr fallback))).

Definition safeCursorOf (cursor : JsValue) : Z :=
  match parseIntParam cursor "0" with
  | None => 0
  | Some parsedCursor => if parsedCursor <? 0 then 0 else parsedCursor
  end.

Definition safeLimitOf (limit : JsValue) : Z :=
  match parseIntParam limit (string_of_Z PER_PAGE) with
  | None => PER_PAGE
  | Some parsedLimit => if parsedLimit <? 1 then PER_PAGE else Z.min parsedLimit MAX_LIMIT
  end.

(** [router.get("/")] on the query object. *)
Definition podcastRoute (query : JsValue) : Reply Podcast :=
  let url := getQueryParam (get query "url") in
  let refresh := getQueryParam (get query "refresh") in
  if negb (truthy url) then BadRequest
  else
    let bypassCache := isRefreshRequested refresh in
    match parseRssFeed (toString url) with
    | inr parsed =>
        let podcast := extractPodcastInfo parsed url in
        Success (if bypassCache || negb (hasPodcastInfo podcast)
                 then NoStore else SharedMaxAge PODCAST_CACHE_SECONDS)
                podcast
    | inl why => BadGateway NoStore why
    end.

Record EpisodesBody : Type := mkEpisodesBody {
  body_podcast : Podcast;
  pagination : Pagination;
  body_episodes : list Episode
}.

(** [router.get("/episodes")] on the query object. *)
Definition episodesRoute (query : JsValue) : Reply EpisodesBody :=
  let url := getQueryParam (get query "url") in
  let cursor := getQueryParam (get query "cursor") in
  let limit := getQueryParam (get query "limit") in
  let refresh := getQueryParam (get query "refresh") in
  if negb (truthy url) then BadRequest
  else
    let safeCursor := safeCursorOf cursor in
    let safeLimit := safeLimitOf limit in
    let bypassCache := isRefreshRequested refresh in
    let start := safeCursor in
    match parseRssFeed (toString url) with
    | inr parsed =>
        let podcast := extractPodcastInfo parsed url in
        let page := extractEpisodesPage parsed start safeLimit in
        let count := Z.of_nat (List.length (episodes page)) in
        let hasMore := start + count <? total page in
        let nextCursor := if hasMore then Some (start + count) else None in
        Success (if bypassCache || (count =? 0)
                 then NoStore else SharedMaxAge EPISODES_CACHE_SECONDS)
                (mkEpisodesBody podcast
                   (mkPagination start safeLimit nextCursor hasMore)
                   (episodes page))
    | inl why => BadGateway NoStore why
    end.

End Handlers.

(** The offset and the limit a query comes to, and the header a reply
    carries (none on a 400). *)
Definition offsetOf (query : JsValue) : Z :=
  safeCursorOf (getQueryParam (get query "cursor")).

Definition limitOf (query : JsValue) : Z :=
  safeLimitOf (getQueryParam (get query "limit")).

Definition refreshOf (query : JsValue) : JsValue :=
  getQueryParam (get query "refresh").

Definition urlOf (query : JsValue) : JsValue :=
  getQueryParam (get query "url").

Definition cacheOf {Body : Type} (r : Reply Body) : option CacheControl :=
  match r with
  | BadRequest => None
  | Success cache _ => Some cache
  | BadGateway cache _ => Some cache
  end.

(** The page a query asks for, of a parsed feed. *)
Definition pageOf `{EntityDecoder} `{Sanitizer} `{Dates} (query parsed : JsValue) : Page :=
  extractEpisodesPage parsed (offsetOf query) (limitOf query).

(** The pagination block of the response for a page of [count]
    episodes out of [total], from [offset]. *)
Definition paginationOf (offset lim count total : Z) : Pagination :=
  mkPagination offset lim
    (if offset + count <? total then Some (offset + count) else None)
    (offset + count <? total).



(** How many arrays the first element is wrapped in. *)
Fixpoint head_depth (value : JsValue) : nat :=
  match value with
  | JArr (first :: _) => S (head_depth first)
  | _ => O
  end.

End Routes.

(** ** A small world to run the fetcher in

    Buffers that are a text followed by filler bytes, and a network of
    one host whose pages redirect along a line. *)
Module World.
Import Js Net Ssrf Fetch.

Record Blob : Type := mkBlob {
  text : string;
  filler : N
}.

Definition blob_length (b : Blob) : Z :=
  Z.of_nat (String.length (text b)) + Z.of_N (filler b).

Definition blob_concat (l : list Blob) : Blob :=
  fold_right (fun b acc => mkBlob (text b ++ text acc) (filler b + filler acc)) (mkBlob "" 0) l.

Lemma blob_length_nonneg (b : Blob) : 0 <= blob_length b.
Proof. unfold blob_length. lia. Qed.

#[export] Instance blobs : Buffers := {|
  Buffer := Blob;
  byteLength := blob_length;
  byteLength_nonneg := blob_length_nonneg;
  concat := blob_concat;
  toUtf8 := text;
  gunzip := fun b => Some b;
  inflate := fun _ => None;
  brotliDecompress := fun b => Some b
|}.

Fixpoint until_slash (s : string) : string :=
  match s with
  | EmptyString => EmptyString
  | String c r => if Ascii.eqb c "/" then EmptyString else String c (until_slash r)
  end.

Definition world_parseUrl (s : string) : option ParsedUrl :=
  if startsWith "http://" s
  then Some (mkUrl "http:" (until_slash (drop_prefix "http://" s)) s)
  else None.

Definition page (status : Z) (loc : option string) (chunks : list Blob) : FetchError + Response :=
  inr (@mkResponse blobs status loc None chunks).

Definition world_request (u : ParsedUrl) (static : option (string * Z))
  : FetchError + Response :=
  let at_ (path : string) := String.eqb (href u) ("http://feeds.example" ++ path) in
  match static with
  | Some ("93.184.216.34", 4) =>
      if at_ "/a" then page 301 (Some "/b") []
      else if at_ "/b" then page 302 (Some "http://feeds.example/c") []
      else if at_ "/c" then page 307 (Some "/feed.xml") []
      else if at_ "/feed.xml" then page 200 None [mkBlob "<rss>" 0; mkBlob "</rss>" 0]
      else if at_ "/one-more" then page 301 (Some "/a") []
      else if at_ "/inward" then page 302 (Some "http://127.0.0.1/feed") []
      else if at_ "/huge" then
        page 200 None [mkBlob "<rss>" 3000000; mkBlob "" 3000000; mkBlob "</rss>" 3000000]
      else page 404 None []
  | _ => inl (NetworkError "ECONNREFUSED")
  end.

#[export] Instance network : Network := {|
  parseUrl := world_parseUrl;
  resolveUrl := fun loc base => Some ("http://" ++ hostname base ++ loc);
  lookup := fun host =>
    if String.eqb host "feeds.example"
    then inr (Some [mkAddr "10.0.0.7" 4; mkAddr "93.184.216.34" 4])
    else inl (NetworkError "ENOTFOUND");
  request := world_request
|}.

(** A date parser that reads epoch milliseconds in decimal, and a
    sanitizer that lets everything through. *)
#[export] Instance dates : Extract.Dates := {|
  Extract.dateTime := fun v =>
    match v with
    | JsVal.JStr s => parseInt10 s
    | JsVal.JNum n => Some n
    | _ => None
    end
|}.

#[export] Instance sanitizer : Text.Sanitizer := {|
  Text.sanitizeHtml := fun text => text
|}.

(** A feed of four items, which one document parses to. *)
Definition feed_item (title guid : string) : JsVal.JsValue :=
  JsVal.JObj [("title", JsVal.JStr title); ("guid", JsVal.JStr guid);
              ("description", JsVal.JStr "<p>At 1:23 we start</p>")].

Definition feed : JsVal.JsValue :=
  JsVal.JObj
    [("rss",
      JsVal.JObj
        [("channel",
          JsVal.JObj
            [("title", JsVal.JStr "Show");
             ("item",
              JsVal.JArr [feed_item "One" "g-1"; feed_item "Two" "g-2";
                          feed_item "Three" "g-3"; feed_item "Four" "g-4"])])])].

#[export] Instance xml : Routes.XmlParser := {|
  Routes.parseXml := fun text =>
    if String.eqb text "<rss></rss>" then Some feed else None
|}.

(** A request for the second and third episodes, cache bypassed. *)
Definition sample_query : JsVal.JsValue :=
  JsVal.JObj [("url", JsVal.JStr "http://feeds.example/feed.xml");
        ("cursor", JsVal.JArr [JsVal.JStr "1"; JsVal.JStr "3"]); ("limit", JsVal.JStr "2");
        ("refresh", JsVal.JStr "yes")].

(** The decoder of the five references [escapeHtml] writes. *)
Lemma decode_basic_plain s : has_char "&" s = false -> Text.decode_basic s = s.
Proof.
  unfold Text.decode_basic. generalize (String.length s) as n.
  intros n. revert s. induction n as [|n IH]; intros s Hs; [reflexivity|].
  cbn [Text.decode_basic_fuel]. destruct s as [|c r]; [reflexivity|].
  cbn [has_char] in Hs. apply orb_false_iff in Hs as [Hc Hr].
  assert (E : Text.entity_at (String c r) = None).
  { unfold Text.entity_at. cbn [Re.first_of Re.lit]. now rewrite Hc. }
  now rewrite E, (IH r Hr).
Qed.

#[export] Instance basic_decoder : Text.EntityDecoder := {|
  Text.decode := Text.decode_basic;
  Text.decode_plain := decode_basic_plain
|}.

End World.

(** ** Vocabulary for further properties of the fetcher *)
Module Guard.
Import Js Net Ssrf Fetch.



End Guard.

(** ** Vocabulary for further properties of the normalizer *)
Module Shape.
Import Js Re Text.

(** What [escapeHtml] writes for one character. *)
Definition escaped (c : ascii) : string :=
  if Ascii.eqb c "&" then "&amp;"
  else if Ascii.eqb c "<" then "&lt;"
  else if Ascii.eqb c ">" then "&gt;"
  else if Ascii.eqb c DQ then "&quot;"
  else if Ascii.eqb c SQ then "&#39;"
  else String c "".

(** The characters with which text or an attribute value can be left. *)
Definition is_markup (c : ascii) : bool :=
  Ascii.eqb c "<" || Ascii.eqb c ">" || Ascii.eqb c DQ || Ascii.eqb c SQ.

(** No [<] of [s] has a [>] anywhere after it: [s] holds no tag, whole
    or with text inside. *)
Fixpoint tag_free (s : string) : bool :=
  match s with
  | EmptyString => true
  | String c r => (negb (Ascii.eqb c "<") || negb (has_char ">" r)) && tag_free r
  end.

Definition three_lines : string := String LF (String LF (String LF "")).

(** Nowhere in [s] do three line feeds follow one another. *)
Fixpoint no_run3 (s : string) : bool :=
  match s with
  | EmptyString => true
  | String _ r => negb (String.prefix three_lines s) && no_run3 r
  end.

(** [s] does not start with a line feed. *)
Definition no_lf_head (s : string) : bool :=
  match s with
  | String c _ => negb (Ascii.eqb c LF)
  | EmptyString => true
  end.

(** The replacement of a run of line feeds. *)
Definition two (matched : string) : string := String LF (String LF "").

Definition is_ascii (c : ascii) : bool := code c <? 128.

Definition any (c : ascii) : bool := true.
Definition plain (c : ascii) : bool := negb (Ascii.eqb c "<") && negb (Ascii.eqb c ">").
(** The character that opens a tag. *)
Definition opens (c : ascii) : bool := Ascii.eqb c "<".

(** What a matcher matches is a prefix of its input, made of
    characters of the class [p]. *)
Definition within (p : ascii -> bool) (m : Matcher) : Prop :=
  forall s x rest, m s = Some (x, rest) -> s = x ++ rest /\ all_chars p x = true.

(** A matcher that matches no empty text. *)
Definition nonempty (m : Matcher) : Prop :=
  forall s x rest, m s = Some (x, rest) -> x <> "".

(** A matcher that needs one of the characters of [p] at the head. *)
Definition headed (p : ascii -> bool) (m : Matcher) : Prop :=
  m "" = None /\ forall c r, p c = false -> m (String c r) = None.

(** A string made of white space. *)
Inductive blank : string -> Prop :=
| blank_nil : blank ""
| blank_cons w r : ws_head w = Some (w, "") -> blank r -> blank (w ++ r).

(** A character that starts no match of the expressions of
    [convertHtmlToPlainText]: no [<], no line break. *)
Definition inert (c : ascii) : bool :=
  negb (Ascii.eqb c "<") && negb (Ascii.eqb c CR) && negb (Ascii.eqb c LF).

Definition active (c : ascii) : bool := negb (inert c).

(** The replacements of [convertHtmlToPlainText], in their order. *)
Definition conversions : list (Matcher * string) :=
  [(open_tag "strong", "__STRONG_OPEN__");
   (close_tag "strong", "__STRONG_CLOSE__");
   (open_tag "b", "__STRONG_OPEN__");
   (close_tag "b", "__STRONG_CLOSE__");
   (open_tag "em", "__EM_OPEN__");
   (close_tag "em", "__EM_CLOSE__");
   (open_tag "i", "__EM_OPEN__");
   (close_tag "i", "__EM_CLOSE__");
   (open_tag "blockquote", two_lines ++ BLOCKQUOTE_OPEN_TOKEN ++ two_lines);
   (close_tag "blockquote", two_lines ++ BLOCKQUOTE_CLOSE_TOKEN ++ two_lines);
   (br_loose_at, String LF "");
   (close_tag "p", two_lines);
   (close_tag "div", two_lines);
   (block_open_at, two_lines);
   (block_end_at, two_lines);
   (open_tag "li", bullet);
   (close_tag "li", String LF "");
   (element_at "script", "");
   (element_at "style", "");
   (tag_at, "");
   (crlf_at, String LF "");
   (nl3_at, two_lines)].

Definition convert (acc : string) (step : Matcher * string) : string :=
  replaceAll (fst step) (constant (snd step)) acc.

(** The opening tag of the element a description is wrapped in. *)
Definition detail_open : string :=
  "<div class=" ++ quote ++ "episode-detail-description" ++ quote ++ ">".

End Shape.

(** ** The tokens of [applyFormattingTokens] *)
Module Tokens.
Import Js Re Text.

(** One of the two pairs of tokens, with the element they stand for. *)
Record Family : Type := mkFamily {
  opener : string;
  closer : string;
  element : string
}.

Definition strong : Family := mkFamily "__STRONG_OPEN__" "__STRONG_CLOSE__" "strong".
Definition emphasis : Family := mkFamily "__EM_OPEN__" "__EM_CLOSE__" "em".

(** A text cut into words and the tokens of one family. *)
Inductive Piece : Type :=
| Words (text : string)
| Opener
| Closer.

Fixpoint written (f : Family) (pieces : list Piece) : string :=
  match pieces with
  | [] => ""
  | Words text :: rest => text ++ written f rest
  | Opener :: rest => opener f ++ written f rest
  | Closer :: rest => closer f ++ written f rest
  end.

(** The same text with tags for the tokens: a closer closes the
    element that is open, if there is one, and is dropped otherwise;
    what is still open at the end is closed there. *)
Fixpoint tagged (f : Family) (pieces : list Piece) (depth : nat) : string :=
  match pieces with
  | [] => closers (element f) depth
  | Words text :: rest => text ++ tagged f rest depth
  | Opener :: rest => "<" ++ element f ++ ">" ++ tagged f rest (S depth)
  | Closer :: rest =>
      match depth with
      | S d => "</" ++ element f ++ ">" ++ tagged f rest d
      | O => tagged f rest O
      end
  end.

Definition no_underscore (c : ascii) : bool := negb (Ascii.eqb c "_").

(** No word holds an underscore. *)
Definition wordy (pieces : list Piece) : bool :=
  forallb (fun piece => match piece with
                        | Words text => all_chars no_underscore text
                        | _ => true
                        end) pieces.

Definition count_tokens (pieces : list Piece) : nat :=
  List.length (filter (fun piece => match piece with Words _ => false | _ => true end) pieces).

Definition tokens : list string :=
  [opener strong; closer strong; opener emphasis; closer emphasis].

(** A text in which every underscore belongs to a token. *)
Inductive marked : string -> Prop :=
| marked_nil : marked ""
| marked_char c s : no_underscore c = true -> marked s -> marked (String c s)
| marked_token token s : In token tokens -> marked s -> marked (token ++ s).

(** The result of a search, behind a text that was skipped. *)
Definition shift (a : string) (r : option (string * string)) : option (string * string) :=
  match r with
  | Some (b, rest) => Some (a ++ b, rest)
  | None => None
  end.

End Tokens.

(** ** Two more documents *)
Module Samples.
Import Js JsVal World.

(** A feed whose second item has no title. *)
Definition untitled_feed : JsValue :=
  JObj
    [("rss",
      JObj
        [("channel",
          JObj
            [("title", JStr "Show");
             ("item", JArr [feed_item "One" "g-1"; JObj [("guid", JStr "g-2")]])])])].

(** A parser that reads every document as a page that is no feed. *)
Definition page_parser : Routes.XmlParser := {|
  Routes.parseXml := fun _ => Some (JObj [("html", JObj [])])
|}.

End Samples.

(** ** The expressions of the spacing pass *)
Module Spacing.
Import Js Re Text.

(** The two expressions of [addReadableSpacing]. *)
Definition cjk_alnum : Matcher := andThen cjk_at (one is_alnum).
Definition alnum_cjk : Matcher := andThen (one is_alnum) cjk_at.

(** No match of [m] starts anywhere in [s]. *)
Fixpoint calm (m : Matcher) (s : string) : Prop :=
  match s with
  | EmptyString => m "" = None
  | String c r => m s = None /\ calm m r
  end.

End Spacing.

(* ================================================================== *)
(** * Part II.  Properties                                             *)
(* ================================================================== *)

(** ** Facts about the string primitives *)
Module JsFacts.
Import Js.

Lemma append_nil_r (s : string) : s ++ "" = s.
Proof. induction s as [|c s IH]; simpl; [reflexivity | now rewrite IH]. Qed.

Lemma append_assoc (a b c : string) : (a ++ b) ++ c = a ++ (b ++ c).
Proof. induction a as [|x a IH]; simpl; [reflexivity | now rewrite IH]. Qed.

Lemma length_append (a b : string) :
  String.length (a ++ b) = (String.length a + String.length b)%nat.
Proof. induction a as [|x a IH]; simpl; [reflexivity | now rewrite IH]. Qed.

Lemma is_digit_range c : is_digit c = true <-> 48 <= code c <= 57.
Proof. unfold is_digit. rewrite andb_true_iff, !Z.leb_le. tauto. Qed.

Lemma code_range c : 0 <= code c <= 255.
Proof.
  unfold code. destruct c as [[] [] [] [] [] [] [] []]; vm_compute; split; discriminate.
Qed.

(** A character whose code is above the controls and the space, and
    below the UTF-8 lead bytes, starts no white space. *)
Lemma ws_head_printable c r : 33 <= code c <= 127 -> ws_head (String c r) = None.
Proof.
  intros Hc. unfold ws_head.
  repeat match goal with
         | |- context [if ?b then _ else _] =>
             let E := fresh "E" in
             destruct b eqn:E;
             [ exfalso;
               rewrite ?andb_true_iff, ?orb_true_iff, ?Z.eqb_eq, ?Z.leb_le in E; lia | ]
         | |- context [match ?r with EmptyString => _ | String _ _ => _ end] => destruct r
         end; reflexivity.
Qed.

Lemma span_ws_printable c r :
  33 <= code c <= 127 -> span_ws (String c r) = ("", String c r).
Proof.
  intros Hc. unfold span_ws. cbn [String.length span_ws_fuel].
  now rewrite ws_head_printable.
Qed.

Lemma skip_ws_printable c r : 33 <= code c <= 127 -> skip_ws (String c r) = String c r.
Proof. intros Hc. unfold skip_ws. now rewrite span_ws_printable. Qed.

Lemma digits_from_nonneg s : forall seen acc v,
  0 <= acc -> digits_from s seen acc = Some v -> 0 <= v.
Proof.
  induction s as [|c s IH]; intros seen acc v Hacc; cbn [digits_from].
  - destruct seen; [intros [= <-]; exact Hacc | discriminate].
  - destruct (is_digit c) eqn:Hd.
    + apply IH. apply is_digit_range in Hd. unfold digit_val. lia.
    + destruct seen; [intros [= <-]; exact Hacc | discriminate].
Qed.

(** [parseInt] reads a string that starts with a digit as the digits do. *)
Lemma parseInt10_digit c r :
  is_digit c = true -> parseInt10 (String c r) = digits_from (String c r) false 0.
Proof.
  intros Hd. pose proof (proj1 (is_digit_range c) Hd) as Hc.
  unfold parseInt10. rewrite skip_ws_printable by lia.
  destruct (Ascii.eqb_spec c "-") as [->|_]; [change (code "-") with 45 in Hc; lia|].
  destruct (Ascii.eqb_spec c "+") as [->|_]; [change (code "+") with 43 in Hc; lia|].
  reflexivity.
Qed.

Lemma prefix_nil s : String.prefix "" s = true.
Proof. now destruct s. Qed.

Lemma all_chars_weaken (p q : ascii -> bool) s :
  (forall c, p c = true -> q c = true) -> all_chars p s = true -> all_chars q s = true.
Proof.
  intros Hpq. induction s as [|c r IH]; cbn [all_chars]; [reflexivity|].
  intros E. apply andb_true_iff in E as [E1 E2]. now rewrite (Hpq _ E1), (IH E2).
Qed.

Lemma all_chars_absent (p : ascii -> bool) x s :
  p x = false -> all_chars p s = true -> has_char x s = false.
Proof.
  intros Hx. induction s as [|c r IH]; cbn [all_chars has_char]; [reflexivity|].
  intros E. apply andb_true_iff in E as [E1 E2]. rewrite (IH E2), orb_false_r.
  destruct (Ascii.eqb_spec c x) as [->|_]; [congruence | reflexivity].
Qed.

Lemma all_chars_present (p : ascii -> bool) x s :
  p x = false -> has_char x s = true -> all_chars p s = false.
Proof.
  intros Hx. induction s as [|c r IH]; cbn [all_chars has_char]; [discriminate|].
  destruct (Ascii.eqb_spec c x) as [->|_]; cbn [orb].
  - now rewrite Hx.
  - intros E. rewrite (IH E). apply andb_false_r.
Qed.

Lemma all_chars_app p a b :
  all_chars p (a ++ b) = all_chars p a && all_chars p b.
Proof.
  induction a as [|c a IH]; cbn [append all_chars]; [reflexivity|].
  now rewrite IH, andb_assoc.
Qed.

Lemma has_char_app x a b : has_char x (a ++ b) = has_char x a || has_char x b.
Proof.
  induction a as [|c a IH]; cbn [append has_char]; [reflexivity|].
  now rewrite IH, orb_assoc.
Qed.


End JsFacts.

Module SsrfFacts.
Import Js Net Ssrf JsFacts.

Lemma dec_octet_parseInt s v :
  dec_octet s = Some v -> parseInt10 s = Some v /\ 0 <= v <= 255.
Proof.
  unfold dec_octet. destruct s as [|c r]; [discriminate|].
  destruct (all_chars is_digit (String c r)) eqn:Hall; cbn [andb]; [|discriminate].
  destruct (_ && _); [|discriminate].
  destruct (digits_from (String c r) false 0) as [w|] eqn:Hw; [|discriminate].
  destruct (w <=? 255) eqn:Hle; [|discriminate]. intros [= <-].
  cbn [all_chars] in Hall. apply andb_true_iff in Hall as [Hc _].
  rewrite parseInt10_digit by exact Hc. split; [exact Hw|].
  apply Z.leb_le in Hle. apply digits_from_nonneg in Hw; lia.
Qed.

Lemma all_some_cons {A} (x : option A) l r :
  all_some (x :: l) = Some r ->
  exists y ys, x = Some y /\ all_some l = Some ys /\ r = y :: ys.
Proof.
  cbn [all_some]. destruct x as [y|]; [|discriminate].
  destruct (all_some l) as [ys|]; [|discriminate]. intros [= <-]. eauto.
Qed.

Lemma all_some_nil {A B} (f : A -> option B) l :
  all_some (map f l) = Some [] -> l = [].
Proof.
  destruct l as [|x l]; [reflexivity|]. intros E.
  apply all_some_cons in E as (? & ? & _ & _ & ?). discriminate.
Qed.

Lemma all_some_map4 {A B} (f : A -> option B) l a b c d :
  all_some (map f l) = Some [a; b; c; d] ->
  exists sa sb sc sd,
    l = [sa; sb; sc; sd]
    /\ f sa = Some a /\ f sb = Some b /\ f sc = Some c /\ f sd = Some d.
Proof.
  intros E.
  destruct l as [|sa l]; [discriminate|].
  apply all_some_cons in E as (? & ? & Ha & E & [= <- <-]).
  destruct l as [|sb l]; [discriminate|].
  apply all_some_cons in E as (? & ? & Hb & E & [= <- <-]).
  destruct l as [|sc l]; [discriminate|].
  apply all_some_cons in E as (? & ? & Hc & E & [= <- <-]).
  destruct l as [|sd l]; [discriminate|].
  apply all_some_cons in E as (? & ? & Hd & E & [= <- <-]).
  apply all_some_nil in E as ->.
  exists sa, sb, sc, sd. repeat split; assumption.
Qed.

(** A dotted quad splits into four octets that [parseInt] reads alike. *)
Lemma parseIPv4_inv ip a b c d :
  parseIPv4 ip = Some [a; b; c; d] ->
  exists sa sb sc sd,
    split_char "." ip = [sa; sb; sc; sd]
    /\ dec_octet sa = Some a /\ dec_octet sb = Some b
    /\ dec_octet sc = Some c /\ dec_octet sd = Some d.
Proof.
  unfold parseIPv4.
  destruct (all_some (map dec_octet (split_char "." ip))) as [l|] eqn:E; [|discriminate].
  destruct l as [|a' [|b' [|c' [|d' [|e l]]]]]; try discriminate. intros [= -> -> -> ->].
  now apply all_some_map4.
Qed.

Lemma parseIPv4_shape ip o :
  parseIPv4 ip = Some o -> exists a b c d, o = [a; b; c; d].
Proof.
  unfold parseIPv4.
  destruct (all_some _) as [l|]; [|discriminate].
  destruct l as [|a [|b [|c [|d [|e l]]]]]; try discriminate. intros [= <-]. eauto.
Qed.

Lemma isIP_v4 ip o : parseIPv4 ip = Some o -> isIP ip = 4.
Proof. unfold isIP. now intros ->. Qed.

Lemma privateV4_octets ip a b c d :
  parseIPv4 ip = Some [a; b; c; d] ->
  privateV4 ip = octet_rule a b /\ 0 <= a <= 255 /\ 0 <= b <= 255
  /\ 0 <= c <= 255 /\ 0 <= d <= 255.
Proof.
  intros E. apply parseIPv4_inv in E as (sa & sb & sc & sd & Hs & Ha & Hb & Hc & Hd).
  apply dec_octet_parseInt in Ha as [Pa Ra], Hb as [Pb Rb], Hc as [_ Rc], Hd as [_ Rd].
  repeat split; try lia.
  unfold privateV4, octet_rule. rewrite Hs. cbn [map nth]. rewrite Pa, Pb.
  destruct (a =? 10); [reflexivity|].
  destruct (a =? 127); [reflexivity|].
  destruct (a =? 0); [reflexivity|].
  destruct ((a =? 169) && (b =? 254)); [reflexivity|].
  destruct ((a =? 172) && ((16 <=? b) && (b <=? 31))); [reflexivity|].
  destruct ((a =? 192) && (b =? 168)); [reflexivity|].
  destruct ((a =? 100) && ((64 <=? b) && (b <=? 127))); reflexivity.
Qed.

Lemma reserved_v4_octets a b c d :
  0 <= a <= 255 -> 0 <= b <= 255 -> 0 <= c <= 255 -> 0 <= d <= 255 ->
  reserved_v4 (v4 a b c d) = octet_rule a b.
Proof.
  intros Ha Hb Hc Hd.
  unfold reserved_v4, in_block, octet_rule.
  replace (v4 a b c d) with (((a * 256 + b) * 256 + c) * 256 + d)
    by (unfold v4, ipv4_value; cbn [fold_left]; ring).
  change (v4 0 0 0 0) with 0. change (v4 10 0 0 0) with 167772160.
  change (v4 127 0 0 0) with 2130706432. change (v4 169 254 0 0) with 2851995648.
  change (v4 172 16 0 0) with 2886729728. change (v4 192 168 0 0) with 3232235520.
  change (v4 100 64 0 0) with 1681915904.
  rewrite !Z.shiftr_div_pow2 by lia.
  change (32 - 8) with 24. change (32 - 16) with 16.
  change (32 - 12) with 20. change (32 - 10) with 22.
  change (2 ^ 24) with 16777216. change (2 ^ 16) with 65536.
  change (2 ^ 20) with 1048576. change (2 ^ 22) with 4194304.
  change (0 / 16777216) with 0. change (167772160 / 16777216) with 10.
  change (2130706432 / 16777216) with 127. change (2851995648 / 65536) with 43518.
  change (2886729728 / 1048576) with 2753. change (3232235520 / 65536) with 49320.
  change (1681915904 / 4194304) with 401.
  set (v := ((a * 256 + b) * 256 + c) * 256 + d).
  assert (E24 : v / 16777216 = a)
    by (symmetry; apply (Z.div_unique _ _ _ ((b * 256 + c) * 256 + d)); subst v; lia).
  assert (E16 : v / 65536 = a * 256 + b)
    by (symmetry; apply (Z.div_unique _ _ _ (c * 256 + d)); subst v; lia).
  pose proof (Z.mul_div_le b 16 ltac:(lia)) as L16.
  pose proof (Z.mul_succ_div_gt b 16 ltac:(lia)) as U16.
  pose proof (Z.mul_div_le b 64 ltac:(lia)) as L64.
  pose proof (Z.mul_succ_div_gt b 64 ltac:(lia)) as U64.
  assert (E20 : v / 1048576 = a * 16 + b / 16)
    by (symmetry;
        apply (Z.div_unique _ _ _ (((b - 16 * (b / 16)) * 256 + c) * 256 + d)); subst v; lia).
  assert (E22 : v / 4194304 = a * 4 + b / 64)
    by (symmetry;
        apply (Z.div_unique _ _ _ (((b - 64 * (b / 64)) * 256 + c) * 256 + d)); subst v; lia).
  rewrite E24, E16, E20, E22. clear E24 E16 E20 E22 v.
  revert L16 U16 L64 U64. generalize (b / 16) (b / 64). intros q16 q64 L16 U16 L64 U64.
  apply eq_true_iff_eq.
  rewrite !orb_true_iff, !andb_true_iff, !Z.eqb_eq, !Z.leb_le.
  lia.
Qed.

(** Two units of fuel are enough, and more changes nothing. *)
Lemma isPrivateIp_fuel_enough n ip :
  isPrivateIp_fuel (S (S n)) ip = Some (isPrivateIp ip).
Proof.
  unfold isPrivateIp. cbn [isPrivateIp_fuel].
  repeat match goal with
         | |- context [if ?b then _ else _] => destruct b
         end; reflexivity.
Qed.

Lemma isPrivateIp_v4 ip : isIP ip = 4 -> isPrivateIp ip = privateV4 ip.
Proof. intros E. unfold isPrivateIp. cbn [isPrivateIp_fuel]. now rewrite E. Qed.

Lemma isPrivateIp_v6 ip : isIP ip = 6 -> isPrivateIp ip = text_rule_v6 ip.
Proof.
  intros E. unfold isPrivateIp, text_rule_v6. cbn [isPrivateIp_fuel]. rewrite E.
  cbn [Z.eqb Pos.eqb].
  destruct (String.eqb _ "::1"); [reflexivity|].
  destruct (startsWith "fe80:" _); [reflexivity|].
  destruct (startsWith "fc" _); [reflexivity|].
  destruct (startsWith "fd" _); [reflexivity|].
  destruct (startsWith "::ffff:" _); [|reflexivity].
  cbn [orb andb].
  destruct (isIP (drop_prefix _ _) =? 4) eqn:E4; [|reflexivity].
  apply Z.eqb_eq in E4. now rewrite (isPrivateIp_v4 _ E4).
Qed.

(** *** IPv4-mapped addresses in dotted form *)

Lemma split_char_cons sep s : exists h t, split_char sep s = h :: t.
Proof.
  induction s as [|c r (h & t & IH)]; cbn [split_char]; [eauto|].
  destruct (Ascii.eqb c sep); [eauto|]. rewrite IH. eauto.
Qed.

Lemma split_char_absent sep s : has_char sep s = false -> split_char sep s = [s].
Proof.
  induction s as [|c r IH]; cbn [has_char split_char]; [reflexivity|].
  intros E. apply orb_false_iff in E as [E1 E2]. rewrite E1, (IH E2). reflexivity.
Qed.

Lemma split_char_chars sep p s :
  p sep = true -> Forall (fun seg => all_chars p seg = true) (split_char sep s) ->
  all_chars p s = true.
Proof.
  intros Hsep. induction s as [|c r IH]; cbn [split_char all_chars]; [reflexivity|].
  destruct (Ascii.eqb_spec c sep) as [->|_].
  - intros F. inversion F; subst. rewrite Hsep. cbn. now apply IH.
  - destruct (split_char_cons sep r) as (h & t & E). rewrite E in *.
    intros F. inversion F as [|? ? Hh Ht]; subst. cbn [all_chars] in Hh.
    apply andb_true_iff in Hh as [Hc Hh]. rewrite Hc. cbn.
    apply IH. now constructor.
Qed.

Lemma dec_octet_digits s v : dec_octet s = Some v -> all_chars is_digit s = true.
Proof.
  unfold dec_octet. destruct s as [|c r]; [discriminate|].
  destruct (all_chars is_digit (String c r)); [reflexivity | discriminate].
Qed.

Lemma parseIPv4_chars s o : parseIPv4 s = Some o -> all_chars dotted_char s = true.
Proof.
  intros E. destruct (parseIPv4_shape _ _ E) as (a & b & c & d & ->).
  apply parseIPv4_inv in E as (sa & sb & sc & sd & Hs & Ha & Hb & Hc & Hd).
  apply (split_char_chars "."); [reflexivity|]. rewrite Hs.
  repeat constructor;
    (eapply all_chars_weaken; [|eapply dec_octet_digits; eassumption]);
    intros x Hx; unfold dotted_char; now rewrite Hx.
Qed.

Lemma parseIPv4_has_dot s o : parseIPv4 s = Some o -> has_char "." s = true.
Proof.
  intros E. destruct (parseIPv4_shape _ _ E) as (a & b & c & d & ->).
  apply parseIPv4_inv in E as (sa & sb & sc & sd & Hs & _).
  destruct (has_char "." s) eqn:Hd; [reflexivity|].
  rewrite (split_char_absent _ _ Hd) in Hs. discriminate.
Qed.

Lemma toLowerCase_dotted s : all_chars dotted_char s = true -> toLowerCase s = s.
Proof.
  induction s as [|c r IH]; cbn [all_chars toLowerCase]; [reflexivity|].
  intros E. apply andb_true_iff in E as [E1 E2]. rewrite (IH E2). f_equal.
  unfold lower_char. destruct (is_upper c) eqn:U; [|reflexivity].
  exfalso. unfold dotted_char in E1. apply orb_true_iff in E1 as [D|D].
  - apply is_digit_range in D. unfold is_upper in U.
    apply andb_true_iff in U as [U _]. apply Z.leb_le in U. lia.
  - apply Ascii.eqb_eq in D. subst c. discriminate.
Qed.

Lemma split_zone_absent s : has_char "%" s = false -> split_zone s = (s, None).
Proof.
  induction s as [|c r IH]; cbn [has_char split_zone]; [reflexivity|].
  intros E. apply orb_false_iff in E as [E1 E2]. now rewrite E1, (IH E2).
Qed.

(** The dotted IPv4-mapped form of an IPv4 address is an IPv6 address. *)
Lemma isIP_mapped s : isIP s = 4 -> isIP ("::ffff:" ++ s) = 6.
Proof.
  unfold isIP at 1. destruct (parseIPv4 s) as [o|] eqn:E;
    [intros _ | destruct (parseIPv6 s); discriminate].
  pose proof (parseIPv4_chars _ _ E) as Hch.
  pose proof (parseIPv4_has_dot _ _ E) as Hdot.
  destruct (parseIPv4_shape _ _ E) as (a & b & c & d & ->).
  assert (H4 : parseIPv4 ("::ffff:" ++ s) = None).
  { unfold parseIPv4. cbn [append split_char Ascii.eqb Bool.eqb].
    destruct (split_char_cons "." s) as (h & t & ->). reflexivity. }
  assert (Hz : has_char "%" s = false) by (now apply (all_chars_absent dotted_char)).
  assert (Hc : has_char ":" s = false) by (now apply (all_chars_absent dotted_char)).
  assert (Hx : all_chars is_hex s = false) by (now apply (all_chars_present _ ".")).
  unfold isIP. rewrite H4. unfold parseIPv6.
  rewrite split_zone_absent by (cbn [append has_char Ascii.eqb Bool.eqb orb]; exact Hz).
  cbn [negb append split_dcolon Ascii.eqb Bool.eqb andb startsWith String.prefix drop_one].
  destruct (ascii_dec ":" ":") as [_|N]; [|now elim N].
  cbn [side_groups split_char Ascii.eqb Bool.eqb].
  rewrite (split_char_absent _ _ Hc).
  cbn [groups_of]. change (hex_group "ffff") with (Some 65535).
  assert (Hg : hex_group s = None).
  { unfold hex_group. destruct s; [reflexivity|]. now rewrite Hx. }
  rewrite Hg, E. reflexivity.
Qed.

(** Such an address is classified as the IPv4 address it embeds. *)
Lemma isPrivateIp_mapped s :
  isIP s = 4 -> isPrivateIp ("::ffff:" ++ s) = isPrivateIp s.
Proof.
  intros E. rewrite (isPrivateIp_v6 _ (isIP_mapped _ E)).
  assert (Hch : all_chars dotted_char s = true).
  { unfold isIP in E. destruct (parseIPv4 s) eqn:P; [now apply parseIPv4_chars in P|].
    destruct (parseIPv6 s); discriminate. }
  unfold text_rule_v6. cbn [append toLowerCase]. rewrite (toLowerCase_dotted _ Hch).
  change (lower_char ":") with ":"%char. change (lower_char "f") with "f"%char.
  cbn [String.eqb Ascii.eqb Bool.eqb startsWith String.prefix drop_prefix orb].
  repeat match goal with
         | |- context [ascii_dec ?x ?y] =>
             let N := fresh in destruct (ascii_dec x y) as [N|N]; try discriminate N;
             try (now elim N)
         end.
  rewrite prefix_nil, E. reflexivity.
Qed.


Lemma isPrivateIp_none ip : isIP ip = 0 -> isPrivateIp ip = false.
Proof. intros E. unfold isPrivateIp. cbn [isPrivateIp_fuel]. now rewrite E. Qed.

Lemma isPrivateIp_v4_blocks ip : isIP ip = 4 -> isPrivateIp ip = reserved_address ip.
Proof.
  intros E. rewrite (isPrivateIp_v4 _ E). unfold reserved_address.
  unfold isIP in E. destruct (parseIPv4 ip) as [o|] eqn:P;
    [|destruct (parseIPv6 ip); discriminate].
  destruct (parseIPv4_shape _ _ P) as (a & b & c & d & ->).
  destruct (privateV4_octets _ _ _ _ _ P) as (-> & Ha & Hb & Hc & Hd).
  symmetry. now apply reserved_v4_octets.
Qed.

(** C1, as stated, fails: the classifier does not decide membership in
    the IPv6 blocks. [fe90::1] lies in fe80::/10 and [0:0:0:0:0:0:0:1]
    is the loopback address, yet both are classified public;
    [fc::1], which lies outside fc00::/7, is classified private. *)
Lemma isPrivateIp_not_by_block :
  (isPrivateIp "fe90::1" = false /\ reserved_address "fe90::1" = true)
  /\ (isPrivateIp "0:0:0:0:0:0:0:1" = false /\ reserved_address "0:0:0:0:0:0:0:1" = true)
  /\ (isPrivateIp "fc::1" = true /\ reserved_address "fc::1" = false).
Proof. vm_compute. repeat split. Qed.

(** C1, amended: on IPv4 addresses [isPrivateIp] is exactly membership
    in the seven blocks; on IPv6 addresses it is a test on the
    lower-cased text (equal to [::1], starting with [fe80:], [fc] or
    [fd], or [::ffff:] followed by a private dotted IPv4 address), so an
    IPv4-mapped address in dotted form is classified as the IPv4 address
    it embeds; a string that is no address is not private. The guard
    rejects the three private literal hosts and accepts 93.184.216.34. *)
Theorem isPrivateIp_classification :
  (forall ip, isIP ip = 4 -> isPrivateIp ip = reserved_address ip)
  /\ (forall ip, isIP ip = 6 -> isPrivateIp ip = text_rule_v6 ip)
  /\ (forall ip, isIP ip = 4 ->
        isIP ("::ffff:" ++ ip) = 6 /\ isPrivateIp ("::ffff:" ++ ip) = isPrivateIp ip)
  /\ (forall ip, isIP ip = 0 -> isPrivateIp ip = false)
  /\ ensurePublicUrl (mkUrl "http:" "127.0.0.1" "http://127.0.0.1/feed") = Some ForbiddenAddress
  /\ ensurePublicUrl (mkUrl "http:" "10.0.0.5" "http://10.0.0.5/feed") = Some ForbiddenAddress
  /\ ensurePublicUrl (mkUrl "http:" "169.254.169.254" "http://169.254.169.254/feed")
     = Some ForbiddenAddress
  /\ ensurePublicUrl (mkUrl "http:" "93.184.216.34" "http://93.184.216.34/feed") = None.
Proof.
  split; [exact isPrivateIp_v4_blocks|].
  split; [exact isPrivateIp_v6|].
  split; [intros ip E; split; [now apply isIP_mapped | now apply isPrivateIp_mapped]|].
  split; [exact isPrivateIp_none|].
  repeat split; vm_compute; reflexivity.
Qed.

Lemma isPrivateIp_classification_witness :
  isPrivateIp "172.31.255.1" = reserved_address "172.31.255.1"
  /\ isPrivateIp "fd12:3456::1" = text_rule_v6 "fd12:3456::1"
  /\ isPrivateIp "::ffff:192.168.1.9" = isPrivateIp "192.168.1.9".
Proof.
  split; [apply (proj1 isPrivateIp_classification); reflexivity|].
  split; [apply (proj1 (proj2 isPrivateIp_classification)); reflexivity|].
  apply (proj1 (proj2 (proj2 isPrivateIp_classification))); reflexivity.
Defined.

(** *** [resolvePublicAddress] *)





End SsrfFacts.

(** ** Facts about the fetcher *)
Module FetchFacts.
Import Js Net Ssrf Fetch.

Section BodyFacts.
Context `{Buffers}.

Lemma total_length_app (a b : list Buffer) :
  total_length (a ++ b) = total_length a + total_length b.
Proof.
  induction a as [|x a IH]; cbn [app total_length fold_right]; [reflexivity|].
  fold (total_length (a ++ b)). fold (total_length a). lia.
Qed.

Lemma total_length_nonneg (a : list Buffer) : 0 <= total_length a.
Proof.
  induction a as [|x a IH]; cbn [total_length fold_right]; [lia|].
  fold (total_length a). pose proof (byteLength_nonneg x). lia.
Qed.

Lemma total_length_cons (x : Buffer) (a : list Buffer) :
  total_length (x :: a) = byteLength x + total_length a.
Proof. reflexivity. Qed.

(** The stream from a state that is still receiving: either the cap is
    never passed and every chunk is kept, or the chunk that first
    passes it is the last one handled. *)
Lemma stream_from encoding cs : forall acc seen n,
  seen <= MAX_RSS_BYTES ->
  (seen + total_length cs <= MAX_RSS_BYTES ->
     stream encoding (mkBody acc seen false None n) cs
     = mkBody (acc ++ cs) (seen + total_length cs) false
              (Some (decode encoding (concat (acc ++ cs)))) (n + List.length cs))
  /\ (MAX_RSS_BYTES < seen + total_length cs ->
      exists pre c post,
        cs = (pre ++ c :: post)%list
        /\ seen + total_length pre <= MAX_RSS_BYTES
        /\ MAX_RSS_BYTES < seen + total_length pre + byteLength c
        /\ stream encoding (mkBody acc seen false None n) cs
           = mkBody (acc ++ pre) (seen + total_length pre + byteLength c) true
                    (Some (inl TooLarge)) (S (n + List.length pre))).
Proof.
  induction cs as [|c cs IH]; intros acc seen n Hseen.
  - cbn [stream destroyed total_length fold_right]. split.
    + intros _. unfold onEnd. cbn [totalBytes chunks destroyed settled delivered settle].
      destruct (Z.gtb_spec seen MAX_RSS_BYTES) as [G|_]; [lia|].
      rewrite app_nil_r, Z.add_0_r, Nat.add_0_r. reflexivity.
    + intros G. lia.
  - rewrite total_length_cons. cbn [stream destroyed]. unfold onData.
    cbn [totalBytes chunks destroyed settled delivered settle].
    pose proof (byteLength_nonneg c) as Hc. pose proof (total_length_nonneg cs) as Hcs.
    destruct (Z.gtb_spec (seen + byteLength c) MAX_RSS_BYTES) as [G|L].
    + split; [intros; lia|]. intros _. exists [], c, cs.
      cbn [app total_length fold_right List.length].
      rewrite app_nil_r, Z.add_0_r, Nat.add_0_r.
      repeat split; try lia. now destruct cs.
    + destruct (IH (acc ++ [c])%list (seen + byteLength c) (S n) L) as [Hle Hgt]. split.
      * intros Hall. rewrite Hle by lia. rewrite <- app_assoc. cbn [app List.length].
        f_equal; lia.
      * intros Hall. destruct Hgt as (pre & x & post & -> & Hpre & Hx & Hs); [lia|].
        exists (c :: pre), x, post. rewrite total_length_cons. cbn [app List.length].
        repeat split; try lia. rewrite Hs, <- app_assoc. cbn [app].
        f_equal; lia.
Qed.

Lemma receive_settles encoding cs : settled (receive encoding cs) <> None.
Proof.
  unfold receive, initial.
  destruct (stream_from encoding cs [] 0 0%nat) as [Hle Hgt]; [unfold MAX_RSS_BYTES; lia|].
  destruct (Z.le_gt_cases (0 + total_length cs) MAX_RSS_BYTES) as [L|G].
  - rewrite (Hle L). discriminate.
  - destruct (Hgt G) as (? & ? & ? & _ & _ & _ & ->). discriminate.
Qed.

End BodyFacts.

Section RedirectFacts.
Context `{Network}.







End RedirectFacts.

Import World.



End FetchFacts.

(** ** Facts about the matchers and the highlighter *)
Module ReFacts.
Import Js Re JsFacts.

Section ReplaceAll.
Variables (m : Matcher) (f : string -> string).
Hypothesis m_consuming : consuming m.

Lemma replaceAll_fuel_any n : forall k s,
  (String.length s <= n)%nat -> (String.length s <= k)%nat ->
  replaceAll_fuel n m f s = replaceAll_fuel k m f s.
Proof.
  induction n as [|n IH]; intros k s Hn Hk.
  - destruct s; [|cbn in Hn; lia]. destruct k as [|k]; [reflexivity|].
    cbn [replaceAll_fuel]. destruct (m "") as [[x rest]|] eqn:E; [|reflexivity].
    apply m_consuming in E. cbn in E. lia.
  - destruct k as [|k].
    + destruct s; [|cbn in Hk; lia]. cbn [replaceAll_fuel].
      destruct (m "") as [[x rest]|] eqn:E; [|reflexivity].
      apply m_consuming in E. cbn in E. lia.
    + cbn [replaceAll_fuel]. destruct (m s) as [[x rest]|] eqn:E.
      * apply m_consuming in E. f_equal. apply IH; lia.
      * destruct s as [|c r]; [reflexivity|]. cbn in Hn, Hk. f_equal. apply IH; lia.
Qed.

Lemma replaceAll_match s x rest :
  m s = Some (x, rest) -> replaceAll m f s = f x ++ replaceAll m f rest.
Proof.
  intros E. unfold replaceAll. pose proof (m_consuming _ _ _ E) as L.
  destruct (String.length s) as [|n] eqn:Hs; [lia|].
  cbn [replaceAll_fuel]. rewrite E. f_equal. apply replaceAll_fuel_any; lia.
Qed.

Lemma replaceAll_skip c r :
  m (String c r) = None -> replaceAll m f (String c r) = String c (replaceAll m f r).
Proof.
  intros E. unfold replaceAll. cbn [String.length replaceAll_fuel]. now rewrite E.
Qed.

Lemma replaceAll_nil : replaceAll m f "" = "".
Proof. reflexivity. Qed.

End ReplaceAll.

(** *** The span of a character class *)

Lemma span_app_stop p a b :
  all_chars p a = true ->
  match b with String c _ => p c = false | EmptyString => True end ->
  span p (a ++ b) = (a, b).
Proof.
  intros Ha Hb. induction a as [|x a IH]; cbn [append span].
  - destruct b as [|c b]; cbn [span]; [reflexivity|]. now rewrite Hb.
  - cbn [all_chars] in Ha. apply andb_true_iff in Ha as [Hx Ha].
    now rewrite Hx, (IH Ha).
Qed.

Lemma span_spec p s a b :
  span p s = (a, b) ->
  s = a ++ b /\ all_chars p a = true.
Proof.
  revert a b. induction s as [|c r IH]; intros a b; cbn [span].
  - intros [= <- <-]. now split.
  - destruct (p c) eqn:Hc.
    + destruct (span p r) as [a' b'] eqn:E. intros [= <- <-].
      destruct (IH _ _ eq_refl) as [-> Ha]. cbn [append all_chars]. now rewrite Hc.
    + intros [= <- <-]. now split.
Qed.

(** *** [/<[^>]+>/] *)

Lemma tag_at_inv s g rest :
  tag_at s = Some (g, rest) -> is_tag g /\ s = g ++ rest.
Proof.
  unfold tag_at, seq, andThen, many1. destruct s as [|c r]; [discriminate|].
  cbn [lit]. destruct (Ascii.eqb_spec c "<") as [->|]; [|discriminate].
  destruct (span (not_char ">") r) as [body r1] eqn:E.
  destruct body as [|b body]; [discriminate|].
  destruct r1 as [|c1 r2]; cbn; [discriminate|].
  destruct (Ascii.eqb_spec c1 ">") as [->|]; cbn; [|discriminate].
  intros [= <- <-].
  apply span_spec in E as [-> Hb]. split.
  - exists (String b body). split; [|split; [discriminate | exact Hb]].
    cbn [append]. rewrite ?append_nil_r. reflexivity.
  - cbn [append]. rewrite ?append_nil_r, ?append_assoc. reflexivity.
Qed.




(** *** [/\d{1,2}:\d{2}(?::\d{2})?/] *)

Ltac split_input H :=
  repeat (cbn in H;
          match type of H with
          | context [match ?s with EmptyString => _ | String _ _ => _ end] =>
              is_var s; destruct s
          | context [if is_digit ?c then _ else _] =>
              destruct (is_digit c) eqn:?
          | context [if Ascii.eqb ?c ?x then _ else _] =>
              destruct (Ascii.eqb_spec c x); [subst c|]
          end; try discriminate H).

Lemma time_at_shape s t rest :
  time_at s = Some (t, rest) ->
  s = t ++ rest /\ all_chars time_char t = true /\ t <> "".
Proof.
  intros E. unfold time_at, seq, andThen, first_of, opt, one, lit in E.
  split_input E; injection E as <- <-; cbn; unfold time_char;
  repeat match goal with H : is_digit _ = true |- _ => rewrite H; clear H end;
  cbn; repeat split; discriminate.
Qed.


Lemma time_at_consuming : consuming time_at.
Proof.
  intros s t rest E. apply time_at_shape in E as (-> & _ & N).
  rewrite length_append. destruct t; [congruence | cbn; lia].
Qed.

(** A time at the head of a string is still one when text follows. *)
Lemma time_at_extend s y : time_at s <> None -> time_at (s ++ y) <> None.
Proof.
  unfold time_at, seq, andThen, first_of, opt, one, lit. intros E.
  repeat (cbn in E |- *;
          match type of E with
          | context [match ?s with EmptyString => _ | String _ _ => _ end] =>
              is_var s; destruct s
          | context [if is_digit ?c then _ else _] =>
              destruct (is_digit c) eqn:?
          | context [if Ascii.eqb ?c ?x then _ else _] =>
              destruct (Ascii.eqb_spec c x); [subst c|]
          end; try congruence).
  all: cbn in E |- *; try congruence.
  all: repeat match goal with
         | |- context [match ?s with EmptyString => _ | String _ _ => _ end] =>
             is_var s; destruct s; cbn
         | |- context [if ?b then _ else _] => destruct b; cbn
         end; congruence.
Qed.

End ReFacts.

Module TextFacts.
Import Js Re Text JsFacts ReFacts.

(** *** The parts of a split *)










(** *** The visit of one segment *)


















Lemma quiet_replaceAll s : quiet s = true -> replaceAll time_at wrap s = s.
Proof.
  induction s as [|c r IH]; [reflexivity|]. cbn [quiet].
  destruct (time_at (String c r)) eqn:E; [discriminate|]. intros Q.
  rewrite replaceAll_skip by (exact time_at_consuming || exact E). now rewrite IH.
Qed.








(** *** Text segments *)






(** *** The second pass *)














(** *** [toText] *)

(** C7, as stated, fails: the two paragraphs are one line break
    apart, not a blank line. *)
Lemma toText_no_blank_line :
  @toText World.basic_decoder "<p>Hi</p><p>There</p>" = "Hi" ++ String LF "There"
  /\ String.eqb (@toText World.basic_decoder "<p>Hi</p><p>There</p>")
                ("Hi" ++ String LF (String LF "There")) = false.
Proof. vm_compute. split; reflexivity. Qed.

(** C7, amended: [toText] of the two paragraphs is [Hi], one line
    break, [There]: each paragraph closer becomes one newline. *)
Theorem toText_paragraphs `{EntityDecoder} :
  toText "<p>Hi</p><p>There</p>" = "Hi" ++ String LF "There".
Proof.
  unfold toText, decodeHtml.
  rewrite decode_plain by reflexivity.
  vm_compute. reflexivity.
Qed.

Lemma toText_paragraphs_witness :
  @toText World.basic_decoder "<p>Hi</p><p>There</p>" = "Hi" ++ String LF "There".
Proof. exact (@toText_paragraphs World.basic_decoder). Defined.

End TextFacts.

(** ** Facts about the extractor and the identifier *)
Module ExtractFacts.
Import Js JsVal Text Sha256 Extract JsFacts.

(** *** Slices *)

Lemma slice_nonneg {A} (l : list A) start limit :
  0 <= start -> 0 <= limit ->
  slice l start (start + limit) = firstn (Z.to_nat limit) (skipn (Z.to_nat start) l).
Proof.
  intros Hs Hl. unfold slice, rel_index.
  destruct (Z.ltb_spec start 0); [lia|]. destruct (Z.ltb_spec (start + limit) 0); [lia|].
  set (len := Z.of_nat (List.length l)).
  destruct (Z.le_gt_cases start len) as [L|G].
  - rewrite (Z.min_l start len) by lia.
    destruct (Z.le_gt_cases (start + limit) len) as [L2|G2].
    + rewrite (Z.min_l _ _ L2). f_equal. lia.
    + rewrite (Z.min_r (start + limit) len) by lia.
      rewrite (firstn_all2 (n := Z.to_nat limit)) by (rewrite length_skipn; lia).
      apply firstn_all2. rewrite length_skipn. lia.
  - rewrite (Z.min_r start len), (Z.min_r (start + limit) len) by lia.
    replace (Z.to_nat len) with (List.length l) by lia.
    rewrite skipn_all, (skipn_all2 (n := Z.to_nat start)) by lia.
    now rewrite !firstn_nil.
Qed.


Lemma nth_error_slice {A} (l : list A) start limit i :
  0 <= start -> 0 <= limit ->
  nth_error (slice l start (start + limit)) i
  = if (Z.of_nat i <? limit) then nth_error l (Z.to_nat start + i) else None.
Proof.
  intros Hs Hl. rewrite (slice_nonneg _ _ _ Hs Hl).
  destruct (Z.ltb_spec (Z.of_nat i) limit) as [L|G].
  - rewrite nth_error_firstn.
    destruct (Nat.ltb_spec i (Z.to_nat limit)); [|lia]. apply nth_error_skipn.
  - rewrite nth_error_firstn.
    destruct (Nat.ltb_spec i (Z.to_nat limit)); [lia | reflexivity].
Qed.

Lemma length_mapi {A B} (f : Z -> A -> B) l : forall k,
  List.length (mapi f k l) = List.length l.
Proof. induction l as [|x l IH]; intros k; cbn; [reflexivity | now rewrite IH]. Qed.

Lemma nth_error_mapi {A B} (f : Z -> A -> B) l : forall k i,
  nth_error (mapi f k l) i = option_map (f (k + Z.of_nat i)) (nth_error l i).
Proof.
  induction l as [|x l IH]; intros k i.
  - now destruct i.
  - destruct i as [|i]; cbn [mapi nth_error option_map].
    + now rewrite Z.add_0_r.
    + rewrite IH. do 2 f_equal. lia.
Qed.

Section Pages.
Context `{EntityDecoder} `{Sanitizer} `{Dates}.


End Pages.

(** *** The episode identifier *)










Import World.



End ExtractFacts.

(** ** Facts about the routes *)
Module RoutesFacts.
Import Js JsVal Ssrf Fetch Text Extract Routes JsFacts.

Lemma safeCursorOf_spec cursor :
  0 <= safeCursorOf cursor
  /\ (forall n, parseIntParam cursor "0" = Some n -> 0 <= n -> safeCursorOf cursor = n)
  /\ (forall n, parseIntParam cursor "0" = Some n -> n < 0 -> safeCursorOf cursor = 0)
  /\ (parseIntParam cursor "0" = None -> safeCursorOf cursor = 0).
Proof.
  unfold safeCursorOf. destruct (parseIntParam cursor "0") as [n|].
  - destruct (Z.ltb_spec n 0); repeat split; try lia; try discriminate;
      intros m [= <-]; lia.
  - repeat split; try lia; discriminate.
Qed.

Lemma safeLimitOf_spec limit :
  1 <= safeLimitOf limit <= MAX_LIMIT
  /\ (forall n, parseIntParam limit "10" = Some n -> 1 <= n ->
        safeLimitOf limit = Z.min n MAX_LIMIT)
  /\ (forall n, parseIntParam limit "10" = Some n -> n < 1 -> safeLimitOf limit = PER_PAGE)
  /\ (parseIntParam limit "10" = None -> safeLimitOf limit = PER_PAGE).
Proof.
  unfold safeLimitOf. change (string_of_Z PER_PAGE) with "10".
  unfold MAX_LIMIT, PER_PAGE.
  destruct (parseIntParam limit "10") as [n|].
  - destruct (Z.ltb_spec n 1); repeat split; try lia; try discriminate;
      intros m [= <-]; lia.
  - repeat split; try lia; discriminate.
Qed.

Section RouteFacts.
Context `{Network} `{EntityDecoder} `{Sanitizer} `{Dates} `{XmlParser}.

(** C9: with the offset the cursor comes to (the cursor itself when
    it is a non-negative integer, 0 otherwise) and the limit the limit
    comes to (10 when it is absent or below 1, at most 50), the
    response carries [hasMore = offset + episodes.length < total] and
    [nextCursor = offset + episodes.length] when [hasMore] holds, null
    otherwise. *)
Theorem episodesRoute_pagination query parsed :
  truthy (urlOf query) = true ->
  parseRssFeed (toString (urlOf query)) = inr parsed ->
  (exists cache body,
    episodesRoute query = Success cache body
    /\ body_episodes body = episodes (pageOf query parsed)
    /\ cursor (pagination body) = offsetOf query
    /\ limit (pagination body) = limitOf query
    /\ hasMore (pagination body)
       = (offsetOf query + Z.of_nat (List.length (body_episodes body))
          <? total (pageOf query parsed))
    /\ nextCursor (pagination body)
       = (if hasMore (pagination body)
          then Some (offsetOf query + Z.of_nat (List.length (body_episodes body)))
          else None))
  /\ 0 <= offsetOf query
  /\ 1 <= limitOf query <= MAX_LIMIT
  /\ (forall n, parseIntParam (getQueryParam (get query "cursor")) "0" = Some n ->
        0 <= n -> offsetOf query = n)
  /\ (forall n, parseIntParam (getQueryParam (get query "limit")) "10" = Some n ->
        1 <= n -> limitOf query = Z.min n MAX_LIMIT)
  /\ offsetOf (JObj []) = 0 /\ limitOf (JObj []) = PER_PAGE.
Proof.
  intros Hu Hp. split.
  - unfold episodesRoute. fold (urlOf query). rewrite Hu, Hp. cbn [negb].
    fold (offsetOf query) (limitOf query). fold (pageOf query parsed).
    eexists _, _. split; [reflexivity|]. cbn [body_episodes pagination cursor limit
                                                hasMore nextCursor].
    repeat split.
  - split; [apply safeCursorOf_spec|]. split; [apply safeLimitOf_spec|].
    split; [apply safeCursorOf_spec|]. split; [apply safeLimitOf_spec|].
    split; reflexivity.
Qed.

(** *** The refresh parameter *)




End RouteFacts.

Import World.

Lemma episodesRoute_pagination_witness :
  exists cache body,
    episodesRoute sample_query = Success cache body
    /\ pagination body = mkPagination 1 2 (Some 3) true
    /\ map title (body_episodes body) = [JStr "Two"; JStr "Three"].
Proof.
  destruct (episodesRoute_pagination sample_query feed) as ((cache & body & E & Ee & _) & _);
    [vm_compute; reflexivity | vm_compute; reflexivity |].
  exists cache, body. split; [exact E|].
  assert (B : Success cache body = episodesRoute sample_query) by now symmetry.
  vm_compute in B. injection B as -> ->. split; reflexivity.
Defined.


End RoutesFacts.

(** ** More facts about the guard *)
Module HostFacts.
Import Js Net Ssrf JsFacts SsrfFacts.










End HostFacts.

(** ** More facts about the fetcher *)
Module GuardFacts.
Import Js Net Ssrf Fetch Guard JsFacts SsrfFacts.

Section Walled.
Context `{B : Buffers} (N : Network).







(** X3: a response whose status is not 200, and that is no redirect
    (no [Location], or a status outside 300..399), makes the fetch fail
    with that status, whatever its body. *)
Theorem fetchRss_status url response :
  @exchange B N url = inr response ->
  statusCode response <> 200 ->
  (location response = None \/ location response = Some ""
   \/ statusCode response < 300 \/ 400 <= statusCode response) ->
  @fetchRss B N url = Some (inl (HttpStatus (statusCode response))).
Proof.
  intros E S R. unfold fetchRss. cbn [fetchRss_fuel]. unfold attempt. rewrite E.
  assert (G : (300 <=? statusCode response) && (statusCode response <? 400)
              && negb (String.eqb (match location response with Some l => l | None => "" end) "")
              = false).
  { destruct R as [R|[R|[R|R]]].
    - rewrite R. cbn. now rewrite andb_false_r.
    - rewrite R. cbn. now rewrite andb_false_r.
    - destruct (Z.leb_spec 300 (statusCode response)); [lia | reflexivity].
    - destruct (Z.ltb_spec (statusCode response) 400); [lia|]. now rewrite andb_false_r. }
  rewrite G. destruct (Z.eqb_spec (statusCode response) 200); [contradiction | reflexivity].
Qed.

End Walled.

Import World.

Lemma fetchRss_status_witness :
  fetchRss "http://feeds.example/nothing" = Some (inl (HttpStatus 404)).
Proof.
  apply (fetchRss_status network "http://feeds.example/nothing"
           (@mkResponse blobs 404 None None [])).
  - vm_compute. reflexivity.
  - discriminate.
  - left. reflexivity.
Defined.

End GuardFacts.

(** ** Facts about [escapeHtml] *)
Module EscapeFacts.
Import Js Re Text Shape JsFacts ReFacts.

Lemma one_consuming p : consuming (one p).
Proof.
  intros s x rest. unfold one. destruct s as [|c r]; [discriminate|].
  destruct (p c); [|discriminate]. intros [= <- <-]. cbn. lia.
Qed.

(** One pass of [escapeHtml]: [text.replace(/c/g, entity)]. *)
Lemma swap_cons c entity x r :
  replaceAll (one (is_char c)) (constant entity) (String x r)
  = (if Ascii.eqb x c then entity else String x "")
    ++ replaceAll (one (is_char c)) (constant entity) r.
Proof.
  destruct (Ascii.eqb x c) eqn:E.
  - rewrite (replaceAll_match _ (constant entity) (one_consuming _) (String x r) (String x "") r);
      [reflexivity|]. unfold one, is_char. now rewrite E.
  - rewrite replaceAll_skip; [reflexivity|]. unfold one, is_char. now rewrite E.
Qed.

Lemma swap_app c entity a b :
  replaceAll (one (is_char c)) (constant entity) (a ++ b)
  = replaceAll (one (is_char c)) (constant entity) a
    ++ replaceAll (one (is_char c)) (constant entity) b.
Proof.
  induction a as [|x a IH]; [reflexivity|].
  cbn [append]. now rewrite !swap_cons, IH, append_assoc.
Qed.

Lemma escapeHtml_cons c r : escapeHtml (String c r) = escaped c ++ escapeHtml r.
Proof.
  unfold escapeHtml. rewrite swap_cons, !swap_app. f_equal.
  unfold escaped.
  destruct (Ascii.eqb_spec c "&") as [->|N1]; [reflexivity|].
  destruct (Ascii.eqb_spec c "<") as [->|N2]; [reflexivity|].
  destruct (Ascii.eqb_spec c ">") as [->|N3]; [reflexivity|].
  destruct (Ascii.eqb_spec c DQ) as [->|N4]; [reflexivity|].
  destruct (Ascii.eqb_spec c SQ) as [->|N5]; [reflexivity|].
  rewrite !swap_cons.
  rewrite (proj2 (Ascii.eqb_neq _ _) N2). cbn [append]. rewrite swap_cons.
  rewrite (proj2 (Ascii.eqb_neq _ _) N3). cbn [append]. rewrite swap_cons.
  rewrite (proj2 (Ascii.eqb_neq _ _) N4). cbn [append]. rewrite swap_cons.
  rewrite (proj2 (Ascii.eqb_neq _ _) N5). reflexivity.
Qed.

Lemma escapeHtml_app a b : escapeHtml (a ++ b) = escapeHtml a ++ escapeHtml b.
Proof.
  induction a as [|c a IH]; [reflexivity|].
  cbn [append]. now rewrite !escapeHtml_cons, IH, append_assoc.
Qed.

Lemma escaped_plain c : all_chars (fun x => negb (is_markup x)) (escaped c) = true.
Proof.
  unfold escaped.
  destruct (Ascii.eqb_spec c "&") as [->|N1]; [reflexivity|].
  destruct (Ascii.eqb_spec c "<") as [->|N2]; [reflexivity|].
  destruct (Ascii.eqb_spec c ">") as [->|N3]; [reflexivity|].
  destruct (Ascii.eqb_spec c DQ) as [->|N4]; [reflexivity|].
  destruct (Ascii.eqb_spec c SQ) as [->|N5]; [reflexivity|].
  cbn [all_chars]. unfold is_markup.
  rewrite (proj2 (Ascii.eqb_neq _ _) N2), (proj2 (Ascii.eqb_neq _ _) N3),
          (proj2 (Ascii.eqb_neq _ _) N4), (proj2 (Ascii.eqb_neq _ _) N5). reflexivity.
Qed.

(** The five references are read back. *)
Lemma entity_at_escaped c s :
  entity_at (escaped c ++ s) = if is_markup c || Ascii.eqb c "&" then Some (c, s) else None.
Proof.
  unfold escaped, is_markup.
  destruct (Ascii.eqb_spec c "&") as [->|N1]; [reflexivity|].
  destruct (Ascii.eqb_spec c "<") as [->|N2]; [reflexivity|].
  destruct (Ascii.eqb_spec c ">") as [->|N3]; [reflexivity|].
  destruct (Ascii.eqb_spec c DQ) as [->|N4]; [reflexivity|].
  destruct (Ascii.eqb_spec c SQ) as [->|N5]; [reflexivity|].
  unfold entity_at. cbn [append first_of lit orb].
  now rewrite (proj2 (Ascii.eqb_neq _ _) N1).
Qed.

Lemma escaped_length c : (1 <= String.length (escaped c))%nat.
Proof.
  unfold escaped.
  repeat match goal with |- context [if ?b then _ else _] => destruct b end; cbn; lia.
Qed.

Lemma escaped_head c : exists tail, escaped c = String (if is_markup c || Ascii.eqb c "&" then "&"%char else c) tail
  /\ (is_markup c || Ascii.eqb c "&" = false -> tail = "").
Proof.
  unfold escaped, is_markup.
  destruct (Ascii.eqb_spec c "&") as [->|N1]; [eexists; split; [reflexivity | discriminate]|].
  destruct (Ascii.eqb_spec c "<") as [->|N2]; [eexists; split; [reflexivity | discriminate]|].
  destruct (Ascii.eqb_spec c ">") as [->|N3]; [eexists; split; [reflexivity | discriminate]|].
  destruct (Ascii.eqb_spec c DQ) as [->|N4]; [eexists; split; [reflexivity | discriminate]|].
  destruct (Ascii.eqb_spec c SQ) as [->|N5]; [eexists; split; [reflexivity | discriminate]|].
  exists "". split; reflexivity.
Qed.

Lemma decode_basic_fuel_escaped n : forall s,
  (String.length (escapeHtml s) <= n)%nat -> decode_basic_fuel n (escapeHtml s) = s.
Proof.
  induction n as [|n IH]; intros s L.
  - destruct s as [|c r]; [reflexivity|]. rewrite escapeHtml_cons, length_append in L.
    pose proof (escaped_length c). lia.
  - destruct s as [|c r]; [reflexivity|]. rewrite escapeHtml_cons in L |- *.
    rewrite length_append in L. pose proof (escaped_length c) as L1.
    cbn [decode_basic_fuel]. rewrite entity_at_escaped.
    destruct (is_markup c || Ascii.eqb c "&") eqn:M.
    + rewrite IH by lia. reflexivity.
    + destruct (escaped_head c) as (tail & E & T). rewrite M in E. rewrite (T M) in E.
      rewrite E in L |- *. cbn [append]. cbn [String.length Nat.add] in L. rewrite IH by lia. reflexivity.
Qed.

(** X13: [escapeHtml] works character by character: the escape of a
    text is the concatenation of the escapes of its characters, each of
    the five characters giving its reference and any other character
    itself; so the order of the five replacements doubles no escape. *)
Theorem escapeHtml_by_character :
  (forall a b, escapeHtml (a ++ b) = escapeHtml a ++ escapeHtml b)
  /\ (forall c, escapeHtml (String c "") = escaped c)
  /\ escapeHtml "" = "".
Proof.
  split; [exact escapeHtml_app|]. split; [|reflexivity].
  intros c. rewrite escapeHtml_cons. apply append_nil_r.
Qed.

(** X14: the text [escapeHtml] returns holds none of [<], [>] and the
    two quote characters. *)
Theorem escapeHtml_no_markup text :
  all_chars (fun c => negb (is_markup c)) (escapeHtml text) = true.
Proof.
  induction text as [|c r IH]; [reflexivity|].
  now rewrite escapeHtml_cons, all_chars_app, escaped_plain, IH.
Qed.

(** X15: no two texts are escaped alike. *)
Theorem escapeHtml_injective a b :
  String.eqb (escapeHtml a) (escapeHtml b) = String.eqb a b.
Proof.
  destruct (String.eqb_spec a b) as [->|N]; [apply String.eqb_refl|].
  apply String.eqb_neq. intros E. apply N.
  rewrite <- (decode_basic_fuel_escaped _ a (Nat.le_refl _)).
  rewrite <- (decode_basic_fuel_escaped _ b (Nat.le_refl _)).
  now rewrite E.
Qed.

End EscapeFacts.

(** ** Matchers, replacements and [trim] *)
Module ShapeFacts.
Import Js Re Text Shape JsFacts ReFacts.

(** *** Matchers that stay within a class *)

Lemma within_weaken (p q : ascii -> bool) m :
  (forall c, p c = true -> q c = true) -> within p m -> within q m.
Proof.
  intros Hpq W s x rest E. destruct (W _ _ _ E) as [-> A].
  split; [reflexivity | now apply (all_chars_weaken p q)].
Qed.

Lemma within_one p : within p (one p).
Proof.
  intros s x rest. unfold one. destruct s as [|c r]; [discriminate|].
  destruct (p c) eqn:E; [|discriminate]. intros [= <- <-]. cbn. now rewrite E.
Qed.

Lemma within_many p : within p (many p).
Proof. intros s x rest [= E]. now apply span_spec. Qed.

Lemma within_many1 p : within p (many1 p).
Proof.
  intros s x rest. unfold many1. destruct (span p s) as [a b] eqn:E.
  destruct a as [|c a]; [discriminate|]. intros [= <- <-]. now apply span_spec.
Qed.

Lemma within_andThen p m1 m2 : within p m1 -> within p m2 -> within p (andThen m1 m2).
Proof.
  intros W1 W2 s x rest. unfold andThen.
  destruct (m1 s) as [[a r]|] eqn:E1; [|discriminate].
  destruct (m2 r) as [[b r']|] eqn:E2; [|discriminate]. intros [= <- <-].
  destruct (W1 _ _ _ E1) as [-> A1]. destruct (W2 _ _ _ E2) as [-> A2].
  now rewrite append_assoc, all_chars_app, A1, A2.
Qed.

Lemma within_opt p m : within p m -> within p (opt m).
Proof.
  intros W s x rest. unfold opt. destruct (m s) as [[a r]|] eqn:E.
  - intros [= <- <-]. now apply W.
  - intros [= <- <-]. now split.
Qed.

Lemma within_crlf : within (fun c => Ascii.eqb c CR || Ascii.eqb c LF) crlf_at.
Proof.
  unfold crlf_at. cbn [seq]. apply within_andThen.
  - apply (within_weaken (is_char CR)); [|apply within_one].
    intros c E. unfold is_char in E. now rewrite E.
  - apply within_andThen; [|intros s x rest [= <- <-]; now split].
    apply within_opt. apply (within_weaken (is_char LF)); [|apply within_one].
    intros c E. unfold is_char in E. rewrite E. apply orb_true_r.
Qed.

Lemma within_blanks_nl :
  within (fun c => Ascii.eqb c " " || Ascii.eqb c TAB || Ascii.eqb c LF) blanks_nl_at.
Proof.
  unfold blanks_nl_at. cbn [seq]. apply within_andThen.
  - apply (within_weaken (fun c => Ascii.eqb c " " || Ascii.eqb c TAB)); [|apply within_many1].
    intros c E. now rewrite E.
  - apply within_andThen; [|intros s x rest [= <- <-]; now split].
    apply (within_weaken (is_char LF)); [|apply within_one].
    intros c E. unfold is_char in E. rewrite E. apply orb_true_r.
Qed.

Lemma within_nl3 : within (is_char LF) nl3_at.
Proof.
  intros s x rest. unfold nl3_at. destruct (span (is_char LF) s) as [a b] eqn:E.
  destruct a as [|c1 [|c2 [|c3 a]]]; try discriminate. intros [= <- <-].
  now apply span_spec.
Qed.

(** *** What a replacement keeps *)

Section Kept.
Variables (m : Matcher) (f : string -> string) (p q : ascii -> bool).
Hypothesis m_within : within p m.
Hypothesis f_class : forall x, all_chars q (f x) = true.

Lemma all_chars_replaceAll_fuel n : forall s,
  all_chars q s = true -> all_chars q (replaceAll_fuel n m f s) = true.
Proof.
  induction n as [|n IH]; intros s A; [exact A|]. cbn [replaceAll_fuel].
  destruct (m s) as [[x rest]|] eqn:E.
  - destruct (m_within _ _ _ E) as [-> _]. rewrite all_chars_app in A |- *.
    apply andb_true_iff in A as [_ A]. now rewrite f_class, IH.
  - destruct s as [|c r]; [reflexivity|]. cbn [all_chars] in A |- *.
    apply andb_true_iff in A as [A1 A2]. now rewrite A1, IH.
Qed.

Lemma all_chars_replaceAll s :
  all_chars q s = true -> all_chars q (replaceAll m f s) = true.
Proof. apply all_chars_replaceAll_fuel. Qed.

End Kept.

Lemma tag_free_plain a s : all_chars plain a = true -> tag_free (a ++ s) = tag_free s.
Proof.
  induction a as [|c a IH]; [reflexivity|]. cbn [all_chars append tag_free].
  intros E. apply andb_true_iff in E as [Ec Ea].
  unfold plain in Ec. apply andb_true_iff in Ec as [Ec _]. now rewrite Ec, IH.
Qed.

Lemma tag_free_suffix a s : tag_free (a ++ s) = true -> tag_free s = true.
Proof.
  induction a as [|c a IH]; [auto|]. cbn [append tag_free].
  intros E. apply andb_true_iff in E as [_ E]. auto.
Qed.

Lemma tag_free_prefix a s : tag_free (a ++ s) = true -> tag_free a = true.
Proof.
  induction a as [|c a IH]; [reflexivity|]. cbn [append tag_free].
  intros E. apply andb_true_iff in E as [E1 E2]. rewrite (IH E2), andb_true_r.
  destruct (Ascii.eqb c "<"); [|reflexivity]. cbn [negb orb] in E1 |- *.
  rewrite has_char_app in E1. now destruct (has_char ">" a).
Qed.

Lemma not_gt_plain c : plain c = true -> not_char ">" c = true.
Proof. unfold plain, not_char. intros E. now apply andb_true_iff in E. Qed.

Lemma no_gt_all s : has_char ">" s = false <-> all_chars (not_char ">") s = true.
Proof.
  induction s as [|c r IH]; cbn [has_char all_chars]; [tauto|]. unfold not_char at 1.
  destruct (Ascii.eqb c ">"); cbn [orb negb andb]; [split; discriminate | exact IH].
Qed.

Section KeptFree.
Variables (m : Matcher) (f : string -> string).
Hypothesis m_within : within plain m.
Hypothesis f_plain : forall x, all_chars plain (f x) = true.

Lemma tag_free_replaceAll_fuel n : forall s,
  tag_free s = true -> tag_free (replaceAll_fuel n m f s) = true.
Proof.
  induction n as [|n IH]; intros s A; [exact A|]. cbn [replaceAll_fuel].
  destruct (m s) as [[x rest]|] eqn:E.
  - destruct (m_within _ _ _ E) as [-> _]. rewrite tag_free_plain by apply f_plain.
    apply IH. now apply tag_free_suffix in A.
  - destruct s as [|c r]; [reflexivity|]. cbn [tag_free] in A |- *.
    apply andb_true_iff in A as [A1 A2]. rewrite (IH _ A2), andb_true_r.
    destruct (Ascii.eqb c "<"); [|reflexivity]. cbn [negb orb] in A1 |- *.
    apply negb_true_iff in A1. apply negb_true_iff. apply no_gt_all.
    apply (all_chars_replaceAll_fuel m f plain (not_char ">") m_within).
    + intros x. apply (all_chars_weaken plain); [exact not_gt_plain | apply f_plain].
    + now apply no_gt_all.
Qed.

End KeptFree.

(** *** White space and [trim] *)

Lemma ws_head_split s w r : ws_head s = Some (w, r) -> s = w ++ r /\ w <> "".
Proof.
  unfold ws_head. intros E.
  repeat match type of E with
         | context [match ?s with EmptyString => _ | String _ _ => _ end] =>
             is_var s; destruct s
         | context [if ?b then _ else _] => destruct b
         end; try discriminate; injection E as <- <-; split; (reflexivity || discriminate).
Qed.

Lemma ws_head_app s w r y : ws_head s = Some (w, r) -> ws_head (s ++ y) = Some (w, r ++ y).
Proof.
  unfold ws_head. intros E.
  repeat match type of E with
         | context [match ?s with EmptyString => _ | String _ _ => _ end] =>
             is_var s; destruct s; cbn [append]
         | context [if ?b then _ else _] => destruct b
         end; try discriminate; injection E as <- <-; reflexivity.
Qed.

Lemma ws_head_unit s w r : ws_head s = Some (w, r) -> ws_head w = Some (w, "").
Proof.
  unfold ws_head at 1. intros E.
  repeat match type of E with
         | context [match ?s with EmptyString => _ | String _ _ => _ end] =>
             is_var s; destruct s
         | context [if ?b then _ else _] => let B := fresh "B" in destruct b eqn:B
         end; try discriminate; injection E as <- <-; unfold ws_head;
    repeat match goal with B : _ = _ |- _ => rewrite B; clear B end; reflexivity.
Qed.

Lemma ws_head_blank w r : ws_head w = Some (w, "") -> ws_head (w ++ r) = Some (w, r).
Proof. intros E. apply (ws_head_app _ _ _ r) in E. exact E. Qed.

Lemma span_ws_fuel_spec n : forall s a b,
  (String.length s <= n)%nat -> span_ws_fuel n s = (a, b) ->
  s = a ++ b /\ blank a /\ ws_head b = None.
Proof.
  induction n as [|n IH]; intros s a b L.
  - destruct s; [|cbn in L; lia]. intros [= <- <-]. repeat split. constructor.
  - cbn [span_ws_fuel]. destruct (ws_head s) as [[w r]|] eqn:E.
    + destruct (span_ws_fuel n r) as [a' b'] eqn:R. intros [= <- <-].
      destruct (ws_head_split _ _ _ E) as [-> Nw].
      assert (Lr : (String.length r <= n)%nat).
      { rewrite length_append in L. destruct w; [congruence | cbn in L; lia]. }
      destruct (IH _ _ _ Lr R) as (-> & Ba & Hb).
      split; [now rewrite append_assoc|]. split; [|exact Hb].
      apply blank_cons; [|exact Ba]. now apply ws_head_unit in E.
    + intros [= <- <-]. repeat split; [constructor | exact E].
Qed.

Lemma span_ws_spec s a b :
  span_ws s = (a, b) -> s = a ++ b /\ blank a /\ ws_head b = None.
Proof. apply span_ws_fuel_spec. apply Nat.le_refl. Qed.

Lemma blank_app a b : blank a -> blank b -> blank (a ++ b).
Proof.
  intros Ba Bb. induction Ba as [|w r E Br IH]; [exact Bb|].
  rewrite append_assoc. now apply blank_cons.
Qed.

Lemma span_ws_fuel_blank a b : blank a -> ws_head b = None -> forall n,
  (String.length (a ++ b) <= n)%nat -> span_ws_fuel n (a ++ b) = (a, b).
Proof.
  intros Ba Hb. induction Ba as [|w r E Br IH]; intros n L.
  - destruct n as [|n]; [reflexivity|]. cbn [append span_ws_fuel]. now rewrite Hb.
  - rewrite append_assoc in L |- *. pose proof (ws_head_split _ _ _ E) as [_ Nw].
    rewrite length_append in L.
    destruct n as [|n]; [destruct w; [congruence | cbn in L; lia]|].
    cbn [span_ws_fuel]. rewrite (ws_head_blank _ _ E).
    rewrite IH; [reflexivity|]. destruct w; [congruence | cbn in L; lia].
Qed.

Lemma is_blank_iff s : is_blank s = true <-> blank s.
Proof.
  unfold is_blank, skip_ws. split.
  - destruct (span_ws s) as [a b] eqn:E. cbn [snd].
    destruct (span_ws_spec _ _ _ E) as (-> & Ba & _).
    destruct b; [|discriminate]. now rewrite append_nil_r.
  - intros B. unfold span_ws. rewrite <- (append_nil_r s) at 2.
    rewrite (span_ws_fuel_blank s "" B eq_refl); [reflexivity|].
    now rewrite append_nil_r.
Qed.

Lemma skip_ws_fixed s : ws_head s = None -> skip_ws s = s.
Proof.
  intros E. unfold skip_ws, span_ws. destruct s as [|c r]; [reflexivity|].
  cbn [String.length span_ws_fuel]. now rewrite E.
Qed.

Lemma skip_ws_split s : exists a, s = a ++ skip_ws s /\ blank a /\ ws_head (skip_ws s) = None.
Proof.
  unfold skip_ws. destruct (span_ws s) as [a b] eqn:E. cbn [snd].
  exists a. now apply span_ws_spec.
Qed.

Lemma trimEnd_split s : exists tail, s = trimEnd s ++ tail /\ blank tail.
Proof.
  induction s as [|c r (tail & E & B)]; [exists ""; split; [reflexivity | constructor]|].
  cbn [trimEnd]. destruct (is_blank (String c r)) eqn:K.
  - exists (String c r). split; [reflexivity | now apply is_blank_iff].
  - exists tail. cbn [append]. now rewrite <- E.
Qed.

Lemma trimEnd_idem s : trimEnd (trimEnd s) = trimEnd s.
Proof.
  induction s as [|c r IH]; [reflexivity|]. cbn [trimEnd].
  destruct (is_blank (String c r)) eqn:K; [reflexivity|]. cbn [trimEnd].
  destruct (is_blank (String c (trimEnd r))) eqn:K'; [|now rewrite IH].
  exfalso. apply is_blank_iff in K'. destruct (trimEnd_split r) as (tail & E & B).
  assert (X : blank (String c r)).
  { rewrite E. change (String c (trimEnd r ++ tail)) with (String c (trimEnd r) ++ tail).
    now apply blank_app. }
  apply is_blank_iff in X. congruence.
Qed.

Lemma ws_head_trimEnd s : ws_head s = None -> ws_head (trimEnd s) = None.
Proof.
  intros E. destruct (ws_head (trimEnd s)) as [[w r]|] eqn:T; [|reflexivity].
  destruct (trimEnd_split s) as (tail & Es & _).
  apply (ws_head_app _ _ _ tail) in T. rewrite <- Es in T. congruence.
Qed.

(** [trim] leaves nothing to trim. *)
Lemma trim_idem s : trim (trim s) = trim s.
Proof.
  unfold trim. destruct (skip_ws_split s) as (a & _ & _ & E).
  rewrite (skip_ws_fixed _ (ws_head_trimEnd _ E)). apply trimEnd_idem.
Qed.

(** [trim] cuts a piece out of its argument. *)
Lemma trim_substring s : exists a b, s = a ++ trim s ++ b.
Proof.
  unfold trim. destruct (skip_ws_split s) as (a & E & _).
  destruct (trimEnd_split (skip_ws s)) as (b & E' & _).
  exists a, b. now rewrite <- E', <- E.
Qed.

Lemma all_chars_trim p s : all_chars p s = true -> all_chars p (trim s) = true.
Proof.
  destruct (trim_substring s) as (a & b & E). intros A. rewrite E in A.
  rewrite !all_chars_app in A. apply andb_true_iff in A as [_ A].
  now apply andb_true_iff in A.
Qed.

Lemma tag_free_trim s : tag_free s = true -> tag_free (trim s) = true.
Proof.
  destruct (trim_substring s) as (a & b & E). intros A. rewrite E in A.
  apply tag_free_suffix in A. now apply tag_free_prefix in A.
Qed.

(** *** [toText] *)

Lemma span_stop p s a b :
  span p s = (a, b) -> match b with String c _ => p c = false | EmptyString => True end.
Proof.
  revert a b. induction s as [|c r IH]; intros a b; cbn [span].
  - now intros [= <- <-].
  - destruct (p c) eqn:Hc.
    + destruct (span p r) as [a' b'] eqn:E. intros [= <- <-]. now apply (IH a').
    + now intros [= <- <-].
Qed.

Lemma within_lit p ci l : (forall c, p c = true) -> within p (lit ci l).
Proof.
  intros Hp. induction l as [|a l IH]; intros s x rest; cbn [lit].
  - intros [= <- <-]. now split.
  - destruct s as [|c r]; [discriminate|].
    destruct (Ascii.eqb _ a); [|discriminate].
    destruct (lit ci l r) as [[y rest']|] eqn:E; [|discriminate]. intros [= <- <-].
    destruct (IH _ _ _ E) as [-> A]. cbn [append all_chars]. now rewrite Hp, A.
Qed.

Lemma within_any_tag : within (fun _ => true) any_tag_at.
Proof.
  unfold any_tag_at. cbn [seq].
  repeat apply within_andThen; try (apply within_lit; reflexivity).
  - apply (within_weaken (not_char ">")); [reflexivity | apply within_many].
  - intros s x rest [= <- <-]. now split.
Qed.

Lemma any_tag_none r : any_tag_at (String "<" r) = None -> has_char ">" r = false.
Proof.
  unfold any_tag_at. cbn [seq]. unfold andThen. cbn [lit Ascii.eqb Bool.eqb].
  unfold many. destruct (span (not_char ">") r) as [a b] eqn:E.
  destruct (span_spec _ _ _ _ E) as [-> A]. pose proof (span_stop _ _ _ _ E) as Hb.
  destruct b as [|c b].
  - intros _. rewrite append_nil_r. now apply no_gt_all.
  - unfold not_char in Hb. apply negb_false_iff in Hb. cbn [lit]. rewrite Hb.
    discriminate.
Qed.

Lemma nonempty_andThen m1 m2 : nonempty m1 -> nonempty (andThen m1 m2).
Proof.
  intros N s x rest. unfold andThen.
  destruct (m1 s) as [[a r]|] eqn:E1; [|discriminate].
  destruct (m2 r) as [[b r']|]; [|discriminate]. intros [= <- <-].
  apply N in E1. now destruct a.
Qed.

Lemma nonempty_one p : nonempty (one p).
Proof.
  intros s x rest. unfold one. destruct s as [|c r]; [discriminate|].
  destruct (p c); [|discriminate]. now intros [= <- <-].
Qed.

Lemma nonempty_lit ci a l : nonempty (lit ci (String a l)).
Proof.
  intros s x rest. cbn [lit]. destruct s as [|c r]; [discriminate|].
  destruct (Ascii.eqb _ a); [|discriminate].
  destruct (lit ci l r) as [[y rest']|]; [|discriminate]. now intros [= <- <-].
Qed.

Lemma shorter p m s x rest :
  within p m -> nonempty m -> m s = Some (x, rest) ->
  (String.length rest < String.length s)%nat.
Proof.
  intros W N E. destruct (W _ _ _ E) as [-> _]. apply N in E.
  rewrite length_append. destruct x; [congruence | cbn; lia].
Qed.

Lemma any_tag_gone n : forall s,
  tag_free (replaceAll_fuel n any_tag_at (fun _ => "") s) = true
  \/ (n < String.length s)%nat.
Proof.
  induction n as [|n IH]; intros s.
  - destruct s; [now left | right; cbn; lia].
  - cbn [replaceAll_fuel]. destruct (any_tag_at s) as [[x rest]|] eqn:E.
    + assert (S := shorter _ _ _ _ _ within_any_tag (nonempty_andThen _ _ (nonempty_lit _ _ _)) E).
      destruct (IH rest) as [T|L]; [now left | right; lia].
    + destruct s as [|c r]; [now left|].
      destruct (IH r) as [T|L]; [left | right; cbn; lia].
      cbn [tag_free]. rewrite T, andb_true_r.
      destruct (Ascii.eqb_spec c "<") as [->|_]; [|reflexivity]. cbn [negb orb].
      apply negb_true_iff, no_gt_all.
      apply (all_chars_replaceAll_fuel _ _ _ _ within_any_tag); [reflexivity|].
      apply no_gt_all. now apply any_tag_none.
Qed.

Lemma crlf_gone n : forall s,
  all_chars (not_char CR) (replaceAll_fuel n crlf_at (fun _ => String LF "") s) = true
  \/ (n < String.length s)%nat.
Proof.
  induction n as [|n IH]; intros s.
  - destruct s; [now left | right; cbn; lia].
  - cbn [replaceAll_fuel]. destruct (crlf_at s) as [[x rest]|] eqn:E.
    + assert (S := shorter _ _ _ _ _ within_crlf (nonempty_andThen _ _ (nonempty_one _)) E).
      destruct (IH rest) as [T|L]; [left | right; lia].
      cbn [append all_chars]. now rewrite T.
    + destruct s as [|c r]; [now left|].
      destruct (IH r) as [T|L]; [left | right; cbn; lia].
      cbn [all_chars]. rewrite T, andb_true_r. unfold not_char.
      destruct (Ascii.eqb_spec c CR) as [->|_]; [|reflexivity].
      exfalso. revert E. unfold crlf_at. cbn [seq]. unfold andThen, one, opt, is_char.
      cbn [Ascii.eqb Bool.eqb CR].
      destruct r as [|c' r]; [discriminate|]. destruct (Ascii.eqb c' LF); discriminate.
Qed.

End ShapeFacts.

(** ** Facts about [cleanEmptyHtml] *)
Module CleanFacts.
Import Js Re Text Shape JsFacts ReFacts ShapeFacts.

(** *** Soundness of the remaining combinators *)

Lemma within_any_lit ci l : within any (lit ci l).
Proof. now apply within_lit. Qed.

Lemma within_any p m : within p m -> within any m.
Proof. apply within_weaken. reflexivity. Qed.

Lemma within_first_of p ms : Forall (within p) ms -> within p (first_of ms).
Proof.
  induction 1 as [|m ms W _ IH]; intros s x rest; cbn [first_of]; [discriminate|].
  destruct (m s) as [[a r]|] eqn:E; [intros [= <- <-]; now apply W | apply IH].
Qed.

Lemma within_done p : within p (seq []).
Proof. intros s x rest [= <- <-]. now split. Qed.

Lemma within_seq p ms : Forall (within p) ms -> within p (seq ms).
Proof.
  induction 1 as [|m ms W _ IH]; cbn [seq]; [apply within_done|].
  now apply within_andThen.
Qed.

Lemma blank_any a : all_chars any a = true.
Proof. induction a; cbn; auto. Qed.

Lemma within_ws : within any ws.
Proof.
  intros s x rest [= E]. destruct (span_ws_spec _ _ _ E) as (-> & _ & _).
  split; [reflexivity | apply blank_any].
Qed.

Lemma within_ws_head : within any ws_head.
Proof.
  intros s x rest E. destruct (ws_head_split _ _ _ E) as [-> _].
  split; [reflexivity | apply blank_any].
Qed.

Lemma within_word_end : within any word_end.
Proof.
  intros s x rest. unfold word_end. destruct s as [|c r].
  - intros [= <- <-]. now split.
  - destruct (is_word c); [discriminate|]. intros [= <- <-]. now split.
Qed.

Lemma within_star_fuel m n : within any m -> forall s a b,
  star_fuel n m s = (a, b) -> s = a ++ b.
Proof.
  intros W. induction n as [|n IH]; intros s a b; cbn [star_fuel].
  - now intros [= <- <-].
  - destruct (m s) as [[x rest]|] eqn:E; [|now intros [= <- <-]].
    destruct (Nat.ltb _ _); [|now intros [= <- <-]].
    destruct (star_fuel n m rest) as [a' b'] eqn:R. intros [= <- <-].
    destruct (W _ _ _ E) as [-> _]. rewrite (IH _ _ _ R). now rewrite append_assoc.
Qed.

Lemma within_star m : within any m -> within any (star m).
Proof.
  intros W s x rest [= E].
  split; [exact (within_star_fuel m _ W _ _ _ E) | apply blank_any].
Qed.

Lemma within_any_many q : within any (many q).
Proof. apply (within_any q), within_many. Qed.

Lemma within_any_many1 q : within any (many1 q).
Proof. apply (within_any q), within_many1. Qed.

Lemma within_any_one q : within any (one q).
Proof. apply (within_any q), within_one. Qed.

Ltac sound :=
  repeat first
    [ apply Forall_nil | apply Forall_cons
    | apply within_any_lit | apply within_ws | apply within_ws_head
    | apply within_word_end | apply within_any_many | apply within_any_many1
    | apply within_any_one | apply within_opt | apply within_star
    | apply within_seq | apply within_first_of | apply within_done
    | apply within_andThen ].

Lemma within_br_tag : within any br_tag_at.
Proof. unfold br_tag_at. sound. Qed.

Lemma within_filler : within any filler_at.
Proof. unfold filler_at. sound. Qed.

Lemma within_empty_element : within any empty_element_at.
Proof.
  unfold empty_element_at. cbn [map empty_names]. sound.
Qed.

Lemma nonempty_first_of ms : Forall nonempty ms -> nonempty (first_of ms).
Proof.
  induction 1 as [|m ms N _ IH]; intros s x rest; cbn [first_of]; [discriminate|].
  destruct (m s) as [[a r]|] eqn:E; [intros [= <- <-]; now apply N in E | apply IH].
Qed.

Lemma nonempty_empty_element : nonempty empty_element_at.
Proof.
  unfold empty_element_at. apply nonempty_first_of. cbn [map empty_names].
  repeat constructor; cbn [seq]; apply nonempty_andThen, nonempty_lit.
Qed.

(** *** Deleting the matches of an expression *)

Section Deleting.
Variable m : Matcher.
Hypothesis m_within : within any m.
Hypothesis m_nonempty : nonempty m.

Lemma delete_fuel_length n : forall s,
  (String.length (replaceAll_fuel n m (constant "") s) <= String.length s)%nat.
Proof.
  induction n as [|n IH]; intros s; [apply Nat.le_refl|]. cbn [replaceAll_fuel].
  destruct (m s) as [[x rest]|] eqn:E.
  - destruct (m_within _ _ _ E) as [-> _]. change (constant "" x) with "". cbn [append].
    rewrite length_append. specialize (IH rest). lia.
  - destruct s as [|c r]; [apply Nat.le_refl|]. cbn [String.length]. specialize (IH r). lia.
Qed.

Lemma delete_fuel_same n : forall s,
  replaceAll_fuel n m (constant "") s = s
  \/ (String.length (replaceAll_fuel n m (constant "") s) < String.length s)%nat.
Proof.
  induction n as [|n IH]; intros s; [now left|]. cbn [replaceAll_fuel].
  destruct (m s) as [[x rest]|] eqn:E.
  - right. pose proof (shorter _ _ _ _ _ m_within m_nonempty E) as S.
    change (constant "" x) with "". cbn [append].
    pose proof (delete_fuel_length n rest). lia.
  - destruct s as [|c r]; [now left|].
    destruct (IH r) as [-> | L]; [now left | right; cbn [String.length]; lia].
Qed.

(** A text that a deletion leaves as it is holds no match. *)
Lemma delete_fixed_none a : forall b,
  replaceAll m (constant "") (a ++ b) = a ++ b -> m b = None.
Proof.
  induction a as [|c a IH]; intros b F.
  - cbn [append] in F. destruct (m b) as [[x rest]|] eqn:E; [|reflexivity]. exfalso.
    pose proof (shorter _ _ _ _ _ m_within m_nonempty E) as S.
    unfold replaceAll in F. destruct b as [|c r]; [cbn in S; lia|].
    cbn [String.length replaceAll_fuel] in F. rewrite E in F.
    change (constant "" x) with "" in F.
    cbn [append] in F. pose proof (delete_fuel_length (String.length r) rest) as L.
    rewrite F in L. lia.
  - cbn [append] in F. unfold replaceAll in F. cbn [String.length replaceAll_fuel] in F.
    destruct (m (String c (a ++ b))) as [[x rest]|] eqn:E.
    + exfalso. pose proof (shorter _ _ _ _ _ m_within m_nonempty E) as S.
      change (constant "" x) with "" in F. cbn [append] in F.
      pose proof (delete_fuel_length (String.length (a ++ b)) rest) as L.
      rewrite F in L. lia.
    + injection F as F. now apply IH.
Qed.

End Deleting.

(** *** The loop of [cleanEmptyHtml] *)

Lemma stripEmpty_fixed fuel : forall output,
  (String.length output < fuel)%nat ->
  replaceAll empty_element_at (constant "") (stripEmpty fuel output)
  = stripEmpty fuel output.
Proof.
  induction fuel as [|fuel IH]; intros output L; [lia|]. cbn [stripEmpty].
  destruct (String.eqb_spec (replaceAll empty_element_at (constant "") output) output)
    as [E|N]; [exact E|].
  apply IH.
  destruct (delete_fuel_same _ within_empty_element nonempty_empty_element
              (String.length output) output) as [S|S]; [contradiction|].
  fold (replaceAll empty_element_at (constant "") output) in S. lia.
Qed.

Lemma stripEmpty_length fuel : forall output,
  (String.length (stripEmpty fuel output) <= String.length output)%nat.
Proof.
  induction fuel as [|fuel IH]; intros output; [apply Nat.le_refl|].
  cbn [stripEmpty]. destruct (String.eqb _ output); [apply Nat.le_refl|].
  etransitivity; [apply IH|].
  apply (delete_fuel_length _ within_empty_element).
Qed.

Lemma stripEmpty_fuel_any n : forall k output,
  (String.length output < n)%nat -> (String.length output < k)%nat ->
  stripEmpty n output = stripEmpty k output.
Proof.
  induction n as [|n IH]; intros k output Ln Lk; [lia|].
  destruct k as [|k]; [lia|]. cbn [stripEmpty].
  destruct (String.eqb_spec (replaceAll empty_element_at (constant "") output) output)
    as [E|N]; [reflexivity|].
  destruct (delete_fuel_same _ within_empty_element nonempty_empty_element
              (String.length output) output) as [S|S]; [contradiction|].
  fold (replaceAll empty_element_at (constant "") output) in S. apply IH; lia.
Qed.

(** X21: the loop of [cleanEmptyHtml] ends: after at most as many
    rounds as the text has characters, plus one, a round changes
    nothing, and more rounds give the same text; that text is no longer
    than the input, and nowhere in it does an element that holds only
    white space, [&nbsp;] and line breaks start. *)
Theorem cleanEmptyHtml_loop_ends html :
  let output := stripEmpty (S (String.length html)) html in
  replaceAll empty_element_at (constant "") output = output
  /\ (forall rounds, (String.length html < rounds)%nat -> stripEmpty rounds html = output)
  /\ (String.length output <= String.length html)%nat
  /\ (forall before rest, output = before ++ rest -> empty_element_at rest = None)
  /\ cleanEmptyHtml html
     = if String.eqb html "" then ""
       else trim (replaceAll br_run_at (constant "<br />") output).
Proof.
  intros output.
  assert (F : replaceAll empty_element_at (constant "") output = output).
  { apply stripEmpty_fixed. lia. }
  split; [exact F|]. split; [|split; [|split]].
  - intros rounds L. apply stripEmpty_fuel_any; lia.
  - apply stripEmpty_length.
  - intros before rest E. rewrite E in F.
    now apply (delete_fixed_none _ within_empty_element nonempty_empty_element before).
  - reflexivity.
Qed.

End CleanFacts.

(** ** Facts about [convertHtmlToPlainText] *)
Module LineFacts.
Import Js Re Text Shape JsFacts ReFacts ShapeFacts CleanFacts.

Lemma convertHtmlToPlainText_steps text :
  convertHtmlToPlainText text = trim (fold_left convert conversions text).
Proof. reflexivity. Qed.

(** *** Where nothing matches *)

Lemma replaceAll_never (P : string -> Prop) m f :
  (forall c r, P (String c r) -> P r) -> (forall s, P s -> m s = None) ->
  forall s, P s -> replaceAll m f s = s.
Proof.
  intros Pr Pm. induction s as [|c r IH]; intros Ps.
  - unfold replaceAll. cbn. reflexivity.
  - rewrite replaceAll_skip by now apply Pm. f_equal. apply IH. now apply Pr in Ps.
Qed.

Lemma replaceAll_headed p m f s :
  headed p m -> all_chars (fun c => negb (p c)) s = true -> replaceAll m f s = s.
Proof.
  intros [H0 H1].
  apply (replaceAll_never (fun s => all_chars (fun c => negb (p c)) s = true)).
  - intros c r E. cbn [all_chars] in E. now apply andb_true_iff in E.
  - intros [|c r] E; [exact H0|]. apply H1. cbn [all_chars] in E.
    apply andb_true_iff in E as [E _]. now apply negb_true_iff.
Qed.

(** A replacement starts after a prefix in which nothing can match. *)
Lemma replaceAll_after p m f a : forall s,
  headed p m -> all_chars (fun c => negb (p c)) a = true ->
  replaceAll m f (a ++ s) = a ++ replaceAll m f s.
Proof.
  intros s [H0 H1]. induction a as [|c a IH]; intros A; [reflexivity|].
  cbn [all_chars] in A. apply andb_true_iff in A as [Ac Aa]. apply negb_true_iff in Ac.
  cbn [append]. rewrite replaceAll_skip by now apply H1. now rewrite IH.
Qed.

Lemma lower_char_lt c : Ascii.eqb (lower_char c) "<" = Ascii.eqb c "<".
Proof.
  destruct c as [b0 b1 b2 b3 b4 b5 b6 b7].
  destruct b0, b1, b2, b3, b4, b5, b6, b7; reflexivity.
Qed.

Lemma headed_lit ci l : headed opens (lit ci (String "<" l)).
Proof.
  split; [reflexivity|]. intros c r E. cbn [lit]. unfold opens in E.
  destruct ci; [rewrite lower_char_lt|]; now rewrite E.
Qed.

Lemma headed_andThen p m1 m2 : headed p m1 -> headed p (andThen m1 m2).
Proof.
  intros [H0 H1]. split; unfold andThen; [now rewrite H0|].
  intros c r E. now rewrite (H1 _ _ E).
Qed.

Lemma headed_weaken (p q : ascii -> bool) m :
  (forall c, q c = false -> p c = false) -> headed p m -> headed q m.
Proof. intros Hpq [H0 H1]. split; [exact H0|]. intros c r E. apply H1. now apply Hpq. Qed.

Lemma headed_crlf : headed (fun c => Ascii.eqb c CR) crlf_at.
Proof.
  split; [reflexivity|]. intros c r E. unfold crlf_at. cbn [seq]. unfold andThen, one, is_char.
  now rewrite E.
Qed.

Lemma headed_nl3 : headed (fun c => Ascii.eqb c LF) nl3_at.
Proof.
  split; [reflexivity|]. intros c r E. unfold nl3_at. cbn [span]. unfold is_char.
  now rewrite E.
Qed.

Lemma inert_rest c : inert c = true <-> active c = false.
Proof. unfold active. destruct (inert c); cbn; split; congruence. Qed.

Lemma headed_conversions :
  Forall (fun step => headed active (fst step)) conversions.
Proof.
  assert (L : forall m, headed opens m -> headed active m).
  { intros m. apply headed_weaken. intros c E. unfold active, inert in E. unfold opens.
    destruct (Ascii.eqb c "<"); [discriminate | reflexivity]. }
  unfold conversions.
  repeat (apply Forall_cons; [cbn [fst]|]); try apply Forall_nil.
  all: try (apply L; first [apply headed_lit | apply headed_andThen, headed_lit]).
  - apply (headed_weaken (fun c => Ascii.eqb c CR)); [|exact headed_crlf].
    unfold active, inert. intros c E. destruct (Ascii.eqb c CR); [|reflexivity].
    now rewrite andb_false_r in E.
  - apply (headed_weaken (fun c => Ascii.eqb c LF)); [|exact headed_nl3].
    unfold active, inert. intros c E. destruct (Ascii.eqb c LF); [|reflexivity].
    now rewrite andb_false_r in E.
Qed.

Lemma all_inert s :
  all_chars inert s = true -> all_chars (fun c => negb (active c)) s = true.
Proof.
  apply all_chars_weaken. intros c E. unfold active. now rewrite E.
Qed.

Lemma fold_inert steps : forall s,
  Forall (fun step => headed active (fst step)) steps ->
  all_chars inert s = true -> fold_left convert steps s = s.
Proof.
  induction steps as [|step steps IH]; intros s F A; [reflexivity|].
  apply Forall_cons_iff in F as [Hs F]. cbn [fold_left]. unfold convert at 2.
  rewrite (replaceAll_headed _ _ _ _ Hs (all_inert _ A)). now apply IH.
Qed.

Lemma inert_no_lt s :
  all_chars inert s = true -> all_chars (fun c => negb (opens c)) s = true.
Proof.
  apply all_chars_weaken. intros c E. unfold inert in E. unfold opens.
  now destruct (Ascii.eqb c "<").
Qed.

Lemma within_open_tag name : within any (open_tag name).
Proof. unfold open_tag. sound. Qed.

Lemma consuming_open_tag name : consuming (open_tag name).
Proof.
  intros s x rest E.
  apply (shorter any (open_tag name) s x rest); [apply within_open_tag| |exact E].
  unfold open_tag. cbn [seq append]. apply nonempty_andThen, nonempty_lit.
Qed.

Lemma headed_open_tag name : headed opens (open_tag name).
Proof. unfold open_tag. cbn [seq append]. apply headed_andThen, headed_lit. Qed.

Lemma open_tag_b l name rest :
  lower_char l = "b"%char -> all_chars (not_char ">") name = true ->
  open_tag "b" (String "<" (String l (name ++ ">" ++ rest)))
  = Some (String "<" (String l (name ++ ">")), rest).
Proof.
  intros El An. unfold open_tag. cbn [seq append].
  assert (E1 : lit true "<b" (String "<" (String l (name ++ String ">" rest)))
               = Some (String "<" (String l ""), name ++ String ">" rest)).
  { cbn [lit]. rewrite El. reflexivity. }
  assert (E2 : many (not_char ">") (name ++ String ">" rest) = Some (name, String ">" rest)).
  { unfold many. now rewrite (span_app_stop (not_char ">") name (String ">" rest) An eq_refl). }
  unfold andThen at 1. rewrite E1. unfold andThen at 1. rewrite E2.
  cbn. try rewrite append_nil_r. reflexivity.
Qed.

(** X18: in [convertHtmlToPlainText] an opening tag whose name starts
    with the letter b (br, blockquote, body, button, ...) is read as a
    bold opener: between two plain lines it becomes the token
    [__STRONG_OPEN__], so that [<br>] gives no line break and
    [<blockquote>] no quote. *)
Theorem convertHtmlToPlainText_bold_opener before letter name after :
  all_chars inert before = true -> all_chars inert after = true ->
  all_chars (fun c => inert c && not_char ">" c) name = true ->
  lower_char letter = "b"%char ->
  convertHtmlToPlainText (before ++ "<" ++ String letter name ++ ">" ++ after)
  = trim (before ++ "__STRONG_OPEN__" ++ after).
Proof.
  revert before letter name after.
  intros a l name b Aa Ab An El. rewrite convertHtmlToPlainText_steps. f_equal.
  assert (Al : inert l = true).
  { destruct l as [b0 b1 b2 b3 b4 b5 b6 b7].
    destruct b0, b1, b2, b3, b4, b5, b6, b7; try discriminate El; reflexivity. }
  assert (An1 : all_chars inert name = true).
  { revert An. apply all_chars_weaken. intros c E. now apply andb_true_iff in E. }
  assert (An2 : all_chars (not_char ">") name = true).
  { revert An. apply all_chars_weaken. intros c E. now apply andb_true_iff in E. }
  set (tail := String l (name ++ ">" ++ b)).
  assert (At : all_chars (fun c => negb (opens c)) tail = true).
  { apply inert_no_lt. subst tail. cbn [all_chars]. rewrite Al.
    rewrite !all_chars_app, An1, Ab. reflexivity. }
  assert (Step : forall m f, headed opens m -> m (String "<" tail) = None ->
            replaceAll m f (a ++ String "<" tail) = a ++ String "<" tail).
  { intros m f Hm Em. rewrite (replaceAll_after opens _ _ _ _ Hm (inert_no_lt _ Aa)).
    rewrite replaceAll_skip by exact Em. now rewrite (replaceAll_headed opens _ _ _ Hm At). }
  change (a ++ "<" ++ String l name ++ ">" ++ b) with (a ++ String "<" (String l name ++ ">" ++ b)).
  change (String l name ++ ">" ++ b) with tail.
  unfold conversions.
  match goal with
  | |- context [fold_left convert (_ :: _ :: _ :: ?rest) _] => set (others := rest)
  end.
  cbn [fold_left]. unfold convert at 4. cbn [fst snd].
  rewrite Step.
  2: { apply headed_open_tag. }
  2: { unfold open_tag, tail. cbn [seq append]. unfold andThen. cbn [lit]. rewrite El.
       reflexivity. }
  unfold convert at 3. cbn [fst snd]. rewrite Step.
  2: { unfold close_tag. cbn [append]. apply headed_lit. }
  2: { unfold close_tag, tail. cbn [append lit]. rewrite El. reflexivity. }
  unfold convert at 2. cbn [fst snd].
  rewrite (replaceAll_after opens _ _ _ _ (headed_open_tag "b") (inert_no_lt _ Aa)).
  rewrite (replaceAll_match _ _ (consuming_open_tag "b") (String "<" tail)
             (String "<" (String l name ++ ">")) b).
  2: { unfold tail. now apply open_tag_b. }
  rewrite (replaceAll_headed opens _ _ b (headed_open_tag "b") (inert_no_lt _ Ab)).
  change (constant "__STRONG_OPEN__" (String "<" (String l name ++ ">")))
    with "__STRONG_OPEN__".
  apply fold_inert.
  + pose proof headed_conversions as F. unfold conversions in F.
    do 3 apply Forall_cons_iff in F as [_ F]. exact F.
  + rewrite !all_chars_app, Aa, Ab. reflexivity.
Qed.

Import World.

Lemma convertHtmlToPlainText_bold_opener_witness :
  convertHtmlToPlainText "one<br />two" = "one__STRONG_OPEN__two"
  /\ convertHtmlToPlainText "<Blockquote>said" = "__STRONG_OPEN__said".
Proof.
  split.
  - apply (convertHtmlToPlainText_bold_opener "one" "b" "r /" "two"); reflexivity.
  - apply (convertHtmlToPlainText_bold_opener "" "B" "lockquote" "said"); reflexivity.
Defined.

End LineFacts.

(** ** Facts about [toText] and [addReadableSpacing] *)
Module RunFacts.
Import Js Re Text Shape JsFacts ReFacts ShapeFacts CleanFacts LineFacts.

Lemma nl3_none s : no_lf_head s = true -> nl3_at s = None.
Proof.
  destruct s as [|c r]; [reflexivity|]. cbn [no_lf_head]. intros E.
  apply negb_true_iff in E. unfold nl3_at. cbn [span]. unfold is_char. now rewrite E.
Qed.

Lemma nl3_head n f s :
  no_lf_head s = true -> no_lf_head (replaceAll_fuel n nl3_at f s) = true.
Proof.
  intros E. destruct n as [|n]; [exact E|]. cbn [replaceAll_fuel].
  rewrite (nl3_none _ E). destruct s as [|c r]; [reflexivity | exact E].
Qed.

Lemma prefix_lf p s : no_lf_head s = true -> String.prefix (String LF p) s = false.
Proof.
  destruct s as [|c r]; [reflexivity|]. cbn [no_lf_head]. intros E.
  apply negb_true_iff in E. cbn [String.prefix].
  destruct (ascii_dec LF c) as [<-|]; [discriminate | reflexivity].
Qed.

Lemma prefix_skip p s : String.prefix (String LF p) (String LF s) = String.prefix p s.
Proof. cbn [String.prefix]. destruct (ascii_dec LF LF); [reflexivity | contradiction]. Qed.

Lemma prefix3_head s : no_lf_head s = true -> String.prefix three_lines s = false.
Proof. apply prefix_lf. Qed.

Lemma prefix3_head1 s :
  no_lf_head s = true -> String.prefix three_lines (String LF s) = false.
Proof. intros E. unfold three_lines. rewrite prefix_skip. now apply prefix_lf. Qed.

Lemma prefix3_head2 s :
  no_lf_head s = true -> String.prefix three_lines (String LF (String LF s)) = false.
Proof. intros E. unfold three_lines. rewrite !prefix_skip. now apply prefix_lf. Qed.

Lemma span_lf_head s a b : span (is_char LF) s = (a, b) -> no_lf_head b = true.
Proof.
  intros E. pose proof (span_stop _ _ _ _ E) as S. destruct b as [|c b]; [reflexivity|].
  cbn [no_lf_head]. unfold is_char in S. now rewrite S.
Qed.

Lemma nl3_gone n : forall s,
  (String.length s <= n)%nat -> no_run3 (replaceAll_fuel n nl3_at two s) = true.
Proof.
  induction n as [|n IH]; intros s L.
  - destruct s; [reflexivity | cbn in L; lia].
  - cbn [replaceAll_fuel]. destruct (nl3_at s) as [[x rest]|] eqn:E.
    + unfold nl3_at in E. destruct (span (is_char LF) s) as [a b] eqn:Sp.
      destruct a as [|c1 [|c2 [|c3 a]]]; try discriminate. injection E as <- <-.
      destruct (span_spec _ _ _ _ Sp) as [-> _].
      pose proof (span_lf_head _ _ _ Sp) as Hb.
      assert (Lb : (String.length b <= n)%nat).
      { rewrite length_append in L. cbn [String.length] in L. lia. }
      change (two (String c1 (String c2 (String c3 a)))) with (String LF (String LF "")).
      cbn [append no_run3].
      rewrite (prefix3_head2 _ (nl3_head n two b Hb)).
      rewrite (prefix3_head1 _ (nl3_head n two b Hb)).
      now rewrite (IH b Lb).
    + destruct s as [|c r]; [reflexivity|]. cbn [String.length] in L.
      cbn [no_run3]. rewrite (IH r) by lia. rewrite andb_true_r. apply negb_true_iff.
      destruct (Ascii.eqb_spec c LF) as [->|N].
      2: { apply prefix3_head. cbn [no_lf_head]. now apply negb_true_iff, Ascii.eqb_neq. }
      unfold nl3_at in E. cbn [span] in E. unfold is_char at 1 in E.
      rewrite Ascii.eqb_refl in E.
      destruct (span (is_char LF) r) as [a b] eqn:Sp.
      pose proof (span_lf_head _ _ _ Sp) as Hb.
      destruct (span_spec _ _ _ _ Sp) as [-> Aa].
      destruct a as [|c2 a].
      * cbn [append]. apply prefix3_head1. now apply nl3_head.
      * destruct a as [|c3 a]; [|discriminate].
        cbn [all_chars] in Aa. apply andb_true_iff in Aa as [A2 _].
        unfold is_char in A2. apply Ascii.eqb_eq in A2. subst c2. cbn [append].
        destruct n as [|n]; [cbn in L; lia|]. cbn [replaceAll_fuel].
        assert (E2 : nl3_at (String LF b) = None).
        { unfold nl3_at. cbn [span]. unfold is_char at 1. rewrite Ascii.eqb_refl.
          destruct (span (is_char LF) b) as [a' b'] eqn:Sb.
          destruct b as [|d b]; [cbn in Sb; now injection Sb as <- <-|].
          cbn [no_lf_head] in Hb. apply negb_true_iff in Hb. cbn [span] in Sb.
          unfold is_char at 1 in Sb. rewrite Hb in Sb. now injection Sb as <- <-. }
        rewrite E2. apply prefix3_head2. now apply nl3_head.
Qed.

Lemma prefix_app_keep p a b : String.prefix p a = true -> String.prefix p (a ++ b) = true.
Proof.
  revert a. induction p as [|x p IH]; intros a; [now destruct (a ++ b)|].
  destruct a as [|c a]; cbn [String.prefix append]; [discriminate|].
  destruct (ascii_dec x c); [apply IH | discriminate].
Qed.

Lemma no_run3_suffix a b : no_run3 (a ++ b) = true -> no_run3 b = true.
Proof.
  induction a as [|c a IH]; [auto|]. cbn [append no_run3]. intros E.
  apply andb_true_iff in E as [_ E]. auto.
Qed.

Lemma no_run3_prefix a b : no_run3 (a ++ b) = true -> no_run3 a = true.
Proof.
  induction a as [|c a IH]; [reflexivity|]. cbn [append no_run3]. intros E.
  apply andb_true_iff in E as [E1 E2]. rewrite (IH E2), andb_true_r.
  apply negb_true_iff in E1. apply negb_true_iff.
  destruct (String.prefix three_lines (String c a)) eqn:P; [|reflexivity].
  apply (prefix_app_keep _ _ b) in P. cbn [append] in P. congruence.
Qed.

Lemma no_run3_trim s : no_run3 s = true -> no_run3 (trim s) = true.
Proof.
  destruct (trim_substring s) as (a & b & E). intros A. rewrite E in A.
  apply no_run3_suffix in A. now apply no_run3_prefix in A.
Qed.

(** *** [addReadableSpacing] *)

Lemma cjk_at_lead c r : (code c <? 224) = true -> cjk_at (String c r) = None.
Proof.
  intros E. unfold cjk_at. destruct r as [|b [|d r]]; try reflexivity.
  apply Z.ltb_lt in E. destruct (Z.leb_spec 224 (code c)); [lia | reflexivity].
Qed.

(** X23: [addReadableSpacing] returns a text of ASCII characters as
    it is. *)
Theorem addReadableSpacing_ascii text :
  all_chars is_ascii text = true -> addReadableSpacing text = text.
Proof.
  intros A. unfold addReadableSpacing.
  assert (Keep : forall c r, all_chars is_ascii (String c r) = true ->
                             all_chars is_ascii r = true).
  { intros c r E. cbn [all_chars] in E. now apply andb_true_iff in E. }
  assert (Lead : forall c r, all_chars is_ascii (String c r) = true ->
                             cjk_at (String c r) = None).
  { intros c r E. apply cjk_at_lead. cbn [all_chars] in E. apply andb_true_iff in E as [E _].
    unfold is_ascii in E. apply Z.ltb_lt in E. apply Z.ltb_lt. lia. }
  rewrite (replaceAll_never (fun s => all_chars is_ascii s = true)
             (andThen cjk_at (one is_alnum)) (spaced 3) Keep); [|intros s E|exact A].
  2: { unfold andThen. destruct s as [|c r]; [reflexivity|]. now rewrite (Lead _ _ E). }
  apply (replaceAll_never (fun s => all_chars is_ascii s = true)); [exact Keep| |exact A].
  intros s E. unfold andThen, one. destruct s as [|c r]; [reflexivity|].
  destruct (is_alnum c); [|reflexivity]. destruct r as [|d r]; [reflexivity|].
  now rewrite (Lead d r (Keep _ _ E)).
Qed.

Lemma addReadableSpacing_ascii_witness :
  addReadableSpacing "Episode 12 - intro" = "Episode 12 - intro".
Proof. apply addReadableSpacing_ascii. reflexivity. Defined.

Section ToText.
Context `{EntityDecoder}.

(** X16: the text [toText] returns holds no carriage return, no tag
    (no [<] with a [>] anywhere after it) and no three line feeds in a
    row, and has no white space at either end. *)
Theorem toText_normal value :
  has_char CR (toText value) = false
  /\ tag_free (toText value) = true
  /\ no_run3 (toText value) = true
  /\ trim (toText value) = toText value.
Proof.
  unfold toText. destruct (String.eqb (decodeHtml value) ""); [repeat split|].
  set (nl := fun _ : string => String LF "").
  set (s1 := replaceAll block_close_at nl (replaceAll br_at nl (decodeHtml value))).
  set (s2 := replaceAll any_tag_at (fun _ => "") s1).
  set (s3 := replaceAll crlf_at nl s2).
  set (s4 := replaceAll blanks_nl_at nl s3).
  change (fun _ : string => String LF (String LF "")) with two.
  assert (P1 : forall c : ascii, (Ascii.eqb c CR || Ascii.eqb c LF) = true -> plain c = true).
  { intros c E. apply orb_true_iff in E as [E|E]; apply Ascii.eqb_eq in E; now subst c. }
  assert (P2 : forall c : ascii,
             (Ascii.eqb c " " || Ascii.eqb c TAB || Ascii.eqb c LF) = true -> plain c = true).
  { intros c E. apply orb_true_iff in E as [E|E]; [apply orb_true_iff in E as [E|E]|];
      apply Ascii.eqb_eq in E; now subst c. }
  assert (P3 : forall c : ascii, is_char LF c = true -> plain c = true).
  { intros c E. apply Ascii.eqb_eq in E. now subst c. }
  split; [|split; [|split]].
  - apply (all_chars_absent (not_char CR)); [reflexivity|]. apply all_chars_trim.
    apply (all_chars_replaceAll _ _ _ _ within_nl3); [reflexivity|].
    apply (all_chars_replaceAll _ _ _ _ within_blanks_nl); [reflexivity|].
    destruct (crlf_gone (String.length s2) s2) as [T|L]; [exact T | lia].
  - apply tag_free_trim.
    apply (tag_free_replaceAll_fuel _ _ (within_weaken _ _ _ P3 within_nl3)); [reflexivity|].
    apply (tag_free_replaceAll_fuel _ _ (within_weaken _ _ _ P2 within_blanks_nl));
      [reflexivity|].
    apply (tag_free_replaceAll_fuel _ _ (within_weaken _ _ _ P1 within_crlf)); [reflexivity|].
    destruct (any_tag_gone (String.length s1) s1) as [T|L]; [exact T | lia].
  - apply no_run3_trim. apply nl3_gone. apply Nat.le_refl.
  - apply trim_idem.
Qed.

End ToText.

End RunFacts.

(** ** Plain lines, and the texts of an episode *)
Module OutputFacts.
Import Js Re Text JsVal Extract Shape JsFacts ReFacts TextFacts ShapeFacts CleanFacts LineFacts.

Lemma headed_first_of p ms : Forall (headed p) ms -> headed p (first_of ms).
Proof.
  induction 1 as [|m ms [H0 H1] _ [I0 I1]]; [split; reflexivity|].
  split; cbn [first_of]; [now rewrite H0|]. intros c r E. now rewrite (H1 _ _ E), I1.
Qed.

Lemma headed_empty_element : headed opens empty_element_at.
Proof.
  unfold empty_element_at. apply headed_first_of. cbn [map empty_names].
  repeat (apply Forall_cons; [cbn [seq]; apply headed_andThen, headed_lit|]).
  apply Forall_nil.
Qed.

Lemma headed_br_run : headed opens br_run_at.
Proof.
  unfold br_run_at. cbn [seq]. apply headed_andThen. unfold br_tag_at. cbn [seq].
  do 2 apply headed_andThen. apply headed_lit.
Qed.

Lemma stripEmpty_plain fuel s :
  all_chars (fun c => negb (opens c)) s = true -> stripEmpty fuel s = s.
Proof.
  intros A. destruct fuel as [|fuel]; [reflexivity|]. cbn [stripEmpty].
  rewrite (replaceAll_headed opens _ _ _ headed_empty_element A).
  now rewrite String.eqb_refl.
Qed.

Lemma headed_active : forall m, headed opens m -> headed active m.
Proof.
  intros m. apply headed_weaken. intros c E. unfold active, inert in E. unfold opens.
  destruct (Ascii.eqb c "<"); [discriminate | reflexivity].
Qed.

Lemma headed_blanks_nl s :
  all_chars inert s = true -> replaceAll blanks_nl_at (fun _ => String LF "") s = s.
Proof.
  apply (replaceAll_never (fun s => all_chars inert s = true)).
  - intros c r E. cbn [all_chars] in E. now apply andb_true_iff in E.
  - intros t A. unfold blanks_nl_at. cbn [seq]. unfold andThen, many1.
    destruct (span _ t) as [x rest] eqn:E. destruct x as [|c x]; [reflexivity|].
    destruct (span_spec _ _ _ _ E) as [-> _].
    rewrite all_chars_app in A. apply andb_true_iff in A as [_ A].
    unfold one, is_char. destruct rest as [|d rest]; [reflexivity|].
    cbn [all_chars] in A. apply andb_true_iff in A as [A _]. unfold inert in A.
    destruct (Ascii.eqb d LF); [now rewrite andb_false_r in A | reflexivity].
Qed.

Section Plain.
Context `{EntityDecoder}.

(** X17: a line without [<] and without line breaks is only trimmed by
    [convertHtmlToPlainText] and by [cleanEmptyHtml], and by [toText]
    when it holds no [&] either. *)
Theorem plain_line_is_trimmed text :
  all_chars inert text = true ->
  convertHtmlToPlainText text = trim text
  /\ cleanEmptyHtml text = trim text
  /\ (has_char "&" text = false -> toText text = trim text).
Proof.
  intros A. split; [|split].
  - rewrite convertHtmlToPlainText_steps. now rewrite (fold_inert _ _ headed_conversions A).
  - unfold cleanEmptyHtml. destruct (String.eqb_spec text "") as [->|N]; [reflexivity|].
    rewrite (stripEmpty_plain _ _ (inert_no_lt _ A)).
    now rewrite (replaceAll_headed opens _ _ _ headed_br_run (inert_no_lt _ A)).
  - intros Amp. unfold toText, decodeHtml.
    destruct (String.eqb_spec text "") as [->|N]; [reflexivity|].
    rewrite (decode_plain _ Amp). destruct (String.eqb_spec text "") as [E|_]; [contradiction|].
    assert (B1 : headed opens br_at).
    { unfold br_at. cbn [seq]. apply headed_andThen, headed_lit. }
    assert (B2 : headed opens block_close_at).
    { unfold block_close_at. cbn [seq]. apply headed_andThen, headed_lit. }
    assert (B3 : headed opens any_tag_at).
    { unfold any_tag_at. cbn [seq]. apply headed_andThen, headed_lit. }
    rewrite (replaceAll_headed opens _ _ _ B1 (inert_no_lt _ A)).
    rewrite (replaceAll_headed opens _ _ _ B2 (inert_no_lt _ A)).
    rewrite (replaceAll_headed opens _ _ _ B3 (inert_no_lt _ A)).
    pose proof headed_conversions as F. unfold conversions in F.
    do 20 apply Forall_cons_iff in F as [_ F].
    apply Forall_cons_iff in F as [Fc F]. apply Forall_cons_iff in F as [Fn _].
    cbn [fst] in Fc, Fn.
    rewrite (replaceAll_headed active _ _ _ Fc (all_inert _ A)).
    rewrite (headed_blanks_nl _ A).
    now rewrite (replaceAll_headed active _ _ _ Fn (all_inert _ A)).
Qed.

End Plain.

Section Episodes.
Context `{EntityDecoder} `{Sanitizer} `{Dates}.

Lemma toLink_trimmed_depth n : forall value,
  Routes.head_depth value = n -> trim (toLink value) = toLink value.
Proof.
  induction n as [|n IH]; intros value Hd.
  - destruct value as [| |b|k|s|l|f]; cbn [toLink]; try reflexivity.
    + destruct (String.eqb s ""); [reflexivity | apply trim_idem].
    + destruct l as [|x l]; [reflexivity | discriminate].
    + destruct (assoc "@_href" f); try apply trim_idem;
        destruct (assoc "url" f); try apply trim_idem;
        destruct (assoc "#text" f); try apply trim_idem; reflexivity.
  - destruct value as [| |b|k|s|l|f]; try discriminate.
    destruct l as [|x l]; [discriminate|]. injection Hd as Hd. cbn [toLink]. now apply IH.
Qed.

Lemma toLink_trimmed value : trim (toLink value) = toLink value.
Proof. now apply (toLink_trimmed_depth (Routes.head_depth value)). Qed.

Lemma identifier_trimmed raw : trim (identifier raw) = identifier raw.
Proof.
  unfold identifier. destruct (String.eqb (toLink raw) ""); cbn [negb].
  - destruct raw; try reflexivity. apply trim_idem.
  - apply toLink_trimmed.
Qed.

Lemma str_or_trimmed a b : trim a = a -> trim b = b -> trim (str_or a b) = str_or a b.
Proof. intros Ea Eb. unfold str_or. now destruct (String.eqb a ""). Qed.

(** X12: the link, the URL (which is the link), the guid and the plain
    description of an episode carry no white space at either end. *)
Theorem toEpisode_trimmed channel start index item :
  let episode := toEpisode channel start index item in
  trim (url episode) = url episode
  /\ link episode = url episode
  /\ trim (guid episode) = guid episode
  /\ trim (description_text episode) = description_text episode.
Proof.
  cbn zeta. unfold toEpisode. cbn [url link guid description_text].
  split; [|split; [reflexivity|split]].
  - repeat apply str_or_trimmed; try apply toLink_trimmed; reflexivity.
  - repeat apply str_or_trimmed; try apply identifier_trimmed; reflexivity.
  - unfold toTextOf. destruct (or_else _ _); try reflexivity.
    unfold toText. destruct (String.eqb _ ""); [reflexivity | apply trim_idem].
Qed.

End Episodes.

Import World.

Lemma plain_line_is_trimmed_witness :
  convertHtmlToPlainText "  Fish & chips  " = "Fish & chips"
  /\ cleanEmptyHtml "  Fish & chips  " = "Fish & chips"
  /\ toText " 3 > 2 " = "3 > 2".
Proof.
  destruct (plain_line_is_trimmed (H := basic_decoder) "  Fish & chips  " eq_refl)
    as (A & B & _).
  destruct (plain_line_is_trimmed (H := basic_decoder) " 3 > 2 " eq_refl) as (_ & _ & C).
  split; [exact A|]. split; [exact B | exact (C eq_refl)].
Defined.

(** X22: the HTML of a description is made from the sanitized HTML
    when that is not blank, and from the fallback text otherwise; it is
    empty or one element of class episode-detail-description. *)
Theorem buildEpisodeDescriptionHtml_wrapped html fallbackText :
  (String.eqb (trim html) "" = false ->
   buildEpisodeDescriptionHtml html fallbackText
   = detail_open ++ highlightTimestampsInHtml (trim html) ++ "</div>")
  /\ (String.eqb (trim html) "" = true ->
      buildEpisodeDescriptionHtml html fallbackText
      = buildHtmlFromPlainText (trim fallbackText) escapeHtml)
  /\ (buildEpisodeDescriptionHtml html fallbackText = ""
      \/ exists inner,
           buildEpisodeDescriptionHtml html fallbackText = detail_open ++ inner ++ "</div>").
Proof.
  unfold buildEpisodeDescriptionHtml.
  destruct (String.eqb (trim html) "") eqn:E; cbn [negb].
  - split; [discriminate|].
    assert (G : (if String.eqb (trim fallbackText) "" then ""
                 else buildHtmlFromPlainText (trim fallbackText) escapeHtml)
                = buildHtmlFromPlainText (trim fallbackText) escapeHtml).
    { destruct (String.eqb_spec (trim fallbackText) "") as [->|]; reflexivity. }
    rewrite G. split; [reflexivity|].
    unfold buildHtmlFromPlainText.
    destruct (String.eqb (trim fallbackText) ""); [now left|].
    destruct (is_empty _); [now left|].
    match goal with
    | |- context [concat_all (htmlParagraphs ?q)] =>
        destruct (is_empty (htmlParagraphs q)); [now left|];
        right; exists (concat_all (htmlParagraphs q)); reflexivity
    end.
  - split; [reflexivity|]. split; [discriminate|].
    right. exists (highlightTimestampsInHtml (trim html)). reflexivity.
Qed.

End OutputFacts.

(** ** Texts without a time *)
Module QuietFacts.
Import Js Re Text JsFacts ReFacts TextFacts.

Lemma quiet_suffix a b : quiet (a ++ b) = true -> quiet b = true.
Proof.
  induction a as [|c a IH]; [auto|]. cbn [append quiet].
  destruct (time_at (String c (a ++ b))); [discriminate | exact IH].
Qed.

Lemma quiet_prefix a b : quiet (a ++ b) = true -> quiet a = true.
Proof.
  induction a as [|c a IH]; [reflexivity|]. cbn [append quiet].
  destruct (time_at (String c (a ++ b))) eqn:E; [discriminate|]. intros Q.
  destruct (time_at (String c a)) eqn:E'; [|now apply IH].
  exfalso. apply (time_at_extend (String c a) b); [congruence | exact E].
Qed.

Lemma flatten_push c p :
  flatten (push_text c p)
  = match flatten p with
    | t :: rest => String c t :: rest
    | [] => []
    end.
Proof. now destruct p. Qed.

Lemma splitTags_fuel_quiet n : forall s,
  quiet s = true ->
  concat_all (flatten (splitTags_fuel n s)) = s
  /\ Forall (fun seg => quiet seg = true) (flatten (splitTags_fuel n s)).
Proof.
  induction n as [|n IH]; intros s Q.
  - cbn [splitTags_fuel flatten concat_all]. rewrite append_nil_r. split; [reflexivity|].
    now constructor.
  - cbn [splitTags_fuel]. destruct (tag_at s) as [[tag rest]|] eqn:E.
    + destruct (tag_at_inv _ _ _ E) as [_ ->]. cbn [flatten concat_all append].
      destruct (IH rest (quiet_suffix _ _ Q)) as [C F]. rewrite C. split; [reflexivity|].
      constructor; [reflexivity|]. constructor; [now apply quiet_prefix in Q | exact F].
    + destruct s as [|c r]; [split; [reflexivity | now constructor]|].
      assert (Qr : quiet r = true).
      { cbn [quiet] in Q. now destruct (time_at (String c r)). }
      destruct (IH r Qr) as [C F]. rewrite flatten_push.
      destruct (flatten (splitTags_fuel n r)) as [|t others] eqn:Ef.
      * destruct (splitTags_fuel n r); discriminate.
      * cbn [concat_all append] in C |- *. rewrite C. split; [reflexivity|].
        apply Forall_cons_iff in F as [Qt Fo]. constructor; [|exact Fo].
        rewrite <- C in Q. change (String c (t ++ concat_all others))
          with (String c t ++ concat_all others) in Q. now apply quiet_prefix in Q.
Qed.

Lemma visit_quiet_any st seg : quiet seg = true -> snd (visit st seg) = seg.
Proof.
  intros Q. unfold visit. destruct (String.eqb_spec seg "") as [->|N]; [reflexivity|].
  destruct (startsWith "<" seg).
  - destruct (closingMatch seg); [now destruct (stack st)|].
    now destruct (isSelfClosing seg).
  - destruct (timestampDepth st >? 0); [reflexivity|]. cbn [snd].
    now apply quiet_replaceAll.
Qed.

Lemma visitAll_quiet segs : forall st,
  Forall (fun seg => quiet seg = true) segs ->
  snd (visitAll st segs) = concat_all segs.
Proof.
  induction segs as [|seg segs IH]; intros st F; [reflexivity|].
  apply Forall_cons_iff in F as [Q Fs]. cbn [visitAll concat_all].
  pose proof (visit_quiet_any st seg Q) as V.
  destruct (visit st seg) as [st1 out]. cbn [snd] in V. subst out.
  specialize (IH st1 Fs). destruct (visitAll st1 segs) as [st2 outs].
  cbn [snd] in IH |- *. now rewrite IH.
Qed.

Lemma time_ahead_none s : time_at s = None -> time_ahead_at s = None.
Proof. intros E. unfold time_ahead_at. now rewrite E. Qed.

Lemma quiet_head s : quiet s = true -> time_at s = None.
Proof. destruct s as [|c r]; cbn [quiet]; [reflexivity|]. now destruct (time_at _). Qed.

Lemma after_other_quiet s : quiet s = true -> after_other_at s = None.
Proof.
  intros Q. unfold after_other_at, andThen, one. destruct s as [|c r]; [reflexivity|].
  destruct (negb (is_digit c)); [|reflexivity].
  assert (Qr : quiet r = true).
  { cbn [quiet] in Q. now destruct (time_at (String c r)). }
  now rewrite (time_ahead_none _ (quiet_head _ Qr)).
Qed.

Lemma replaceAll_quiet f s : quiet s = true -> replaceAll after_other_at f s = s.
Proof.
  induction s as [|c r IH]; [reflexivity|]. intros Q.
  rewrite replaceAll_skip by now apply after_other_quiet.
  f_equal. apply IH. cbn [quiet] in Q. now destruct (time_at (String c r)).
Qed.

(** X19: a text in which no time starts anywhere (no H:MM) is returned
    as it is by both highlighters, tags and all. *)
Theorem highlighters_keep_quiet_text html :
  quiet html = true ->
  highlightTimestampsInHtml html = html /\ highlightTimestampsInPlainText html = html.
Proof.
  intros Q. split.
  - unfold highlightTimestampsInHtml. destruct (String.eqb_spec html "") as [->|N];
      [reflexivity|].
    destruct (splitTags_fuel_quiet (String.length html) html Q) as [C F].
    fold (splitTags html) in C, F. now rewrite (visitAll_quiet _ _ F).
  - unfold highlightTimestampsInPlainText.
    rewrite (time_ahead_none _ (quiet_head _ Q)). now apply replaceAll_quiet.
Qed.

Lemma highlighters_keep_quiet_text_witness :
  highlightTimestampsInHtml "<p>Chapter 12: the <b>end</b></p>"
  = "<p>Chapter 12: the <b>end</b></p>"
  /\ highlightTimestampsInPlainText "Chapter 12: the end" = "Chapter 12: the end".
Proof.
  split.
  - apply (highlighters_keep_quiet_text "<p>Chapter 12: the <b>end</b></p>"). reflexivity.
  - apply (highlighters_keep_quiet_text "Chapter 12: the end"). reflexivity.
Defined.

End QuietFacts.

(** ** Facts about [applyFormattingTokens] *)
Module TokenFacts.
Import Js Re Text Tokens JsFacts ReFacts.

Lemma find_sub_step p c r :
  lit false p (String c r) = None ->
  find_sub p (String c r) = shift (String c "") (find_sub p r).
Proof.
  intros E. cbn [find_sub]. rewrite E. unfold shift. now destruct (find_sub p r) as [[a b]|].
Qed.

Lemma shift_shift a b r : shift a (shift b r) = shift (a ++ b) r.
Proof. destruct r as [[x y]|]; cbn [shift]; [now rewrite append_assoc | reflexivity]. Qed.

Lemma lit_cons a p c r :
  lit false (String a p) (String c r)
  = if Ascii.eqb c a
    then match lit false p r with
         | Some (x, rest) => Some (String c x, rest)
         | None => None
         end
    else None.
Proof. reflexivity. Qed.

(** Every token starts with two underscores. *)
Lemma token_head token s :
  In token tokens -> exists tail, token ++ s = String "_" (String "_" tail).
Proof.
  cbn [In tokens]. intros [<-|[<-|[<-|[<-|[]]]]]; eexists; reflexivity.
Qed.

(** A pattern with an underscore after letters, and a letter after it,
    matches nowhere at the head of a marked text. *)
Lemma lit_gap letters q tail : forall s,
  marked s -> all_chars no_underscore letters = true -> no_underscore q = true ->
  lit false (letters ++ String "_" (String q tail)) s = None.
Proof.
  induction letters as [|a letters IH]; intros s M A Q.
  - cbn [append]. inversion M as [|c s' C M'|token s' T M']; subst; [reflexivity| |].
    + rewrite lit_cons. unfold no_underscore in C. apply negb_true_iff in C. now rewrite C.
    + destruct (token_head _ s' T) as (rest & ->). rewrite !lit_cons.
      unfold no_underscore in Q. apply negb_true_iff in Q.
      now rewrite Ascii.eqb_refl, Ascii.eqb_sym, Q.
  - cbn [all_chars] in A. apply andb_true_iff in A as [Aa A].
    cbn [append]. inversion M as [|c s' C M'|token s' T M']; subst; [reflexivity| |].
    + rewrite lit_cons. destruct (Ascii.eqb c a); [|reflexivity]. now rewrite (IH s' M' A Q).
    + destruct (token_head _ s' T) as (rest & ->). rewrite lit_cons.
      unfold no_underscore in Aa. apply negb_true_iff in Aa.
      now rewrite Ascii.eqb_sym, Aa.
Qed.

Section Gaps.
Variable s : string.
Hypothesis s_marked : marked s.

Lemma gap_strong_open_1 : lit false "_STRONG_OPEN__" s = None.
Proof. exact (lit_gap "" "S" "TRONG_OPEN__" s s_marked eq_refl eq_refl). Qed.
Lemma gap_strong_open_2 : lit false "STRONG_OPEN__" s = None.
Proof. exact (lit_gap "STRONG" "O" "PEN__" s s_marked eq_refl eq_refl). Qed.
Lemma gap_strong_close_1 : lit false "_STRONG_CLOSE__" s = None.
Proof. exact (lit_gap "" "S" "TRONG_CLOSE__" s s_marked eq_refl eq_refl). Qed.
Lemma gap_strong_close_2 : lit false "STRONG_CLOSE__" s = None.
Proof. exact (lit_gap "STRONG" "C" "LOSE__" s s_marked eq_refl eq_refl). Qed.
Lemma gap_em_open_1 : lit false "_EM_OPEN__" s = None.
Proof. exact (lit_gap "" "E" "M_OPEN__" s s_marked eq_refl eq_refl). Qed.
Lemma gap_em_open_2 : lit false "EM_OPEN__" s = None.
Proof. exact (lit_gap "EM" "O" "PEN__" s s_marked eq_refl eq_refl). Qed.
Lemma gap_em_close_1 : lit false "_EM_CLOSE__" s = None.
Proof. exact (lit_gap "" "E" "M_CLOSE__" s s_marked eq_refl eq_refl). Qed.
Lemma gap_em_close_2 : lit false "EM_CLOSE__" s = None.
Proof. exact (lit_gap "EM" "C" "LOSE__" s s_marked eq_refl eq_refl). Qed.

End Gaps.

Ltac no_match M :=
  repeat rewrite lit_cons; cbn [Ascii.eqb Bool.eqb];
  first
    [ reflexivity
    | rewrite (gap_strong_open_1 _ M); reflexivity
    | rewrite (gap_strong_open_2 _ M); reflexivity
    | rewrite (gap_strong_close_1 _ M); reflexivity
    | rewrite (gap_strong_close_2 _ M); reflexivity
    | rewrite (gap_em_open_1 _ M); reflexivity
    | rewrite (gap_em_open_2 _ M); reflexivity
    | rewrite (gap_em_close_1 _ M); reflexivity
    | rewrite (gap_em_close_2 _ M); reflexivity ].

(** The first occurrence of a token lies behind any other token. *)
Lemma find_sub_behind pattern token s :
  In pattern tokens -> In token tokens -> pattern <> token -> marked s ->
  find_sub pattern (token ++ s) = shift token (find_sub pattern s).
Proof.
  intros P T N M. cbn [In tokens] in P, T.
  destruct P as [<-|[<-|[<-|[<-|[]]]]]; destruct T as [<-|[<-|[<-|[<-|[]]]]];
    try (now elim N); clear N;
    cbn [opener closer strong emphasis append];
    repeat (rewrite find_sub_step; [|no_match M]);
    rewrite !shift_shift; reflexivity.
Qed.

Lemma lit_underscore p c r :
  no_underscore c = true -> lit false (String "_" p) (String c r) = None.
Proof.
  intros C. rewrite lit_cons. unfold no_underscore in C. apply negb_true_iff in C.
  now rewrite C.
Qed.

Lemma token_underscore token : In token tokens -> exists p, token = String "_" p.
Proof. cbn [In tokens]. intros [<-|[<-|[<-|[<-|[]]]]]; eexists; reflexivity. Qed.

(** ... and behind any word. *)
Lemma find_sub_words pattern text s :
  In pattern tokens -> all_chars no_underscore text = true ->
  find_sub pattern (text ++ s) = shift text (find_sub pattern s).
Proof.
  intros P A. destruct (token_underscore _ P) as (p & ->).
  induction text as [|c text IH].
  - cbn [append shift]. now destruct (find_sub _ s) as [[a b]|].
  - cbn [all_chars] in A. apply andb_true_iff in A as [Ac A]. cbn [append].
    rewrite find_sub_step by now apply lit_underscore.
    rewrite (IH A), shift_shift. reflexivity.
Qed.

Lemma lit_self p s : lit false p (p ++ s) = Some (p, s).
Proof.
  induction p as [|a p IH]; [reflexivity|]. cbn [append]. rewrite lit_cons.
  now rewrite Ascii.eqb_refl, IH.
Qed.

Lemma find_sub_here p s : find_sub p (p ++ s) = Some ("", s).
Proof.
  destruct p as [|a p]; [now destruct s|].
  pose proof (lit_self (String a p) s) as E. cbn [append] in E |- *.
  cbn [find_sub]. now rewrite E.
Qed.

Lemma written_marked f pieces :
  f = strong \/ f = emphasis -> wordy pieces = true -> marked (written f pieces).
Proof.
  intros F. induction pieces as [|piece pieces IH]; cbn [wordy forallb written];
    [constructor|].
  intros W. apply andb_true_iff in W as [Wp W]. specialize (IH W).
  destruct piece as [text| |].
  - clear W. induction text as [|c text IHt]; [exact IH|].
    cbn [all_chars] in Wp. apply andb_true_iff in Wp as [Wc Wt].
    cbn [append]. constructor; [exact Wc | now apply IHt].
  - apply marked_token; [|exact IH]. destruct F as [->| ->]; cbn; auto.
  - apply marked_token; [|exact IH]. destruct F as [->| ->]; cbn; auto.
Qed.

Section OneFamily.
Variable f : Family.
Hypothesis f_known : f = strong \/ f = emphasis.

Lemma opener_in : In (opener f) tokens.
Proof. destruct f_known as [->| ->]; cbn; auto. Qed.

Lemma closer_in : In (closer f) tokens.
Proof. destruct f_known as [->| ->]; cbn; auto. Qed.

Lemma opener_closer : opener f <> closer f.
Proof. destruct f_known as [->| ->]; discriminate. Qed.

Lemma closer_opener : closer f <> opener f.
Proof. destruct f_known as [->| ->]; discriminate. Qed.

Lemma token_length : (0 < String.length (opener f))%nat /\ (0 < String.length (closer f))%nat.
Proof. destruct f_known as [->| ->]; cbn; lia. Qed.

Lemma find_sub_empty p : p <> "" -> find_sub p "" = None.
Proof. destruct p; [congruence | reflexivity]. Qed.

Lemma opener_nonempty : opener f <> "".
Proof. destruct f_known as [->| ->]; discriminate. Qed.

Lemma closer_nonempty : closer f <> "".
Proof. destruct f_known as [->| ->]; discriminate. Qed.

Lemma append_empty a b : String.eqb (a ++ b) "" = String.eqb a "" && String.eqb b "".
Proof. destruct a; [now destruct b | reflexivity]. Qed.

(** Words before the text change nothing in a run of the loop. *)
Lemma formatToken_words fuel text s depth :
  all_chars no_underscore text = true ->
  formatToken (S fuel) (opener f) (closer f) (element f) (text ++ s) depth
  = text ++ formatToken (S fuel) (opener f) (closer f) (element f) s depth.
Proof.
  intros A. cbn [formatToken].
  rewrite (find_sub_words _ _ s opener_in A), (find_sub_words _ _ s closer_in A).
  rewrite append_empty.
  destruct (find_sub (opener f) s) as [[b a]|] eqn:Eo;
    destruct (find_sub (closer f) s) as [[b' a']|] eqn:Ec; cbn [shift].
  all: destruct (String.eqb_spec s "") as [->|Ns];
    [ try (rewrite (find_sub_empty _ opener_nonempty) in Eo; discriminate);
      try (rewrite (find_sub_empty _ closer_nonempty) in Ec; discriminate)
    | rewrite andb_false_r ].
  - rewrite !length_append.
    replace (String.length text + String.length b <? String.length text + String.length b')%nat
      with (String.length b <? String.length b')%nat.
    2: { destruct (Nat.ltb_spec (String.length b) (String.length b')),
           (Nat.ltb_spec (String.length text + String.length b)
                         (String.length text + String.length b')); try reflexivity; lia. }
    destruct (String.length b <? String.length b')%nat; [now rewrite append_assoc|].
    destruct depth; now rewrite append_assoc.
  - now rewrite append_assoc.
  - destruct depth; now rewrite append_assoc.
  - rewrite append_nil_r. destruct (String.eqb_spec text "") as [->|]; reflexivity.
  - now rewrite append_assoc.
Qed.

(** One run of the loop of [applyFormattingTokens], on a text written
    from pieces: the fuel counts the tokens to come. *)
Lemma formatToken_pieces pieces : forall fuel depth,
  wordy pieces = true -> (count_tokens pieces < fuel)%nat ->
  formatToken fuel (opener f) (closer f) (element f) (written f pieces) depth
  = tagged f pieces depth.
Proof.
  induction pieces as [|piece pieces IH]; intros fuel depth W L.
  - destruct fuel as [|fuel]; [lia|]. reflexivity.
  - cbn [wordy forallb] in W. apply andb_true_iff in W as [Wp W].
    fold (wordy pieces) in W.
    pose proof (written_marked f pieces f_known W) as M.
    destruct fuel as [|fuel]; [lia|].
    destruct piece as [text| |]; cbn [written tagged].
    + rewrite (formatToken_words _ _ _ _ Wp). f_equal. now apply IH.
    + unfold count_tokens in L. cbn [filter List.length] in L. fold (count_tokens pieces) in L.
      cbn [formatToken]. rewrite append_empty.
      destruct (String.eqb_spec (opener f) "") as [E|_]; [now elim opener_nonempty|].
      cbn [andb].
      rewrite find_sub_here, (find_sub_behind _ _ _ closer_in opener_in closer_opener M).
      destruct (find_sub (closer f) (written f pieces)) as [[b' a']|]; cbn [shift].
      * rewrite length_append. pose proof token_length as [Lo _].
        destruct (Nat.ltb_spec (String.length "") (String.length (opener f) + String.length b'));
          [|cbn in *; lia].
        cbn [append]. rewrite IH by (exact W || lia). reflexivity.
      * cbn [append]. rewrite IH by (exact W || lia). reflexivity.
    + unfold count_tokens in L. cbn [filter List.length] in L. fold (count_tokens pieces) in L.
      cbn [formatToken]. rewrite append_empty.
      destruct (String.eqb_spec (closer f) "") as [E|_]; [now elim closer_nonempty|].
      cbn [andb].
      rewrite find_sub_here, (find_sub_behind _ _ _ opener_in closer_in opener_closer M).
      destruct (find_sub (opener f) (written f pieces)) as [[b a]|]; cbn [shift].
      * destruct (Nat.ltb_spec (String.length (closer f ++ b)) (String.length ""));
          [cbn in *; lia|].
        destruct depth; cbn [append]; rewrite IH by (exact W || lia); reflexivity.
      * destruct depth; cbn [append]; rewrite IH by (exact W || lia); reflexivity.
Qed.

Lemma count_tokens_length pieces :
  (count_tokens pieces <= String.length (written f pieces))%nat.
Proof.
  pose proof token_length as [Lo Lc].
  induction pieces as [|piece pieces IH]; [apply Nat.le_refl|].
  unfold count_tokens in *. destruct piece; cbn [filter List.length written];
    rewrite length_append; lia.
Qed.

Lemma closers_plain tag depth :
  all_chars no_underscore tag = true ->
  all_chars no_underscore (closers tag depth) = true.
Proof.
  intros A. induction depth as [|d IH]; [reflexivity|]. cbn [closers].
  now rewrite !all_chars_app, A, IH.
Qed.

Lemma element_plain : all_chars no_underscore (element f) = true.
Proof. destruct f_known as [->| ->]; reflexivity. Qed.

Lemma tagged_plain pieces : forall depth,
  wordy pieces = true -> all_chars no_underscore (tagged f pieces depth) = true.
Proof.
  induction pieces as [|piece pieces IH]; intros depth W; cbn [tagged].
  - apply closers_plain, element_plain.
  - cbn [wordy forallb] in W. apply andb_true_iff in W as [Wp W].
    fold (wordy pieces) in W. destruct piece as [text| |].
    + now rewrite all_chars_app, Wp, IH.
    + now rewrite !all_chars_app, element_plain, IH.
    + destruct depth; [now apply IH|]. now rewrite !all_chars_app, element_plain, IH.
Qed.

(** A token of the other family occurs nowhere in the text. *)
Lemma find_sub_foreign pattern pieces :
  In pattern tokens -> pattern <> opener f -> pattern <> closer f ->
  wordy pieces = true -> find_sub pattern (written f pieces) = None.
Proof.
  intros P No Nc. induction pieces as [|piece pieces IH]; intros W; cbn [written].
  - destruct (token_underscore _ P) as (p & ->). reflexivity.
  - cbn [wordy forallb] in W. apply andb_true_iff in W as [Wp W].
    fold (wordy pieces) in W.
    pose proof (written_marked f pieces f_known W) as M.
    destruct piece as [text| |].
    + now rewrite (find_sub_words _ _ _ P Wp), (IH W).
    + now rewrite (find_sub_behind _ _ _ P opener_in No M), (IH W).
    + now rewrite (find_sub_behind _ _ _ P closer_in Nc M), (IH W).
Qed.

End OneFamily.

Lemma find_sub_plain pattern s :
  In pattern tokens -> all_chars no_underscore s = true -> find_sub pattern s = None.
Proof.
  intros P A. rewrite <- (append_nil_r s), (find_sub_words _ _ _ P A).
  destruct (token_underscore _ P) as (p & ->). reflexivity.
Qed.

(** A run of the loop on a text without its tokens changes nothing. *)
Lemma formatToken_idle fuel open close tag s :
  find_sub open s = None -> find_sub close s = None ->
  formatToken (S fuel) open close tag s 0 = s.
Proof.
  intros Eo Ec. cbn [formatToken]. rewrite Eo, Ec.
  destruct (String.eqb_spec s "") as [->|]; [reflexivity | apply append_nil_r].
Qed.

Lemma applyFormattingTokens_runs input :
  applyFormattingTokens input
  = if String.eqb input "" then ""
    else
      let first := formatToken (S (String.length input)) "__STRONG_OPEN__" "__STRONG_CLOSE__"
                     "strong" input 0 in
      formatToken (S (String.length first)) "__EM_OPEN__" "__EM_CLOSE__" "em" first 0.
Proof. reflexivity. Qed.

(** X20: on a text made of words without underscore and of the tokens
    of one family (strong or em), [applyFormattingTokens] turns every
    opener into an opening tag and every closer into a closing tag when
    an element is open, drops a closer when none is, and closes at the
    end what is still open: the tags it writes are balanced. *)
Theorem applyFormattingTokens_pieces f pieces :
  f = strong \/ f = emphasis -> wordy pieces = true ->
  applyFormattingTokens (written f pieces) = tagged f pieces 0.
Proof.
  intros F W. rewrite applyFormattingTokens_runs.
  pose proof (count_tokens_length f F pieces) as C.
  assert (T : formatToken (S (String.length (written f pieces))) (opener f) (closer f)
                (element f) (written f pieces) 0 = tagged f pieces 0).
  { apply formatToken_pieces; [exact F | exact W | lia]. }
  destruct (String.eqb_spec (written f pieces) "") as [E|N].
  - rewrite E in T. cbn in T. now rewrite <- T.
  - cbn zeta. destruct F as [->| ->].
    + cbn [opener closer element strong] in T. rewrite T.
      apply formatToken_idle; apply find_sub_plain; cbn; auto;
        apply tagged_plain; auto.
    + cbn [opener closer element emphasis] in T.
      rewrite (formatToken_idle _ "__STRONG_OPEN__" "__STRONG_CLOSE__" "strong"
                 (written emphasis pieces)).
      * exact T.
      * apply (find_sub_foreign emphasis); cbn; auto; discriminate.
      * apply (find_sub_foreign emphasis); cbn; auto; discriminate.
Qed.

Lemma applyFormattingTokens_pieces_witness :
  applyFormattingTokens "a__STRONG_CLOSE__b__STRONG_OPEN__c__STRONG_OPEN__d__STRONG_CLOSE__e"
  = "ab<strong>c<strong>d</strong>e</strong>".
Proof.
  apply (applyFormattingTokens_pieces strong
           [Words "a"; Closer; Words "b"; Opener; Words "c"; Opener; Words "d"; Closer;
            Words "e"]).
  - left. reflexivity.
  - reflexivity.
Defined.

End TokenFacts.

(** ** More facts about the pages *)
Module PageFacts.
Import Js JsVal Text Sha256 Extract JsFacts ExtractFacts.

Lemma mapi_app {A B} (f : Z -> A -> B) (x y : list A) : forall k,
  mapi f k (x ++ y)%list = (mapi f k x ++ mapi f (k + Z.of_nat (List.length x)) y)%list.
Proof.
  induction x as [|a x IH]; intros k; cbn [mapi app List.length].
  - now rewrite Z.add_0_r.
  - rewrite IH. do 3 f_equal. lia.
Qed.

Lemma mapi_ext {A B} (f g : Z -> A -> B) (l : list A) : forall k,
  (forall i x, f i x = g i x) -> mapi f k l = mapi g k l.
Proof.
  induction l as [|a l IH]; intros k E; cbn [mapi]; [reflexivity|].
  now rewrite E, (IH _ E).
Qed.

Lemma mapi_shift {A B} (f : Z -> A -> B) (d : Z) (l : list A) : forall k,
  mapi f (k + d) l = mapi (fun i => f (i + d)) k l.
Proof.
  induction l as [|a l IH]; intros k; cbn [mapi]; [reflexivity|].
  f_equal. rewrite <- IH. f_equal. lia.
Qed.

Lemma firstn_add_skipn {A} (a b : nat) (l : list A) :
  firstn (a + b) l = (firstn a l ++ firstn b (skipn a l))%list.
Proof.
  revert l. induction a as [|a IH]; intros l; [reflexivity|].
  destruct l as [|x l]; cbn [Nat.add firstn skipn app].
  - now rewrite firstn_nil.
  - now rewrite IH.
Qed.

Lemma skipn_add {A} (a b : nat) (l : list A) : skipn a (skipn b l) = skipn (b + a) l.
Proof.
  revert l. induction b as [|b IH]; intros l; [reflexivity|].
  destruct l as [|x l]; cbn [Nat.add skipn]; [now rewrite skipn_nil | apply IH].
Qed.

Lemma length_slice {A} (l : list A) start limit :
  0 <= start -> 0 <= limit ->
  Z.of_nat (List.length (slice l start (start + limit)))
  = Z.min limit (Z.max 0 (Z.of_nat (List.length l) - start)).
Proof.
  intros Hs Hl. rewrite (slice_nonneg _ _ _ Hs Hl), length_firstn, length_skipn. lia.
Qed.

Section Pages.
Context `{EntityDecoder} `{Sanitizer} `{Dates}.

(** The position enters an episode through [start + index] only. *)
Lemma toEpisode_position channel s i item :
  toEpisode channel s i item = toEpisode channel 0 (s + i) item.
Proof. unfold toEpisode. now rewrite Z.add_0_l. Qed.

(** X9: two consecutive pages, put one after the other, are the page
    of the two limits together: pages neither overlap nor leave a gap. *)
Theorem extractEpisodesPage_consecutive rssData start limit limit' :
  0 <= start -> 0 <= limit -> 0 <= limit' ->
  (episodes (extractEpisodesPage rssData start limit)
   ++ episodes (extractEpisodesPage rssData (start + limit) limit'))%list
  = episodes (extractEpisodesPage rssData start (limit + limit')).
Proof.
  intros Hs Hl Hl'. unfold extractEpisodesPage. cbn [episodes].
  set (channel := getChannelInfo rssData).
  set (items := ensureArray (get channel "item")).
  rewrite !slice_nonneg by lia.
  replace (Z.to_nat (limit + limit')) with (Z.to_nat limit + Z.to_nat limit')%nat by lia.
  rewrite firstn_add_skipn, mapi_app, skipn_add.
  replace (Z.to_nat (start + limit)) with (Z.to_nat start + Z.to_nat limit)%nat by lia.
  f_equal. rewrite Z.add_0_l.
  remember (firstn (Z.to_nat limit') (skipn (Z.to_nat start + Z.to_nat limit) items)) as second eqn:Es.
  set (first := firstn (Z.to_nat limit) (skipn (Z.to_nat start) items)).
  destruct second as [|x second]; [reflexivity|].
  assert (Lh : List.length first = Z.to_nat limit).
  { subst first. rewrite length_firstn, length_skipn.
    assert (Lt : (0 < List.length (x :: second))%nat) by (cbn; lia).
    rewrite Es, length_firstn, length_skipn in Lt. lia. }
  rewrite Lh.
  rewrite <- (Z.add_0_l (Z.of_nat (Z.to_nat limit))).
  rewrite (mapi_shift _ (Z.of_nat (Z.to_nat limit)) (x :: second) 0).
  apply mapi_ext. intros i y.
  rewrite (toEpisode_position channel (start + limit)), (toEpisode_position channel start).
  f_equal. lia.
Qed.

(** X10: an item without a title is titled [Episode n], where n is its
    position in the whole feed counted from 1, on whatever page it
    comes. *)
Theorem extractEpisodesPage_default_title rssData start limit k item :
  0 <= start -> 0 <= limit -> Z.of_nat k < limit ->
  nth_error (feedItems rssData) (Z.to_nat start + k) = Some item ->
  truthy (get item "title") = false ->
  option_map title (nth_error (episodes (extractEpisodesPage rssData start limit)) k)
  = Some (JStr ("Episode " ++ string_of_Z (start + Z.of_nat k + 1))).
Proof.
  intros Hs Hl Hk Hi Ht. unfold extractEpisodesPage. cbn [episodes].
  fold (feedItems rssData).
  rewrite nth_error_mapi, (nth_error_slice _ _ _ _ Hs Hl), Hi, Z.add_0_l.
  destruct (Z.ltb_spec (Z.of_nat k) limit); [|lia].
  cbn [option_map]. unfold toEpisode. cbn [title]. unfold or_else. now rewrite Ht.
Qed.


End Pages.

Import World Samples.

Lemma extractEpisodesPage_consecutive_witness :
  (episodes (extractEpisodesPage feed 1 1) ++ episodes (extractEpisodesPage feed 2 2))%list
  = episodes (extractEpisodesPage feed 1 3).
Proof. apply (extractEpisodesPage_consecutive feed 1 1 2); lia. Defined.

Lemma extractEpisodesPage_default_title_witness :
  option_map title (nth_error (episodes (extractEpisodesPage untitled_feed 0 5)) 1)
  = Some (JStr "Episode 2").
Proof.
  apply (extractEpisodesPage_default_title untitled_feed 0 5 1 (JObj [("guid", JStr "g-2")]));
    try lia; reflexivity.
Defined.

End PageFacts.

(** ** More facts about the routes *)
Module PolicyFacts.
Import Js JsVal Ssrf Fetch Text Extract Routes JsFacts ExtractFacts RoutesFacts PageFacts.

Section Policy.
Context `{Network} `{EntityDecoder} `{Sanitizer} `{Dates} `{XmlParser}.

(** X6: a page holds [min limit (max 0 (total - offset))] episodes, at
    most 50; when [hasMore] holds the page is full and [nextCursor] is
    [offset + limit], so the cursor advances; when it does not, the
    page reaches the end of the feed and [nextCursor] is null. *)
Theorem episodesRoute_progress query parsed :
  truthy (urlOf query) = true ->
  parseRssFeed (toString (urlOf query)) = inr parsed ->
  exists cache body,
    episodesRoute query = Success cache body
    /\ Z.of_nat (List.length (body_episodes body))
       = Z.min (limitOf query)
               (Z.max 0 (Z.of_nat (List.length (feedItems parsed)) - offsetOf query))
    /\ Z.of_nat (List.length (body_episodes body)) <= MAX_LIMIT
    /\ (hasMore (pagination body) = true ->
        Z.of_nat (List.length (body_episodes body)) = limitOf query
        /\ nextCursor (pagination body) = Some (offsetOf query + limitOf query))
    /\ (hasMore (pagination body) = false ->
        nextCursor (pagination body) = None
        /\ Z.of_nat (List.length (feedItems parsed))
           <= offsetOf query + Z.of_nat (List.length (body_episodes body))).
Proof.
  intros Hu Hp. unfold episodesRoute. fold (urlOf query). rewrite Hu, Hp. cbn [negb].
  fold (offsetOf query) (limitOf query).
  pose proof (proj1 (safeCursorOf_spec (getQueryParam (get query "cursor")))) as Ho.
  pose proof (proj1 (safeLimitOf_spec (getQueryParam (get query "limit")))) as Hl.
  fold (offsetOf query) in Ho. fold (limitOf query) in Hl.
  eexists _, _. split; [reflexivity|].
  cbn [body_episodes pagination hasMore nextCursor].
  unfold extractEpisodesPage. cbn [episodes total]. fold (feedItems parsed).
  rewrite length_mapi.
  assert (L := length_slice (feedItems parsed) (offsetOf query) (limitOf query)
                 ltac:(lia) ltac:(lia)).
  rewrite L. split; [reflexivity|]. split; [lia|]. split.
  - intros M. rewrite M. apply Z.ltb_lt in M. split; [lia | f_equal; lia].
  - intros M. rewrite M. apply Z.ltb_ge in M. split; [reflexivity | lia].
Qed.


(** X7: a document without [rss.channel] is answered with a success
    that is not cacheable: a podcast with empty fields (the URL apart),
    no episode, [hasMore] false and a null [nextCursor]. *)
Theorem routes_without_channel query parsed :
  truthy (urlOf query) = true ->
  parseRssFeed (toString (urlOf query)) = inr parsed ->
  truthy (get (get parsed "rss") "channel") = false ->
  let nothing := mkPodcast (JStr "") (JStr "") (urlOf query) (JStr "") (JStr "") "" "" in
  podcastRoute query = Success NoStore nothing
  /\ episodesRoute query
     = Success NoStore
         (mkEpisodesBody nothing (mkPagination (offsetOf query) (limitOf query) None false) []).
Proof.
  intros Hu Hp Hc nothing.
  assert (C : getChannelInfo parsed = JObj []).
  { unfold getChannelInfo, or_else. now rewrite Hc. }
  assert (P : extractPodcastInfo parsed (urlOf query) = nothing).
  { unfold extractPodcastInfo. rewrite C. reflexivity. }
  assert (E : forall start limit, extractEpisodesPage parsed start limit = mkPage 0 []).
  { intros start limit. unfold extractEpisodesPage. rewrite C.
    change (ensureArray (get (JObj []) "item")) with (@nil JsValue).
    unfold slice. now rewrite skipn_nil, firstn_nil. }
  unfold podcastRoute, episodesRoute. fold (urlOf query) (refreshOf query).
  rewrite Hu, Hp. cbn [negb]. rewrite P, E. cbn [episodes total List.length Z.of_nat].
  fold (offsetOf query) (limitOf query).
  pose proof (proj1 (safeCursorOf_spec (getQueryParam (get query "cursor")))) as Ho.
  fold (offsetOf query) in Ho.
  rewrite Z.add_0_r. destruct (Z.ltb_spec (offsetOf query) 0); [lia|].
  rewrite !orb_true_r. split; reflexivity.
Qed.


(** X4: a URL that [ensurePublicUrl] rejects is answered 502 with the
    error of the guard, not cacheable, on both routes; so is a URL that
    does not parse. *)
Theorem routes_refuse_guarded query :
  truthy (urlOf query) = true ->
  let refused :=
    match parseUrl (toString (urlOf query)) with
    | Some parsedUrl => ensurePublicUrl parsedUrl
    | None => Some InvalidUrl
    end in
  forall e, refused = Some e ->
  podcastRoute query = BadGateway NoStore (FetchFailed e)
  /\ episodesRoute query = BadGateway NoStore (FetchFailed e).
Proof.
  intros Hu refused e He.
  assert (F : parseRssFeed (toString (urlOf query)) = inl (FetchFailed e)).
  { unfold parseRssFeed, fetchRss. cbn [fetchRss_fuel]. unfold attempt, exchange.
    subst refused. destruct (parseUrl (toString (urlOf query))) as [parsedUrl|].
    - now rewrite He.
    - now injection He as <-. }
  unfold podcastRoute, episodesRoute. fold (urlOf query). now rewrite Hu, F.
Qed.

End Policy.

Import World Samples.

Lemma episodesRoute_progress_witness :
  exists cache body,
    episodesRoute sample_query = Success cache body
    /\ Z.of_nat (List.length (body_episodes body)) = 2
    /\ (hasMore (pagination body) = true -> nextCursor (pagination body) = Some 3).
Proof.
  destruct (episodesRoute_progress sample_query feed)
    as (cache & body & E & L & _ & M & _); [vm_compute; reflexivity | vm_compute; reflexivity |].
  exists cache, body. split; [exact E|]. split; [exact L|].
  intros T. exact (proj2 (M T)).
Defined.

Lemma routes_without_channel_witness :
  cacheOf (@podcastRoute _ _ _ _ page_parser sample_query) = Some NoStore
  /\ @episodesRoute _ _ _ _ _ page_parser sample_query
     = Success NoStore
         (mkEpisodesBody
            (mkPodcast (JStr "") (JStr "") (JStr "http://feeds.example/feed.xml")
                       (JStr "") (JStr "") "" "")
            (mkPagination 1 2 None false) []).
Proof.
  destruct (@routes_without_channel _ _ _ _ _ page_parser sample_query
              (JObj [("html", JObj [])])) as [P E];
    [vm_compute; reflexivity | vm_compute; reflexivity | vm_compute; reflexivity |].
  split; [now rewrite P | exact E].
Defined.

Lemma routes_refuse_guarded_witness :
  podcastRoute (JObj [("url", JStr "http://169.254.169.254/latest")])
  = BadGateway NoStore (FetchFailed ForbiddenAddress)
  /\ episodesRoute (JObj [("url", JStr "ftp://feeds.example/feed.xml")])
     = BadGateway NoStore (FetchFailed InvalidUrl).
Proof.
  split.
  - apply (routes_refuse_guarded (JObj [("url", JStr "http://169.254.169.254/latest")]));
      vm_compute; reflexivity.
  - apply (routes_refuse_guarded (JObj [("url", JStr "ftp://feeds.example/feed.xml")]));
      vm_compute; reflexivity.
Defined.

End PolicyFacts.

(** ** The spacing pass applied twice *)
Module SpacingFacts.
Import Js Re Text Shape Spacing JsFacts ReFacts ShapeFacts LineFacts RunFacts.

Lemma addReadableSpacing_passes text :
  addReadableSpacing text
  = replaceAll alnum_cjk (spaced 1) (replaceAll cjk_alnum (spaced 3) text).
Proof. reflexivity. Qed.

Lemma calm_head m s : calm m s -> m s = None.
Proof. destruct s; cbn [calm]; tauto. Qed.

Lemma calm_suffix m a b : calm m (a ++ b) -> calm m b.
Proof. induction a as [|c a IH]; [auto|]. cbn [append calm]. tauto. Qed.

Lemma calm_fixed m f s : calm m s -> replaceAll m f s = s.
Proof.
  apply (replaceAll_never (calm m)).
  - intros c r C. now destruct C.
  - intros t. apply calm_head.
Qed.

(** [calm] over a concatenation. *)
Lemma calm_app m a b :
  (forall u v, a = u ++ v -> v <> "" -> m (v ++ b) = None) -> calm m b -> calm m (a ++ b).
Proof.
  induction a as [|c a IH]; intros Ha Cb; [exact Cb|]. cbn [append calm]. split.
  - apply (Ha "" (String c a)); [reflexivity | discriminate].
  - apply IH; [|exact Cb]. intros u v E N. apply (Ha (String c u) v); [|exact N].
    cbn [append]. now rewrite E.
Qed.

Lemma substring_split k : forall x,
  (k <= String.length x)%nat ->
  x = substring 0 k x ++ substring k (String.length x - k) x
  /\ String.length (substring 0 k x) = k.
Proof.
  induction k as [|k IH]; intros x L.
  - rewrite Nat.sub_0_r. destruct x as [|c r]; cbn [substring]; [now split|].
    cbn [append String.length]. split; [|reflexivity].
    f_equal. clear. induction r as [|d r IH]; cbn; [reflexivity | now rewrite <- IH].
  - destruct x as [|c r]; [cbn in L; lia|]. cbn [String.length] in L |- *.
    cbn [substring append]. destruct (IH r) as [E Lk]; [lia|].
    cbn [Nat.sub]. split; [now rewrite <- E | cbn [String.length]; now rewrite Lk].
Qed.

Section Observed.
(** [m] is the expression that is replaced, a space being put after
    the first [k] characters of each match; [o] is the expression that
    is looked for in the result. *)
Variables (m o : Matcher) (k : nat).
Hypothesis k_range : (1 <= k <= 3)%nat.
Hypothesis m_shape :
  forall s x rest, m s = Some (x, rest) -> s = x ++ rest /\ String.length x = 4%nat.
Hypothesis o_window :
  forall p q q', (4 <= String.length p)%nat -> o (p ++ q) = None -> o (p ++ q') = None.
Hypothesis o_space :
  forall p q, (String.length p <= 3)%nat -> o (p ++ " " ++ q) = None.

(** The result agrees with the text up to the first space put in. *)
Lemma run_agrees n : forall s,
  replaceAll_fuel n m (spaced k) s = s
  \/ exists p q q', p <> "" /\ s = p ++ q /\ replaceAll_fuel n m (spaced k) s = p ++ " " ++ q'.
Proof.
  induction n as [|n IH]; intros s; [now left|]. cbn [replaceAll_fuel].
  destruct (m s) as [[x rest]|] eqn:E.
  - right. destruct (m_shape _ _ _ E) as [-> Lx].
    destruct (substring_split k x) as [Ex Lh]; [lia|].
    exists (substring 0 k x), (substring k (String.length x - k) x ++ rest),
           (substring k (String.length x - k) x ++ replaceAll_fuel n m (spaced k) rest).
    split; [|split].
    + intros Z. rewrite Z in Lh. cbn in Lh. lia.
    + rewrite <- append_assoc. now rewrite <- Ex.
    + unfold spaced. now rewrite !append_assoc.
  - destruct s as [|c r]; [now left|].
    destruct (IH r) as [->|(p & q & q' & N & -> & ->)]; [now left|].
    right. exists (String c p), q, q'. split; [discriminate|]. split; reflexivity.
Qed.

(** What [o] does not match stays unmatched behind any prefix [t]. *)
Lemma run_keeps n t r : o (t ++ r) = None -> o (t ++ replaceAll_fuel n m (spaced k) r) = None.
Proof.
  intros E. destruct (run_agrees n r) as [->|(p & q & q' & N & -> & ->)]; [exact E|].
  rewrite <- append_assoc. rewrite <- append_assoc in E.
  destruct (Nat.le_gt_cases (String.length (t ++ p)) 3) as [L|G].
  - now apply o_space.
  - apply (o_window _ q); [lia | exact E].
Qed.

(** The result is calm for [o] when the text is. *)
Lemma run_calm n : forall s, calm o s -> calm o (replaceAll_fuel n m (spaced k) s).
Proof.
  induction n as [|n IH]; intros s C; [exact C|]. cbn [replaceAll_fuel].
  destruct (m s) as [[x rest]|] eqn:E.
  - destruct (m_shape _ _ _ E) as [-> Lx].
    destruct (substring_split k x) as [Ex Lh]; [lia|].
    set (head := substring 0 k x) in *. set (tail := substring k (String.length x - k) x) in *.
    unfold spaced. fold head tail. rewrite !append_assoc.
    pose proof (calm_suffix _ _ _ C) as Cr.
    apply calm_app.
    + intros u v Eh Nv. apply o_space.
      assert (length head = length u + length v)%nat by (rewrite Eh; apply length_append).
      lia.
    + cbn [append calm]. split; [apply (o_space "" _); cbn; lia|].
      apply calm_app; [|now apply IH].
      intros u v Et Nv. apply run_keeps.
      rewrite Ex, Et in C. rewrite !append_assoc in C.
      apply calm_suffix in C. apply calm_suffix in C. now apply calm_head.
  - destruct s as [|c r]; [exact C|]. destruct C as [C0 Cr]. cbn [calm]. split.
    + apply (run_keeps n (String c "") r). exact C0.
    + now apply IH.
Qed.

End Observed.

Section Settled.
(** The expression that is replaced is itself not matched in the result. *)
Variables (m : Matcher) (k : nat).
Hypothesis k_range : (1 <= k <= 3)%nat.
Hypothesis m_shape :
  forall s x rest, m s = Some (x, rest) -> s = x ++ rest /\ String.length x = 4%nat.
Hypothesis m_window :
  forall p q q', (4 <= String.length p)%nat -> m (p ++ q) = None -> m (p ++ q') = None.
Hypothesis m_space :
  forall p q, (String.length p <= 3)%nat -> m (p ++ " " ++ q) = None.
Hypothesis m_tail :
  forall s x rest u v y,
    m s = Some (x, rest) -> substring k (String.length x - k) x = u ++ v -> v <> "" ->
    m (v ++ y) = None.

Lemma run_settles n : forall s,
  (String.length s <= n)%nat -> calm m (replaceAll_fuel n m (spaced k) s).
Proof.
  induction n as [|n IH]; intros s L.
  - destruct s; [|cbn in L; lia]. cbn [replaceAll_fuel calm].
    destruct (m "") as [[x rest]|] eqn:E; [|reflexivity].
    destruct (m_shape _ _ _ E) as [Ex Lx]. destruct x; [cbn in Lx; lia | discriminate].
  - cbn [replaceAll_fuel]. destruct (m s) as [[x rest]|] eqn:E.
    + destruct (m_shape _ _ _ E) as [Es Lx].
      destruct (substring_split k x) as [Ex Lh]; [lia|].
      unfold spaced. rewrite !append_assoc.
      apply calm_app.
      * intros u v Eh Nv. apply m_space.
        assert (String.length (substring 0 k x) = String.length u + String.length v)%nat
          by (rewrite Eh; apply length_append).
        lia.
      * cbn [append calm]. split; [apply (m_space "" _); cbn; lia|].
        apply calm_app.
        -- intros u v Et Nv. now apply (m_tail s x rest u v).
        -- apply IH. rewrite Es, length_append in L. lia.
    + destruct s as [|c r]; [cbn [calm]; exact E|]. cbn [calm]. split.
      * apply (run_keeps m m k k_range m_shape m_window m_space n (String c "") r). exact E.
      * apply IH. cbn in L. lia.
Qed.

End Settled.

(** *** The two expressions *)

Lemma cjk_at_shape s x rest :
  cjk_at s = Some (x, rest) ->
  exists a b c, x = String a (String b (String c "")) /\ s = x ++ rest
                /\ 224 <= code a /\ 128 <= code b /\ 128 <= code c.
Proof.
  unfold cjk_at. destruct s as [|a [|b [|c r]]]; try discriminate.
  destruct (_ && _) eqn:B; [|discriminate]. intros [= <- <-].
  exists a, b, c. repeat rewrite andb_true_iff in B. rewrite !Z.leb_le in B.
  repeat split; lia.
Qed.

Lemma is_alnum_low c : is_alnum c = true -> code c < 128.
Proof.
  unfold is_alnum, is_alpha, is_upper, is_lower, is_digit. intros E.
  repeat rewrite orb_true_iff in E. repeat rewrite andb_true_iff in E.
  rewrite !Z.leb_le in E. lia.
Qed.

Lemma cjk_at_low c r : code c < 224 -> cjk_at (String c r) = None.
Proof. intros L. apply cjk_at_lead. now apply Z.ltb_lt. Qed.

Lemma cjk_alnum_shape s x rest :
  cjk_alnum s = Some (x, rest) ->
  exists a b c d,
    x = String a (String b (String c (String d ""))) /\ s = x ++ rest
    /\ 224 <= code a /\ 128 <= code b /\ 128 <= code c /\ is_alnum d = true.
Proof.
  unfold cjk_alnum, andThen. destruct (cjk_at s) as [[y r]|] eqn:E; [|discriminate].
  destruct (cjk_at_shape _ _ _ E) as (a & b & c & -> & -> & Ha & Hb & Hc).
  unfold one. destruct r as [|d r]; [discriminate|].
  destruct (is_alnum d) eqn:D; [|discriminate]. intros [= <- <-].
  exists a, b, c, d. repeat split; assumption.
Qed.

Lemma alnum_cjk_shape s x rest :
  alnum_cjk s = Some (x, rest) ->
  exists a b c d,
    x = String a (String b (String c (String d ""))) /\ s = x ++ rest
    /\ is_alnum a = true /\ 224 <= code b /\ 128 <= code c /\ 128 <= code d.
Proof.
  unfold alnum_cjk, andThen, one. destruct s as [|a r]; [discriminate|].
  destruct (is_alnum a) eqn:A; [|discriminate].
  destruct (cjk_at r) as [[y r']|] eqn:E; [|discriminate]. intros [= <- <-].
  destruct (cjk_at_shape _ _ _ E) as (b & c & d & -> & -> & Hb & Hc & Hd).
  exists a, b, c, d. repeat split; assumption.
Qed.

Lemma space_code : code " " = 32.
Proof. reflexivity. Qed.

Lemma space_not_alnum : is_alnum " " = false.
Proof. reflexivity. Qed.

Lemma cjk_at_cont a b c r :
  code b < 128 \/ code c < 128 -> cjk_at (String a (String b (String c r))) = None.
Proof.
  intros H. unfold cjk_at.
  destruct (Z.leb_spec 128 (code b)), (Z.leb_spec 128 (code c)); try lia;
    now rewrite ?andb_false_r.
Qed.

(** Whether [cjk_at] matches depends on three characters. *)
Lemma cjk_at_window a b c q q' :
  cjk_at (String a (String b (String c q))) = None ->
  cjk_at (String a (String b (String c q'))) = None.
Proof. unfold cjk_at. now destruct (_ && _). Qed.

Lemma cjk_alnum_window p q q' :
  (4 <= String.length p)%nat -> cjk_alnum (p ++ q) = None -> cjk_alnum (p ++ q') = None.
Proof.
  destruct p as [|a [|b [|c [|d p]]]]; cbn [String.length]; try lia. intros _.
  unfold cjk_alnum, andThen. cbn [append].
  destruct (cjk_at (String a (String b (String c (String d (p ++ q)))))) as [[y r]|] eqn:E.
  - pose proof (cjk_at_shape _ _ _ E) as (a' & b' & c' & -> & Es & _).
    cbn [append] in Es. injection Es as <- <- <- <-.
    assert (E' : cjk_at (String a (String b (String c (String d (p ++ q')))))
                 = Some (String a (String b (String c "")), String d (p ++ q'))).
    { revert E. unfold cjk_at. destruct (_ && _); [|discriminate]. reflexivity. }
    rewrite E'. unfold one. now destruct (is_alnum d).
  - now rewrite (cjk_at_window _ _ _ _ (String d (p ++ q')) E).
Qed.

Lemma cjk_alnum_space p q :
  (String.length p <= 3)%nat -> cjk_alnum (p ++ " " ++ q) = None.
Proof.
  unfold cjk_alnum, andThen. destruct p as [|a [|b [|c [|d p]]]]; cbn [String.length append];
    try lia; intros _.
  - now rewrite cjk_at_low by (rewrite space_code; lia).
  - destruct q as [|c q]; [reflexivity|].
    now rewrite cjk_at_cont by (left; rewrite space_code; lia).
  - now rewrite cjk_at_cont by (right; rewrite space_code; lia).
  - destruct (cjk_at _) as [[y r]|] eqn:E; [|reflexivity].
    pose proof (cjk_at_shape _ _ _ E) as (a' & b' & c' & -> & Es & _).
    cbn [append] in Es. injection Es as <- <- <- <-. reflexivity.
Qed.

Lemma cjk_alnum_tail s x rest u v y :
  cjk_alnum s = Some (x, rest) -> substring 3 (String.length x - 3) x = u ++ v -> v <> "" ->
  cjk_alnum (v ++ y) = None.
Proof.
  intros E Ex Nv. destruct (cjk_alnum_shape _ _ _ E) as (a & b & c & d & -> & _ & _ & _ & _ & D).
  cbn in Ex. apply is_alnum_low in D.
  destruct u as [|u0 u]; cbn [append] in Ex.
  - subst v. unfold cjk_alnum, andThen. cbn [append]. now rewrite cjk_at_low by lia.
  - injection Ex as _ Ex. destruct u; [|discriminate]. cbn [append] in Ex. now subst v.
Qed.

Lemma alnum_cjk_window p q q' :
  (4 <= String.length p)%nat -> alnum_cjk (p ++ q) = None -> alnum_cjk (p ++ q') = None.
Proof.
  destruct p as [|a [|b [|c [|d p]]]]; cbn [String.length]; try lia. intros _.
  unfold alnum_cjk, andThen, one. cbn [append]. destruct (is_alnum a); [|reflexivity].
  destruct (cjk_at (String b (String c (String d (p ++ q))))) as [[y r]|] eqn:E;
    [discriminate|]. intros _.
  now rewrite (cjk_at_window _ _ _ _ (p ++ q') E).
Qed.

Lemma alnum_cjk_space p q :
  (String.length p <= 3)%nat -> alnum_cjk (p ++ " " ++ q) = None.
Proof.
  unfold alnum_cjk, andThen, one.
  destruct p as [|a [|b [|c [|d p]]]]; cbn [String.length append]; try lia; intros _.
  - reflexivity.
  - destruct (is_alnum a); [|reflexivity].
    now rewrite cjk_at_low by (rewrite space_code; lia).
  - destruct (is_alnum a); [|reflexivity]. destruct q as [|c q]; [reflexivity|].
    now rewrite cjk_at_cont by (left; rewrite space_code; lia).
  - destruct (is_alnum a); [|reflexivity].
    now rewrite cjk_at_cont by (right; rewrite space_code; lia).
Qed.

Lemma not_alnum_high c : 128 <= code c -> is_alnum c = false.
Proof.
  intros H. destruct (is_alnum c) eqn:E; [|reflexivity]. apply is_alnum_low in E. lia.
Qed.

Lemma alnum_cjk_tail s x rest u v y :
  alnum_cjk s = Some (x, rest) -> substring 1 (String.length x - 1) x = u ++ v -> v <> "" ->
  alnum_cjk (v ++ y) = None.
Proof.
  intros E Ex Nv.
  destruct (alnum_cjk_shape _ _ _ E) as (a & b & c & d & -> & _ & _ & Hb & Hc & Hd).
  cbn in Ex. unfold alnum_cjk, andThen, one.
  destruct u as [|u0 [|u1 [|u2 u]]]; cbn [append] in Ex.
  - subst v. cbn [append]. now rewrite not_alnum_high by lia.
  - injection Ex as _ <-. cbn [append]. now rewrite not_alnum_high by lia.
  - injection Ex as _ _ <-. cbn [append]. now rewrite not_alnum_high by lia.
  - injection Ex as _ _ _ Ex. destruct u; [|discriminate]. cbn [append] in Ex. now subst v.
Qed.

Lemma cjk_alnum_four s x rest :
  cjk_alnum s = Some (x, rest) -> s = x ++ rest /\ String.length x = 4%nat.
Proof.
  intros E. destruct (cjk_alnum_shape _ _ _ E) as (a & b & c & d & -> & -> & _). now split.
Qed.

Lemma alnum_cjk_four s x rest :
  alnum_cjk s = Some (x, rest) -> s = x ++ rest /\ String.length x = 4%nat.
Proof.
  intros E. destruct (alnum_cjk_shape _ _ _ E) as (a & b & c & d & -> & -> & _). now split.
Qed.

(** X24: [addReadableSpacing] changes nothing in its own result. *)
Theorem addReadableSpacing_idempotent text :
  addReadableSpacing (addReadableSpacing text) = addReadableSpacing text.
Proof.
  rewrite (addReadableSpacing_passes text).
  set (first := replaceAll cjk_alnum (spaced 3) text).
  set (second := replaceAll alnum_cjk (spaced 1) first).
  assert (C1 : calm cjk_alnum first).
  { apply (run_settles cjk_alnum 3); try lia.
    - exact cjk_alnum_four.
    - exact cjk_alnum_window.
    - exact cjk_alnum_space.
    - exact cjk_alnum_tail. }
  assert (C2 : calm cjk_alnum second).
  { apply (run_calm alnum_cjk cjk_alnum 1); try lia.
    - exact alnum_cjk_four.
    - exact cjk_alnum_window.
    - exact cjk_alnum_space.
    - exact C1. }
  assert (C3 : calm alnum_cjk second).
  { apply (run_settles alnum_cjk 1); try lia.
    - exact alnum_cjk_four.
    - exact alnum_cjk_window.
    - exact alnum_cjk_space.
    - exact alnum_cjk_tail. }
  rewrite addReadableSpacing_passes.
  now rewrite (calm_fixed _ _ _ C2), (calm_fixed _ _ _ C3).
Qed.

End SpacingFacts.
